(** * DeepRL-Tutorials: the DQN and A2C agents (agents/DQN.py, agents/A2C.py)

    A shallow embedding of the two agent classes and the properties of
    their training loops.

    - Python floats and tensor entries are exact rationals ([Q]); rounding is
      not modelled, and equalities between computed numbers are stated
      with [==].  The entries of observations are [Float]s: a rational, an
      infinity or NaN, since an environment may report non-finite values
      and a division by [s_norm = 0] produces them.
    - A tensor that takes part in automatic differentiation is a list of
      dual numbers [D]: a value together with its gradient with respect to
      the parameters of the online network.  [detach] and the
      [with torch.no_grad()] block drop the gradient part.
    - Python exceptions are the [Raise] results of an error monad; the
      mutable agent object is a record threaded through a state monad.
    - The collaborators that the repository imports from outside the
      agent files (networks, optimizer, vectorised environment, replay
      memory, rollout storage, schedules, random generators) are type
      class interfaces. *)

From Stdlib Require Import ZArith QArith Qabs Lia Lra String.
From stdpp Require Import base option list gmap strings.

Local Open Scope Z_scope.

(** ** Python results and the state-and-exception monad *)

Inductive exn : Set :=
| IndexError
| KeyError
| ValueError
| ZeroDivisionError
| RuntimeError
| AttributeError
| TypeError.

Inductive result (A : Type) : Type :=
| Ok (a : A)
| Raise (e : exn).
Arguments Ok {A} a.
Arguments Raise {A} e.

Definition rbind {A B} (m : result A) (k : A -> result B) : result B :=
  match m with
  | Ok a => k a
  | Raise e => Raise e
  end.

Fixpoint rmapM {A B} (f : A -> result B) (l : list A) : result (list B) :=
  match l with
  | [] => Ok []
  | x :: l' => rbind (f x) (fun y => rbind (rmapM f l') (fun ys => Ok (y :: ys)))
  end.

(** A method of an object of state [S] that returns an [A]. *)
Definition SE (S A : Type) : Type := S -> result (A * S).

Definition ret {S A} (a : A) : SE S A := fun s => Ok (a, s).
Definition bind {S A B} (m : SE S A) (k : A -> SE S B) : SE S B :=
  fun s => match m s with
           | Ok (a, s') => k a s'
           | Raise e => Raise e
           end.
Definition get {S} : SE S S := fun s => Ok (s, s).
Definition modify {S} (f : S -> S) : SE S unit := fun s => Ok (tt, f s).
Definition lift {S A} (r : result A) : SE S A :=
  fun s => match r with
           | Ok a => Ok (a, s)
           | Raise e => Raise e
           end.
Definition raise {S A} (e : exn) : SE S A := fun _ => Raise e.

Declare Scope se_scope.
Delimit Scope se_scope with se.
Notation "x <~ m ;; k" := (bind m (fun x => k))
  (at level 62, m at next level, right associativity) : se_scope.
Notation "m ;;; k" := (bind m (fun _ => k))
  (at level 62, right associativity) : se_scope.

(** [for x in xs: body x] *)
Fixpoint for_each {S A} (xs : list A) (body : A -> SE S unit) : SE S unit :=
  match xs with
  | [] => ret tt
  | x :: xs' => bind (body x) (fun _ => for_each xs' body)
  end.

(** [enumerate(xs)] *)
Definition enumerate {A} (xs : list A) : list (Z * A) :=
  imap (fun i x => (Z.of_nat i, x)) xs.

(** [zip(s, a, r, s_, t)] stops at the shortest argument. *)
Fixpoint zip5 {A B C D' E'} (s : list A) (a : list B) (r : list C)
    (s_ : list D') (t : list E') : list (A * B * C * D' * E') :=
  match s, a, r, s_, t with
  | x :: s, y :: a, z :: r, u :: s_, v :: t =>
      (x, y, z, u, v) :: zip5 s a r s_ t
  | _, _, _, _, _ => []
  end.

(** [xs[i]] on a Python sequence: negative indices count from the end. *)
Definition py_index {A} (xs : list A) (i : Z) : result A :=
  let n := Z.of_nat (length xs) in
  let j := if i <? 0 then n + i else i in
  if (j <? 0) || (n <=? j) then Raise IndexError
  else match xs !! Z.to_nat j with
       | Some x => Ok x
       | None => Raise IndexError
       end.

(** [xs[i] = v] *)
Definition py_setitem {A} (xs : list A) (i : Z) (v : A) : result (list A) :=
  let n := Z.of_nat (length xs) in
  let j := if i <? 0 then n + i else i in
  if (j <? 0) || (n <=? j) then Raise IndexError
  else Ok (<[Z.to_nat j := v]> xs).

(** [collections.deque(maxlen=n).append(x)]: the oldest entries fall off
    the left end once the deque is full. *)
Definition deque_append {A} (maxlen : nat) (d : list A) (x : A) : list A :=
  let d' := d ++ [x] in
  drop (length d' - maxlen)%nat d'.

(** ** Numbers *)

Definition Qgtb (a b : Q) : bool := negb (Qle_bool a b).
Definition Qltb (a b : Q) : bool := negb (Qle_bool b a).

(** Sum and mean of a list of numbers; the mean of no numbers, NaN in
    numpy and torch, is 0 here. *)
Definition Qsum (l : list Q) : Q := foldr Qplus 0%Q l.
Definition Qmean (l : list Q) : Q := (Qsum l / inject_Z (Z.of_nat (length l)))%Q.

(** [done.astype(np.float32)] and [1. - x] on an array *)
Definition astype_float (done : list bool) : list Q :=
  map (fun d : bool => if d then 1%Q else 0%Q) done.
Definition one_minus (x : list Q) : list Q := map (fun v => 1 - v)%Q x.

(** numpy in-place arithmetic [x op= y] on one-dimensional arrays: [y]
    must have the shape of [x] or broadcast to it. *)
Definition np_inplace (op : Q -> Q -> Q) (x y : list Q) : result (list Q) :=
  if (length y =? length x)%nat then Ok (zip_with op x y)
  else match y with
       | [c] => Ok (map (fun a => op a c) x)
       | _ => Raise ValueError
       end.

(** ** Automatic differentiation

    [Grad] is the space of gradients with respect to the parameters of
    the network being trained. *)

Class Autograd := {
  Grad : Type;
  gzero : Grad;
  gadd : Grad -> Grad -> Grad;
  gscale : Q -> Grad -> Grad
}.

Section Dual.
Context {AG : Autograd}.

(** A tensor entry: its value and its gradient. *)
Record D := mkD { val : Q; tan : Grad }.

(** A number that does not depend on the parameters (a Python float, a
    tensor made by [torch.from_numpy]). *)
Definition const (q : Q) : D := mkD q gzero.

(** [x.detach()] *)
Definition detach (x : D) : D := mkD (val x) gzero.

(** Whatever is computed inside [with torch.no_grad():] carries no
    gradient when it leaves the block. *)
Definition no_grad (xs : list D) : list D := map detach xs.

Definition Dadd (x y : D) : D := mkD (val x + val y) (gadd (tan x) (tan y)).
Definition Dsub (x y : D) : D :=
  mkD (val x - val y) (gadd (tan x) (gscale (-1) (tan y))).
Definition Dmul (x y : D) : D :=
  mkD (val x * val y) (gadd (gscale (val y) (tan x)) (gscale (val x) (tan y))).
Definition Dneg (x : D) : D := mkD (- val x) (gscale (-1) (tan x)).
(** [c * x] and [x * c] for a Python float [c] *)
Definition Dcmul (c : Q) (x : D) : D := mkD (c * val x) (gscale c (tan x)).
Definition Dmulc (x : D) (c : Q) : D := mkD (val x * c) (gscale c (tan x)).
(** [x.pow(2)] *)
Definition Dpow2 (x : D) : D :=
  mkD (val x * val x) (gscale (2 * val x) (tan x)).

Definition gsum (l : list Grad) : Grad := foldr gadd gzero l.

(** [x.mean()] over all entries *)
Definition Dmean (xs : list D) : D :=
  mkD (Qmean (map val xs))
      (gscale (1 / inject_Z (Z.of_nat (length xs))) (gsum (map tan xs))).

(** Elementwise operation on two column tensors of shapes (B,1) and
    (B',1) under torch's broadcasting rule. *)
Definition bcast (op : D -> D -> D) (xs ys : list D) : result (list D) :=
  if (length xs =? length ys)%nat then Ok (zip_with op xs ys)
  else match xs, ys with
       | [x], _ => Ok (map (op x) ys)
       | _, [y] => Ok (map (fun x => op x y) xs)
       | _, _ => Raise RuntimeError
       end.

(** [x.max(dim=1)[0]] on one row: the first entry of greatest value;
    reducing an empty dimension is an [IndexError]. *)
Fixpoint max_from (best : D) (row : list D) : D :=
  match row with
  | [] => best
  | x :: row' => max_from (if Qltb (val best) (val x) then x else best) row'
  end.

Definition row_max (row : list D) : result D :=
  match row with
  | [] => Raise IndexError
  | x :: row' => Ok (max_from x row')
  end.

(** [torch.argmax(x, dim=1)] on one row: the index of the first entry of
    greatest value. *)
Fixpoint argmax_from (best_i : nat) (best : Q) (i : nat) (row : list D) : nat :=
  match row with
  | [] => best_i
  | x :: row' =>
      if Qltb best (val x) then argmax_from i (val x) (S i) row'
      else argmax_from best_i best (S i) row'
  end.

Definition argmax_row (row : list D) : result Z :=
  match row with
  | [] => Raise IndexError
  | x :: row' => Ok (Z.of_nat (argmax_from 0 (val x) 1 row'))
  end.

(** [x.gather(1, index)] for an index tensor of shape (B',1): row [i] of
    the result is [x[i][index[i]]]; the index may not have more rows than
    [x], and every index must name a column. *)
Definition gather_row (row : list D) (j : Z) : result D :=
  if j <? 0 then Raise RuntimeError
  else match row !! Z.to_nat j with
       | Some x => Ok x
       | None => Raise RuntimeError
       end.

Definition gather (x : list (list D)) (index : list Z) : result (list D) :=
  if (length x <? length index)%nat then Raise RuntimeError
  else rmapM (fun p => gather_row (fst p) (snd p)) (zip x index).

(** [torch.nn.SmoothL1Loss(reduction='mean')] with its default
    threshold 1: the Huber loss. *)
Definition Qsign (d : Q) : Q := if Qltb d 0 then (-1)%Q else 1%Q.

Definition smooth_l1 (x y : D) : D :=
  let d := (val x - val y)%Q in
  if Qltb (Qabs d) 1
  then mkD ((1 # 2) * d * d) (gscale d (tan (Dsub x y)))
  else mkD (Qabs d - (1 # 2)) (gscale (Qsign d) (tan (Dsub x y))).

Definition SmoothL1Loss (input target : list D) : result D :=
  rbind (bcast smooth_l1 input target) (fun l => Ok (Dmean l)).

End Dual.

(** ** Data shared by the agents *)

(** An entry of a float32 observation tensor: finite (an exact rational),
    plus or minus infinity, or NaN. *)
Inductive Float : Set :=
| Fin (q : Q)
| Inf (negative : bool)
| NaN.

(** [x / d] for a tensor entry [x] and a Python number [d]: a finite
    non-zero entry divided by zero is an infinity of its sign, zero
    divided by zero is NaN. *)
Definition fdiv (x : Float) (d : Q) : Float :=
  match x with
  | Fin q =>
      if Qeq_bool d 0
      then (if Qeq_bool q 0 then NaN else Inf (Qltb q 0))
      else Fin (q / d)
  | Inf negative => Inf (if Qltb d 0 then negb negative else negative)
  | NaN => NaN
  end.

(** [x * m] for a tensor entry [x] and a finite number [m]: an infinity
    times zero is NaN, and NaN times anything is NaN. *)
Definition fmul (x : Float) (m : Q) : Float :=
  match x with
  | Fin q => Fin (q * m)
  | Inf negative =>
      if Qeq_bool m 0 then NaN
      else Inf (if Qltb m 0 then negb negative else negative)
  | NaN => NaN
  end.

(** One observation, flattened. *)
Abbreviation Obs := (list Float).

(** The [info] dictionary of one environment: a dict of dicts of numbers,
    whose optional ["episode"] entry is [{r: total_reward, l: length}]. *)
Abbreviation Info := (gmap string (gmap string Q)).

Definition dict_getitem {V} (d : gmap string V) (k : string) : result V :=
  match d !! k with
  | Some v => Ok v
  | None => Raise KeyError
  end.

(** [k in d.keys()] *)
Definition dict_contains {V} (d : gmap string V) (k : string) : bool :=
  bool_decide (k ∈ dom d).

(** A record of the metrics sink: tag, value, step. *)
Abbreviation Scalar := (string * Q * Z)%type.

Record Transition := mkTransition {
  tr_state : Obs;
  tr_action : Z;
  tr_reward : Q;
  tr_next_state : Obs;
  tr_terminal : Z
}.

(** What [memory.sample] returns. *)
Record Sample := mkSample {
  smp_state : list Obs;
  smp_action : list Z;
  smp_reward : list Q;
  smp_next_state : list Obs;
  smp_terminal : list Z;
  smp_indices : list Z;
  smp_weights : list Q
}.

(** The schedule objects of [utils]; the agent only constructs them and
    calls them. *)
Inductive Schedule :=
| ExponentialSchedule (start final decay : Q) (max_tsteps : Z)
| LinearSchedule (start final decay : Q) (max_tsteps : Z)
| PiecewiseSchedule (start : Q) (finals decays : list Q) (max_tsteps : Z).

(** The options of [config] that the two agents read. *)
Record Config := {
  lr : Q;
  adam_eps : Q;
  rms_alpha : Q;
  rms_eps : Q;
  noisy_nets : bool;
  num_envs : nat;
  exp_replay_size : Z;
  epsilon_start : Q;
  epsilon_final : list Q;
  epsilon_decay : list Q;
  max_tsteps : Z;
  batch_size : Z;
  s_norm : option Q;
  gamma : Q;
  learn_start : Z;
  grad_norm_max : Q;
  target_net_update_freq : Z;
  update_freq : nat;
  use_gae : bool;
  gae_tau : Q;
  value_loss_weight : Q;
  entropy_loss_weight : Q
}.

(** [X if s_norm is None else X / s_norm] *)
Definition normalise (cfg : Config) (X : list Obs) : list Obs :=
  match s_norm cfg with
  | None => X
  | Some d => map (map (fun x => fdiv x d)) X
  end.

(** ** The collaborators *)

(** torch and numpy: networks, distributions, optimizers and the random
    generators of the process. *)
Class Torch {AG : Autograd} := {
  (** a [state_dict] *)
  Params : Type;
  (** a recurrent-state tensor *)
  Hidden : Type;
  OptState : Type;
  RNG : Type;
  (** [networks.DQN(...)] and [networks.ActorCritic(...)]: fresh networks *)
  new_dqn : RNG -> Params * RNG;
  new_actor_critic : RNG -> Params * RNG;
  state_size : Params -> Z;
  (** the forward pass of a Q-network on a batch *)
  q_forward : Params -> list Obs -> list (list D);
  (** the forward pass of the actor-critic network: logits, values and new
      recurrent states *)
  ac_forward : Params -> list Obs -> Hidden -> list Q ->
               list (list D) * list D * Hidden;
  (** [F.log_softmax(logits, dim=1)], [Categorical(logits).probs] and
      [Categorical(logits).entropy()], row by row *)
  log_softmax : list D -> list D;
  softmax : list D -> list D;
  entropy : list D -> D;
  (** [Categorical(logits).sample()] *)
  categorical_sample : list (list D) -> RNG -> list Z * RNG;
  (** [optim.Adam(params, lr, eps)], [optim.RMSprop(params, lr, alpha, eps)] *)
  Adam : Q -> Q -> OptState;
  RMSprop : Q -> Q -> Q -> OptState;
  (** [clip_grad_norm_(parameters, max_norm)] on the gradient buffers *)
  clip_grad_norm : Grad -> Q -> Grad;
  (** [optimizer.step()] *)
  opt_step : OptState -> Params -> Grad -> Params * OptState;
  (** the mean of the learning rates of the parameter groups *)
  opt_lr : OptState -> Q;
  (** the 2-norms that are logged *)
  weight_norm : Params -> Q;
  grad_norm : Grad -> Q;
  sigma_norm : Params -> Q;
  (** [np.random.random()] and [np.random.randint(low, high, n)] *)
  np_random : RNG -> Q * RNG;
  np_randint : Z -> Z -> nat -> RNG -> list Z * RNG
}.

(** The vectorised environment. *)
Class VecEnv := {
  EnvState : Type;
  env_reset : EnvState -> list Obs * EnvState;
  env_step : EnvState -> list Z ->
             (list Obs * list Q * list bool * list Info) * EnvState
}.

Section Rollouts.
Context {AG : Autograd} {T : Torch}.

(** The tensors of [utils.RolloutStorage] that the A2C agent reads:
    [update_freq + 1] slots of observations, recurrent states, masks and
    returns, [update_freq] slots of actions, rewards, log-probabilities
    and value estimates, each slot holding one entry per environment. *)
Record RolloutStorage := mkRollouts {
  ro_observations : list (list Obs);
  ro_states : list Hidden;
  ro_rewards : list (list Q);
  ro_value_preds : list (list D);
  ro_returns : list (list D);
  ro_action_log_probs : list (list D);
  ro_actions : list (list Z);
  ro_masks : list (list Q);
  ro_step : nat
}.

End Rollouts.

(** The [utils] package of the repository: replay memory, rollout
    storage and schedules. *)
Class Utils {AG : Autograd} {T : Torch} := {
  Memory : Type;
  (** [ExperienceReplayMemory(capacity)], [push], [sample] *)
  new_memory : Z -> Memory;
  mem_push : Memory -> Transition -> Memory;
  mem_sample : Memory -> Z -> RNG -> result Sample * RNG;
  (** calling a schedule object on a step *)
  schedule_value : Schedule -> Z -> Q;
  (** [RolloutStorage(...)], [insert], [compute_returns], [after_update] *)
  new_rollouts : nat -> nat -> Z -> bool -> Q -> RolloutStorage;
  ro_insert : RolloutStorage -> list Obs -> Hidden -> list Z -> list D ->
              list D -> list Q -> list Q -> RolloutStorage;
  ro_compute_returns : RolloutStorage -> list D -> Q -> RolloutStorage;
  ro_after_update : RolloutStorage -> RolloutStorage
}.

(** ** agents/DQN.py *)

Module DQN.
Section WithCollaborators.
Context {AG : Autograd} {T : Torch} {U : Utils} {E : VecEnv}.
Local Open Scope se_scope.

(** The attributes of [Agent], with the state of the objects it owns:
    [grad] is the content of the [.grad] buffers of [model.parameters()],
    [tb_writer] the scalars recorded so far, [rng] the state of the random
    generators. *)
Record Agent := mkAgent {
  static_policy : bool;
  config : Config;
  num_actions : Z;
  envs : EnvState;
  model : Params;
  target_model : Params;
  optimizer : OptState;
  grad : Grad;
  memory : Memory;
  update_count : Z;
  episode_rewards : list Q;
  last_100_rewards : list Q;
  anneal_eps : option Schedule;
  prev_observations : option (list Obs);
  actions : option (list Z);
  rewards : option (list Q);
  dones : option (list bool);
  infos : list Info;
  observations : list Obs;
  tb_writer : list Scalar;
  rng : RNG
}.

Definition set_envs (v : EnvState) (a : Agent) : Agent :=
  mkAgent (static_policy a) (config a) (num_actions a) v (model a)
    (target_model a) (optimizer a) (grad a) (memory a) (update_count a)
    (episode_rewards a) (last_100_rewards a) (anneal_eps a)
    (prev_observations a) (actions a) (rewards a) (dones a) (infos a)
    (observations a) (tb_writer a) (rng a).

Definition set_model (v : Params) (a : Agent) : Agent :=
  mkAgent (static_policy a) (config a) (num_actions a) (envs a) v
    (target_model a) (optimizer a) (grad a) (memory a) (update_count a)
    (episode_rewards a) (last_100_rewards a) (anneal_eps a)
    (prev_observations a) (actions a) (rewards a) (dones a) (infos a)
    (observations a) (tb_writer a) (rng a).

Definition set_target_model (v : Params) (a : Agent) : Agent :=
  mkAgent (static_policy a) (config a) (num_actions a) (envs a) (model a)
    v (optimizer a) (grad a) (memory a) (update_count a)
    (episode_rewards a) (last_100_rewards a) (anneal_eps a)
    (prev_observations a) (actions a) (rewards a) (dones a) (infos a)
    (observations a) (tb_writer a) (rng a).

Definition set_optimizer (v : OptState) (a : Agent) : Agent :=
  mkAgent (static_policy a) (config a) (num_actions a) (envs a) (model a)
    (target_model a) v (grad a) (memory a) (update_count a)
    (episode_rewards a) (last_100_rewards a) (anneal_eps a)
    (prev_observations a) (actions a) (rewards a) (dones a) (infos a)
    (observations a) (tb_writer a) (rng a).

Definition set_grad (v : Grad) (a : Agent) : Agent :=
  mkAgent (static_policy a) (config a) (num_actions a) (envs a) (model a)
    (target_model a) (optimizer a) v (memory a) (update_count a)
    (episode_rewards a) (last_100_rewards a) (anneal_eps a)
    (prev_observations a) (actions a) (rewards a) (dones a) (infos a)
    (observations a) (tb_writer a) (rng a).

Definition set_memory (v : Memory) (a : Agent) : Agent :=
  mkAgent (static_policy a) (config a) (num_actions a) (envs a) (model a)
    (target_model a) (optimizer a) (grad a) v (update_count a)
    (episode_rewards a) (last_100_rewards a) (anneal_eps a)
    (prev_observations a) (actions a) (rewards a) (dones a) (infos a)
    (observations a) (tb_writer a) (rng a).

Definition set_update_count (v : Z) (a : Agent) : Agent :=
  mkAgent (static_policy a) (config a) (num_actions a) (envs a) (model a)
    (target_model a) (optimizer a) (grad a) (memory a) v
    (episode_rewards a) (last_100_rewards a) (anneal_eps a)
    (prev_observations a) (actions a) (rewards a) (dones a) (infos a)
    (observations a) (tb_writer a) (rng a).

Definition set_episode_rewards (v : list Q) (a : Agent) : Agent :=
  mkAgent (static_policy a) (config a) (num_actions a) (envs a) (model a)
    (target_model a) (optimizer a) (grad a) (memory a) (update_count a)
    v (last_100_rewards a) (anneal_eps a)
    (prev_observations a) (actions a) (rewards a) (dones a) (infos a)
    (observations a) (tb_writer a) (rng a).

Definition set_last_100_rewards (v : list Q) (a : Agent) : Agent :=
  mkAgent (static_policy a) (config a) (num_actions a) (envs a) (model a)
    (target_model a) (optimizer a) (grad a) (memory a) (update_count a)
    (episode_rewards a) v (anneal_eps a)
    (prev_observations a) (actions a) (rewards a) (dones a) (infos a)
    (observations a) (tb_writer a) (rng a).

Definition set_anneal_eps (v : option Schedule) (a : Agent) : Agent :=
  mkAgent (static_policy a) (config a) (num_actions a) (envs a) (model a)
    (target_model a) (optimizer a) (grad a) (memory a) (update_count a)
    (episode_rewards a) (last_100_rewards a) v
    (prev_observations a) (actions a) (rewards a) (dones a) (infos a)
    (observations a) (tb_writer a) (rng a).

(** [self.prev_observations, self.actions, self.rewards, self.dones = ...] *)
Definition set_interaction (po : option (list Obs)) (ac : option (list Z))
    (rw : option (list Q)) (dn : option (list bool)) (a : Agent) : Agent :=
  mkAgent (static_policy a) (config a) (num_actions a) (envs a) (model a)
    (target_model a) (optimizer a) (grad a) (memory a) (update_count a)
    (episode_rewards a) (last_100_rewards a) (anneal_eps a)
    po ac rw dn (infos a)
    (observations a) (tb_writer a) (rng a).

Definition set_infos (v : list Info) (a : Agent) : Agent :=
  mkAgent (static_policy a) (config a) (num_actions a) (envs a) (model a)
    (target_model a) (optimizer a) (grad a) (memory a) (update_count a)
    (episode_rewards a) (last_100_rewards a) (anneal_eps a)
    (prev_observations a) (actions a) (rewards a) (dones a) v
    (observations a) (tb_writer a) (rng a).

Definition set_observations (v : list Obs) (a : Agent) : Agent :=
  mkAgent (static_policy a) (config a) (num_actions a) (envs a) (model a)
    (target_model a) (optimizer a) (grad a) (memory a) (update_count a)
    (episode_rewards a) (last_100_rewards a) (anneal_eps a)
    (prev_observations a) (actions a) (rewards a) (dones a) (infos a)
    v (tb_writer a) (rng a).

Definition set_tb_writer (v : list Scalar) (a : Agent) : Agent :=
  mkAgent (static_policy a) (config a) (num_actions a) (envs a) (model a)
    (target_model a) (optimizer a) (grad a) (memory a) (update_count a)
    (episode_rewards a) (last_100_rewards a) (anneal_eps a)
    (prev_observations a) (actions a) (rewards a) (dones a) (infos a)
    (observations a) v (rng a).

Definition set_rng (v : RNG) (a : Agent) : Agent :=
  mkAgent (static_policy a) (config a) (num_actions a) (envs a) (model a)
    (target_model a) (optimizer a) (grad a) (memory a) (update_count a)
    (episode_rewards a) (last_100_rewards a) (anneal_eps a)
    (prev_observations a) (actions a) (rewards a) (dones a) (infos a)
    (observations a) (tb_writer a) v.

(** [self.tb_writer.add_scalar(tag, value, step)] *)
Definition add_scalar (tag : string) (value : Q) (step : Z) : SE Agent unit :=
  modify (fun a => set_tb_writer (tb_writer a ++ [(tag, value, step)]) a).

(** A draw from the random generators. *)
Definition draw {A} (f : RNG -> A * RNG) : SE Agent A :=
  fun a => let '(x, g) := f (rng a) in Ok (x, set_rng g a).

(** The choice of schedule in [training_priors]. *)
Definition make_schedule (cfg : Config) : result Schedule :=
  if (length (epsilon_final cfg) =? 1)%nat then
    rbind (py_index (epsilon_decay cfg) 0) (fun d0 =>
    if Qgtb d0 1 then
      rbind (py_index (epsilon_final cfg) 0) (fun f0 =>
      rbind (py_index (epsilon_decay cfg) 0) (fun d0' =>
      Ok (ExponentialSchedule (epsilon_start cfg) f0 d0' (max_tsteps cfg))))
    else
      rbind (py_index (epsilon_final cfg) 0) (fun f0 =>
      rbind (py_index (epsilon_decay cfg) 0) (fun d0' =>
      Ok (LinearSchedule (epsilon_start cfg) f0 d0' (max_tsteps cfg)))))
  else
    Ok (PiecewiseSchedule (epsilon_start cfg) (epsilon_final cfg)
          (epsilon_decay cfg) (max_tsteps cfg)).

Definition training_priors : SE Agent unit :=
  self <~ get ;;
  modify (set_episode_rewards (repeat 0%Q (num_envs (config self)))) ;;;
  modify (set_last_100_rewards []) ;;;
  sched <~ lift (make_schedule (config self)) ;;
  modify (set_anneal_eps (Some sched)) ;;;
  modify (set_interaction None None None None) ;;;
  modify (fun a => let '(obs, e) := env_reset (envs a) in
                   set_observations obs (set_envs e a)).

(** [__init__]: [declare_networks], the copy of the online parameters
    into the target network, the optimizer, [declare_memory], the update
    counter and [training_priors]. *)
Definition init (static : bool) (env : EnvState) (cfg : Config)
    (n_actions : Z) (g : RNG) : result Agent :=
  let '(m, g1) := new_dqn g in
  let '(tm, g2) := new_dqn g1 in
  let a :=
    mkAgent static cfg n_actions env m m (Adam (lr cfg) (adam_eps cfg))
      gzero (new_memory (exp_replay_size cfg)) 0 [] [] None
      None None None None [] [] [] g2 in
  match training_priors a with
  | Ok (_, a') => Ok a'
  | Raise e => Raise e
  end.

Definition push_row (m : Memory)
    (row : Obs * Z * Q * Obs * Z) : Memory :=
  let '(state, action, reward, next_state, terminal) := row in
  mem_push m (mkTransition state action reward next_state terminal).

Definition append_to_replay (s : list Obs) (a : list Z) (r : list Q)
    (s_ : list Obs) (t : list Z) : SE Agent unit :=
  modify (fun self =>
    set_memory (fold_left push_row (zip5 s a r s_ t) (memory self)) self).

(** The minibatch as tensors on the device. *)
Record Batch := mkBatch {
  batch_state : list Obs;
  batch_action : list Z;
  batch_reward : list Q;
  batch_next_state : list Obs;
  batch_terminal : list Q;
  indices : list Z;
  weights : list Q
}.

Definition prep_minibatch : SE Agent Batch :=
  self <~ get ;;
  smp <~ (fun a =>
            let '(r, g) := mem_sample (memory a) (batch_size (config a)) (rng a) in
            match r with
            | Ok x => Ok (x, set_rng g a)
            | Raise e => Raise e
            end) ;;
  ret (mkBatch (normalise (config self) (smp_state smp))
               (smp_action smp)
               (smp_reward smp)
               (normalise (config self) (smp_next_state smp))
               (map inject_Z (smp_terminal smp))
               (smp_indices smp)
               (smp_weights smp)).

Definition compute_loss (batch_vars : Batch) (tstep : Z) : SE Agent D :=
  self <~ get ;;
  (* estimate *)
  current_q_values <~
    lift (gather (q_forward (model self) (batch_state batch_vars))
                 (batch_action batch_vars)) ;;
  (* target *)
  target <~
    lift (rbind (rmapM row_max
                   (q_forward (target_model self) (batch_next_state batch_vars)))
          (fun max_q =>
          rbind (bcast Dmul (map (Dcmul (gamma (config self))) max_q)
                   (map (fun t => const (1 - t)) (batch_terminal batch_vars)))
          (fun next_q_values =>
          rbind (bcast Dadd (map const (batch_reward batch_vars)) next_q_values)
          (fun target => Ok (no_grad target))))) ;;
  loss <~ lift (SmoothL1Loss current_q_values target) ;;
  (* log val estimates *)
  add_scalar "Policy/Value Estimate"
    (Qmean (map val (map detach current_q_values))) tstep ;;;
  add_scalar "Policy/Next Value Estimate"
    (Qmean (map val (map detach target))) tstep ;;;
  ret loss.

Definition update_target_model : SE Agent unit :=
  modify (fun self => set_update_count (update_count self + 1) self) ;;;
  self <~ get ;;
  (if target_net_update_freq (config self) =? 0
   then raise ZeroDivisionError
   else modify (set_update_count
                  (update_count self mod target_net_update_freq (config self)))) ;;;
  self <~ get ;;
  if update_count self =? 0
  then modify (fun self => set_target_model (model self) self)
  else ret tt.

(** The greedy action of the target network on each next state. *)
Definition get_max_next_state_action (next_states : list Obs)
    : SE Agent (list Z) :=
  self <~ get ;;
  lift (rmapM argmax_row (q_forward (target_model self) next_states)).

Definition update_ (s : option (list Obs)) (a : option (list Z))
    (r : option (list Q)) (s_ : list Obs) (terminal : list Z)
    (tstep : Z) : SE Agent unit :=
  self <~ get ;;
  if static_policy self then ret tt else
  match s, a, r with
  | Some s, Some a, Some r => append_to_replay s a r s_ terminal
  | _, _, _ => raise TypeError
  end ;;;
  if tstep <? learn_start (config self) then ret tt else
  batch_vars <~ prep_minibatch ;;
  loss <~ compute_loss batch_vars tstep ;;
  (* Optimize the model *)
  modify (set_grad gzero) ;;;
  modify (fun self => set_grad (gadd (grad self) (tan loss)) self) ;;;
  modify (fun self =>
    set_grad (clip_grad_norm (grad self) (grad_norm_max (config self))) self) ;;;
  modify (fun self =>
    let '(p, o) := opt_step (optimizer self) (model self) (grad self) in
    set_model p (set_optimizer o self)) ;;;
  update_target_model ;;;
  (* more logging *)
  add_scalar "Loss/Total Loss" (val loss) tstep ;;;
  self <~ get ;;
  add_scalar "Learning/Learning Rate" (opt_lr (optimizer self)) tstep ;;;
  add_scalar "Learning/Weight Norm" (weight_norm (model self)) tstep ;;;
  add_scalar "Learning/Grad Norm" (grad_norm (grad self)) tstep ;;;
  if noisy_nets (config self)
  then add_scalar "Policy/Sigma Norm" (sigma_norm (model self)) tstep
  else ret tt.

Definition get_action (s : list Obs) (eps : Q) : SE Agent (list Z) :=
  u <~ draw np_random ;;
  self <~ get ;;
  if Qgtb u eps || static_policy self || noisy_nets (config self) then
    let X := normalise (config self) s in
    lift (rmapM argmax_row (q_forward (model self) X))
  else
    (* numpy checks [low < high] only when it has entries to draw *)
    if (num_actions self <=? 0) && negb (length s =? 0)%nat
    then raise ValueError
    else draw (np_randint 0 (num_actions self) (length s)).

(** The body of the loop over [enumerate(self.infos)] in [step]. *)
Definition record_episode (current_tstep : Z) (p : Z * Info) : SE Agent unit :=
  let '(idx, info) := p in
  if dict_contains info "episode" then
    ep <~ lift (dict_getitem info "episode") ;;
    r <~ lift (dict_getitem ep "r") ;;
    modify (fun self =>
      set_last_100_rewards (deque_append 100 (last_100_rewards self) r) self) ;;;
    ep <~ lift (dict_getitem info "episode") ;;
    r <~ lift (dict_getitem ep "r") ;;
    add_scalar "Performance/Environment Reward" r (current_tstep + idx) ;;;
    ep <~ lift (dict_getitem info "episode") ;;
    l <~ lift (dict_getitem ep "l") ;;
    add_scalar "Performance/Episode Length" l (current_tstep + idx)
  else ret tt.

Definition step (current_tstep : Z) : SE Agent unit :=
  self <~ get ;;
  sched <~ lift (match anneal_eps self with
                 | Some f => Ok f
                 | None => Raise AttributeError
                 end) ;;
  let epsilon := schedule_value sched current_tstep in
  add_scalar "Policy/Epsilon" epsilon current_tstep ;;;
  acts <~ get_action (observations self) epsilon ;;
  self <~ get ;;
  let '(obs, rews, dns, infs, e) := env_step (envs self) acts in
  modify (set_interaction (Some (observations self)) (Some acts)
                          (Some rews) (Some dns)) ;;;
  modify (set_observations obs) ;;;
  modify (set_infos infs) ;;;
  modify (set_envs e) ;;;
  er <~ lift (np_inplace Qplus (episode_rewards self) rews) ;;
  modify (set_episode_rewards er) ;;;
  for_each (enumerate dns) (fun '(idx, done) =>
    if done : bool then
      self <~ get ;;
      x <~ lift (py_index (episode_rewards self) idx) ;;
      add_scalar "Performance/Agent Reward" x (current_tstep + idx) ;;;
      er <~ lift (py_setitem (episode_rewards self) idx 0%Q) ;;
      modify (set_episode_rewards er)
    else ret tt) ;;;
  for_each (enumerate infs) (record_episode current_tstep).

Definition update (current_tstep : Z) : SE Agent unit :=
  self <~ get ;;
  match dones self with
  | None => raise AttributeError
  | Some d =>
      update_ (prev_observations self) (actions self) (rewards self)
        (observations self) (map (fun b : bool => if b then 1 else 0) d)
        current_tstep
  end.

End WithCollaborators.
End DQN.

(** ** Tensors of shape (T, N, 1) as lists of rows *)

Section Grid.
Context {AG : Autograd}.

(** [xs[:-1]] *)
Definition but_last {A} (xs : list A) : list A := take (length xs - 1)%nat xs.

Fixpoint chunks {A} (t n : nat) (xs : list A) : list (list A) :=
  match t with
  | O => []
  | S t' => take n xs :: chunks t' n (drop n xs)
  end.

(** [x.view(t, n, 1)] of a tensor with [length xs] entries *)
Definition view {A} (t n : nat) (xs : list A) : result (list (list A)) :=
  if (length xs =? t * n)%nat then Ok (chunks t n xs) else Raise RuntimeError.

(** Broadcasting along the first dimension, with a fallible operation on
    the rows. *)
Definition bcast_rows {A B C} (op : A -> B -> result C)
    (xs : list A) (ys : list B) : result (list C) :=
  if (length xs =? length ys)%nat
  then rmapM (fun p => op (fst p) (snd p)) (zip xs ys)
  else match xs, ys with
       | [x], _ => rmapM (op x) ys
       | _, [y] => rmapM (fun x => op x y) xs
       | _, _ => Raise RuntimeError
       end.

(** Elementwise operation on two tensors of shapes (T,N,1) and (T',N',1) *)
Definition bcast2 (op : D -> D -> D) (X Y : list (list D))
    : result (list (list D)) :=
  bcast_rows (bcast op) X Y.

(** numpy's [x op y] on one-dimensional arrays: shapes that do not
    broadcast are a [ValueError]. *)
Definition np_binop (op : Q -> Q -> Q) (x y : list Q) : result (list Q) :=
  if (length x =? length y)%nat then Ok (zip_with op x y)
  else match x, y with
       | [a], _ => Ok (map (op a) y)
       | _, [b] => Ok (map (fun a => op a b) x)
       | _, _ => Raise ValueError
       end.

End Grid.

(** ** agents/A2C.py *)

Module A2C.
Section WithCollaborators.
Context {AG : Autograd} {T : Torch} {U : Utils} {E : VecEnv}.
Local Open Scope se_scope.

Record Agent := mkAgent {
  static_policy : bool;
  config : Config;
  num_actions : Z;
  envs : EnvState;
  model : Params;
  optimizer : OptState;
  grad : Grad;
  rollouts : RolloutStorage;
  obs : list Obs;
  episode_rewards : list Q;
  final_rewards : list Q;
  last_100_rewards : list Q;
  tb_writer : list Scalar;
  rng : RNG
}.

Definition set_envs (v : EnvState) (a : Agent) : Agent :=
  mkAgent (static_policy a) (config a) (num_actions a) v (model a)
    (optimizer a) (grad a) (rollouts a) (obs a) (episode_rewards a)
    (final_rewards a) (last_100_rewards a) (tb_writer a) (rng a).

Definition set_model (v : Params) (a : Agent) : Agent :=
  mkAgent (static_policy a) (config a) (num_actions a) (envs a) v
    (optimizer a) (grad a) (rollouts a) (obs a) (episode_rewards a)
    (final_rewards a) (last_100_rewards a) (tb_writer a) (rng a).

Definition set_optimizer (v : OptState) (a : Agent) : Agent :=
  mkAgent (static_policy a) (config a) (num_actions a) (envs a) (model a)
    v (grad a) (rollouts a) (obs a) (episode_rewards a)
    (final_rewards a) (last_100_rewards a) (tb_writer a) (rng a).

Definition set_grad (v : Grad) (a : Agent) : Agent :=
  mkAgent (static_policy a) (config a) (num_actions a) (envs a) (model a)
    (optimizer a) v (rollouts a) (obs a) (episode_rewards a)
    (final_rewards a) (last_100_rewards a) (tb_writer a) (rng a).

Definition set_rollouts (v : RolloutStorage) (a : Agent) : Agent :=
  mkAgent (static_policy a) (config a) (num_actions a) (envs a) (model a)
    (optimizer a) (grad a) v (obs a) (episode_rewards a)
    (final_rewards a) (last_100_rewards a) (tb_writer a) (rng a).

Definition set_obs (v : list Obs) (a : Agent) : Agent :=
  mkAgent (static_policy a) (config a) (num_actions a) (envs a) (model a)
    (optimizer a) (grad a) (rollouts a) v (episode_rewards a)
    (final_rewards a) (last_100_rewards a) (tb_writer a) (rng a).

Definition set_episode_rewards (v : list Q) (a : Agent) : Agent :=
  mkAgent (static_policy a) (config a) (num_actions a) (envs a) (model a)
    (optimizer a) (grad a) (rollouts a) (obs a) v
    (final_rewards a) (last_100_rewards a) (tb_writer a) (rng a).

Definition set_final_rewards (v : list Q) (a : Agent) : Agent :=
  mkAgent (static_policy a) (config a) (num_actions a) (envs a) (model a)
    (optimizer a) (grad a) (rollouts a) (obs a) (episode_rewards a)
    v (last_100_rewards a) (tb_writer a) (rng a).

Definition set_last_100_rewards (v : list Q) (a : Agent) : Agent :=
  mkAgent (static_policy a) (config a) (num_actions a) (envs a) (model a)
    (optimizer a) (grad a) (rollouts a) (obs a) (episode_rewards a)
    (final_rewards a) v (tb_writer a) (rng a).

Definition set_tb_writer (v : list Scalar) (a : Agent) : Agent :=
  mkAgent (static_policy a) (config a) (num_actions a) (envs a) (model a)
    (optimizer a) (grad a) (rollouts a) (obs a) (episode_rewards a)
    (final_rewards a) (last_100_rewards a) v (rng a).

Definition set_rng (v : RNG) (a : Agent) : Agent :=
  mkAgent (static_policy a) (config a) (num_actions a) (envs a) (model a)
    (optimizer a) (grad a) (rollouts a) (obs a) (episode_rewards a)
    (final_rewards a) (last_100_rewards a) (tb_writer a) v.

Definition set_ro_observations (v : list (list Obs)) (r : RolloutStorage)
    : RolloutStorage :=
  mkRollouts v (ro_states r) (ro_rewards r) (ro_value_preds r)
    (ro_returns r) (ro_action_log_probs r) (ro_actions r) (ro_masks r)
    (ro_step r).

Definition add_scalar (tag : string) (value : Q) (step : Z) : SE Agent unit :=
  modify (fun a => set_tb_writer (tb_writer a ++ [(tag, value, step)]) a).

Definition draw {A} (f : RNG -> A * RNG) : SE Agent A :=
  fun a => let '(x, g) := f (rng a) in Ok (x, set_rng g a).

Definition training_priors : SE Agent unit :=
  modify (fun a => let '(o, e) := env_reset (envs a) in
                   set_obs o (set_envs e a)) ;;;
  self <~ get ;;
  let obs := normalise (config self) (obs self) in
  slots <~ lift (py_setitem (ro_observations (rollouts self)) 0 obs) ;;
  modify (fun a => set_rollouts (set_ro_observations slots (rollouts a)) a) ;;;
  modify (set_episode_rewards (repeat 0%Q (num_envs (config self)))) ;;;
  modify (set_final_rewards (repeat 0%Q (num_envs (config self)))) ;;;
  modify (set_last_100_rewards []).

Definition init (static : bool) (env : EnvState) (cfg : Config)
    (n_actions : Z) (g : RNG) : result Agent :=
  let '(m, g1) := new_actor_critic g in
  let a :=
    mkAgent static cfg n_actions env m
      (RMSprop (lr cfg) (rms_alpha cfg) (rms_eps cfg)) gzero
      (new_rollouts (update_freq cfg) (num_envs cfg) (state_size m)
         (use_gae cfg) (gae_tau cfg))
      [] [] [] [] [] g1 in
  match training_priors a with
  | Ok (_, a') => Ok a'
  | Raise e => Raise e
  end.

Definition get_action (s : list Obs) (states : Hidden) (masks : list Q)
    (deterministic : bool)
    : SE Agent (list D * list Z * list D * Hidden) :=
  self <~ get ;;
  let '(logits, values, states) := ac_forward (model self) s states masks in
  actions <~ (if deterministic
              then lift (rmapM argmax_row (map softmax logits))
              else draw (categorical_sample logits)) ;;
  let log_probs := map log_softmax logits in
  action_log_probs <~ lift (gather log_probs actions) ;;
  ret (values, actions, action_log_probs, states).

Definition evaluate_actions (s : list Obs) (actions : list Z)
    (states : Hidden) (masks : list Q)
    : SE Agent (list D * list D * D * Hidden) :=
  self <~ get ;;
  let '(logits, values, states) := ac_forward (model self) s states masks in
  let log_probs := map log_softmax logits in
  action_log_probs <~ lift (gather log_probs actions) ;;
  let dist_entropy := Dmean (map entropy logits) in
  ret (values, action_log_probs, dist_entropy, states).

Definition get_values (s : list Obs) (states : Hidden) (masks : list Q)
    : SE Agent (list D) :=
  self <~ get ;;
  let '(_, values, _) := ac_forward (model self) s states masks in
  ret values.

(** [compute_loss(rollouts, next_value, tstep)]: the [rollouts] argument
    is always the agent's own storage object, which [compute_returns]
    updates in place. *)
Definition compute_loss (next_value : list D) (tstep : Z)
    : SE Agent (D * D * D * D * Q) :=
  self <~ get ;;
  let num_steps := length (ro_rewards (rollouts self)) in
  let num_processes := match ro_rewards (rollouts self) with
                       | r :: _ => length r
                       | [] => O
                       end in
  modify (fun a =>
    set_rollouts (ro_compute_returns (rollouts a) next_value
                    (gamma (config a))) a) ;;;
  self <~ get ;;
  let rollouts := rollouts self in
  states0 <~ lift (py_index (ro_states rollouts) 0) ;;
  r <~ evaluate_actions
         (concat (but_last (ro_observations rollouts)))
         (concat (ro_actions rollouts))
         states0
         (concat (but_last (ro_masks rollouts))) ;;
  let '(values, action_log_probs, dist_entropy, states) := r in
  values <~ lift (view num_steps num_processes values) ;;
  action_log_probs <~ lift (view num_steps num_processes action_log_probs) ;;
  advantages <~ lift (bcast2 Dsub (but_last (ro_returns rollouts)) values) ;;
  let value_loss :=
    Dmean (map (fun x => Dmulc (Dpow2 x) (1 # 2)) (concat advantages)) in
  prod <~ lift (bcast2 Dmul (map (map detach) advantages) action_log_probs) ;;
  let action_loss := Dneg (Dmean (concat prod)) in
  let loss :=
    Dadd action_loss (Dcmul (value_loss_weight (config self)) value_loss) in
  let loss :=
    Dsub loss (Dcmul (entropy_loss_weight (config self)) dist_entropy) in
  add_scalar "Loss/Total Loss" (val loss) tstep ;;;
  add_scalar "Loss/Policy Loss" (val action_loss) tstep ;;;
  add_scalar "Loss/Value Loss" (val value_loss) tstep ;;;
  add_scalar "Loss/Forward Dynamics Loss" 0%Q tstep ;;;
  add_scalar "Loss/Inverse Dynamics Loss" 0%Q tstep ;;;
  add_scalar "Policy/Entropy" (val dist_entropy) tstep ;;;
  add_scalar "Policy/Value Estimate"
    (Qmean (map val (map detach (concat values)))) tstep ;;;
  add_scalar "Learning/Learning Rate" (opt_lr (optimizer self)) tstep ;;;
  ret (loss, action_loss, value_loss, dist_entropy, 0%Q).

Definition update_ (next_value : list D) (tstep : Z)
    : SE Agent (Q * Q * Q * Q) :=
  r <~ compute_loss next_value tstep ;;
  let '(loss, action_loss, value_loss, dist_entropy, dynamics_loss) := r in
  modify (set_grad gzero) ;;;
  modify (fun self => set_grad (gadd (grad self) (tan loss)) self) ;;;
  modify (fun self =>
    set_grad (clip_grad_norm (grad self) (grad_norm_max (config self))) self) ;;;
  modify (fun self =>
    let '(p, o) := opt_step (optimizer self) (model self) (grad self) in
    set_model p (set_optimizer o self)) ;;;
  self <~ get ;;
  add_scalar "Learning/Grad Norm" (grad_norm (grad self)) tstep ;;;
  (if noisy_nets (config self)
   then add_scalar "Policy/Sigma Norm" (sigma_norm (model self)) tstep
   else ret tt) ;;;
  ret (val value_loss, val action_loss, val dist_entropy, dynamics_loss).

(** [obs *= masks.view(-1, 1, 1, 1)] *)
Definition mask_obs (obs : list Obs) (masks : list Q) : result (list Obs) :=
  if (length masks =? length obs)%nat
  then Ok (zip_with (fun o m => map (fun x => fmul x m) o) obs masks)
  else match masks with
       | [m] => Ok (map (map (fun x => fmul x m)) obs)
       | _ => Raise RuntimeError
       end.

(** The first statement of the body of the loop over [enumerate(info)]
    in [step]. *)
Definition record_episode (current_timestep : Z) (p : Z * Info)
    : SE Agent unit :=
  let '(idx, inf) := p in
  if dict_contains inf "episode" then
    ep <~ lift (dict_getitem inf "episode") ;;
    r <~ lift (dict_getitem ep "r") ;;
    modify (fun self =>
      set_last_100_rewards (deque_append 100 (last_100_rewards self) r) self) ;;;
    ep <~ lift (dict_getitem inf "episode") ;;
    r <~ lift (dict_getitem ep "r") ;;
    add_scalar "Performance/Environment Reward" r (current_timestep + idx) ;;;
    ep <~ lift (dict_getitem inf "episode") ;;
    l <~ lift (dict_getitem ep "l") ;;
    add_scalar "Performance/Episode Length" l (current_timestep + idx)
  else ret tt.

Definition step (current_timestep : Z) (step : Z) : SE Agent unit :=
  self <~ get ;;
  o <~ lift (py_index (ro_observations (rollouts self)) step) ;;
  h <~ lift (py_index (ro_states (rollouts self)) step) ;;
  m <~ lift (py_index (ro_masks (rollouts self)) step) ;;
  r <~ get_action o h m false ;;
  let '(values, actions, action_log_prob, states) := r in
  let values := no_grad values in
  let action_log_prob := no_grad action_log_prob in
  let cpu_actions := actions in
  self <~ get ;;
  let '(obs, reward, done, info, e) := env_step (envs self) cpu_actions in
  modify (set_envs e) ;;;
  let obs := normalise (config self) obs in
  (* agent rewards *)
  er <~ lift (np_inplace Qplus (episode_rewards self) reward) ;;
  modify (set_episode_rewards er) ;;;
  let masks := one_minus (astype_float done) in
  fr <~ lift (np_inplace Qmult (final_rewards self) masks) ;;
  x <~ lift (np_binop Qmult (one_minus masks) er) ;;
  fr <~ lift (np_inplace Qplus fr x) ;;
  modify (set_final_rewards fr) ;;;
  er <~ lift (np_inplace Qmult er masks) ;;
  modify (set_episode_rewards er) ;;;
  for_each (enumerate info) (fun '(idx, inf) =>
    record_episode current_timestep (idx, inf) ;;;
    d <~ lift (py_index done idx) ;;
    if d : bool then
      self <~ get ;;
      x <~ lift (py_index (final_rewards self) idx) ;;
      add_scalar "Performance/Agent Reward" x (current_timestep + idx)
    else ret tt) ;;;
  let rewards := reward in
  obs <~ lift (mask_obs obs masks) ;;
  modify (fun self =>
    set_rollouts (ro_insert (rollouts self) obs states actions
                    action_log_prob values rewards masks) self).

Definition update (current_tstep : Z) : SE Agent unit :=
  self <~ get ;;
  o <~ lift (py_index (ro_observations (rollouts self)) (-1)) ;;
  h <~ lift (py_index (ro_states (rollouts self)) (-1)) ;;
  m <~ lift (py_index (ro_masks (rollouts self)) (-1)) ;;
  next_value <~ get_values o h m ;;
  let next_value := no_grad next_value in
  (if learn_start (config self) <=? current_tstep
   then r <~ update_ next_value current_tstep ;; ret tt
   else ret tt) ;;;
  modify (fun self => set_rollouts (ro_after_update (rollouts self)) self).

End WithCollaborators.
End A2C.

(** ** Runs of the DQN agent *)

Section Runs.
Context {AG : Autograd} {T : Torch} {U : Utils} {E : VecEnv}.
Local Open Scope se_scope.

(** The two calls of the training loop. *)
Inductive call :=
| Step (tstep : Z)
| Update (tstep : Z).

Definition do_call (c : call) : SE DQN.Agent unit :=
  match c with
  | Step t => DQN.step t
  | Update t => DQN.update t
  end.

Fixpoint run_calls (cs : list call) : SE DQN.Agent unit :=
  match cs with
  | [] => ret tt
  | c :: cs' => do_call c ;;; run_calls cs'
  end.

(** The number of [update] calls that reach the learning part when the
    agent is not static: those with [tstep >= learn_start]. *)
Fixpoint learning_updates (learn_start : Z) (cs : list call) : Z :=
  match cs with
  | [] => 0
  | Step _ :: cs' => learning_updates learn_start cs'
  | Update t :: cs' =>
      (if t <? learn_start then 0 else 1) + learning_updates learn_start cs'
  end.

(** Action selection with one explore-or-exploit draw for each
    environment instance, as a reading of "with probability epsilon ...
    independently per parallel environment instance"; it is compared
    with [DQN.get_action]. *)
Fixpoint get_action_per_env (s : list Obs) (eps : Q) : SE DQN.Agent (list Z) :=
  match s with
  | [] => ret []
  | o :: s' =>
      u <~ DQN.draw np_random ;;
      self <~ get ;;
      act <~ (if Qgtb u eps || DQN.static_policy self
                 || noisy_nets (DQN.config self) then
                lift (rmapM argmax_row
                        (q_forward (DQN.model self)
                           (normalise (DQN.config self) [o])))
              else
                if DQN.num_actions self <=? 0 then raise ValueError
                else DQN.draw (np_randint 0 (DQN.num_actions self) 1)) ;;
      acts <~ get_action_per_env s' eps ;;
      ret (act ++ acts)
  end.

End Runs.

(** ** A concrete instance of the collaborators

    Small deterministic stand-ins on which the agents can be run: a
    one-weight network, an optimizer that moves the weight by one at
    every step, a generator that replays a given stream of draws, a
    replay memory and a rollout storage that follow the description of
    these structures in the specification. *)

Module Toy.

#[export] Instance autograd : Autograd :=
  {| Grad := Q; gzero := 0%Q; gadd := Qplus; gscale := Qmult |}.

(** The feature a network reads off an observation entry. *)
Definition feature (x : Float) : Q :=
  match x with
  | Fin q => q
  | _ => 0%Q
  end.

(** Q-values: the features of the observation shifted by the weight. *)
Definition toy_q (w : Z) (X : list Obs) : list (list D) :=
  map (map (fun x => mkD (feature x + inject_Z w) 1%Q)) X.

(** Logits: the features scaled by the weight; value: their sum. *)
Definition toy_ac (w : Z) (X : list Obs) (h : unit) (masks : list Q)
    : list (list D) * list D * unit :=
  (map (map (fun x => mkD (feature x * inject_Z w) (feature x))) X,
   map (fun o => mkD (Qsum (map feature o) + inject_Z w) 1%Q) X,
   tt).

(** Batches of observations of two features. *)
Definition toy_obs : list Obs := [[Fin 1; Fin 0]; [Fin 1; Fin 0]].
Definition toy_next_obs : list Obs := [[Fin 1; Fin 0]; [Fin 0; Fin 3]].
Definition toy_wide_obs : list Obs :=
  [[Fin 1; Fin 0]; [Fin 1; Fin 0]; [Fin 1; Fin 0]].

Definition toy_random (g : list Q) : Q * list Q :=
  match g with
  | [] => (0%Q, [])
  | u :: g' => (u, g')
  end.

#[export] Instance torch : Torch :=
  {| Params := Z;
     Hidden := unit;
     OptState := nat;
     RNG := list Q;
     new_dqn := fun g => (0, g);
     new_actor_critic := fun g => (1, g);
     state_size := fun _ => 1;
     q_forward := toy_q;
     ac_forward := toy_ac;
     log_softmax := fun row => row;
     softmax := fun row => row;
     entropy := fun row => Dmean row;
     categorical_sample := fun logits g => (map (fun _ => 0) logits, g);
     Adam := fun _ _ => O;
     RMSprop := fun _ _ _ => O;
     clip_grad_norm := fun g _ => g;
     opt_step := fun o p _ => (p + 1, S o);
     opt_lr := fun _ => 0%Q;
     weight_norm := fun p => inject_Z (Z.abs p);
     grad_norm := Qabs;
     sigma_norm := fun _ => 0%Q;
     np_random := toy_random;
     np_randint := fun low high n g => (repeat (high - 1) n, g) |}.

(** A ring of at most [capacity] transitions, oldest first. *)
Definition toy_push (m : Z * list Transition) (t : Transition)
    : Z * list Transition :=
  let items := snd m ++ [t] in
  (fst m, drop (length items - Z.to_nat (fst m))%nat items).

Definition toy_sample (m : Z * list Transition) (n : Z) (g : list Q)
    : result Sample * list Q :=
  if (Z.of_nat (length (snd m)) <? n) then (Raise ValueError, g)
  else
    let ts := take (Z.to_nat n) (snd m) in
    (Ok (mkSample (map tr_state ts) (map tr_action ts) (map tr_reward ts)
           (map tr_next_state ts) (map tr_terminal ts)
           (map Z.of_nat (seq 0 (Z.to_nat n))) (map (fun _ => 1%Q) ts)), g).

(** [return[t] = reward[t] + discount * return[t+1] * mask[t+1]],
    seeded with the bootstrap value. *)
Fixpoint toy_returns (rewards : list (list Q)) (masks : list (list Q))
    (next_value : list D) (discount : Q) : list (list D) :=
  match rewards, masks with
  | r :: rewards', m :: masks' =>
      let rest := toy_returns rewards' masks' next_value discount in
      let nxt := hd [] rest in
      let m1 := hd [] masks' in
      zip_with (fun x y => Dadd (const x) y) r
        (zip_with (fun y k => Dmulc (Dcmul discount y) k) nxt m1) :: rest
  | _, _ => [next_value]
  end.

Definition toy_insert (r : RolloutStorage) (obs : list Obs) (h : unit)
    (actions : list Z) (logp values : list D) (rewards masks : list Q)
    : RolloutStorage :=
  let i := ro_step r in
  mkRollouts (<[S i := obs]> (ro_observations r))
             (<[S i := h]> (ro_states r))
             (<[i := rewards]> (ro_rewards r))
             (<[i := values]> (ro_value_preds r))
             (ro_returns r)
             (<[i := logp]> (ro_action_log_probs r))
             (<[i := actions]> (ro_actions r))
             (<[S i := masks]> (ro_masks r))
             (S i mod length (ro_rewards r))%nat.

Definition toy_after_update (r : RolloutStorage) : RolloutStorage :=
  mkRollouts (<[O := default [] (last (ro_observations r))]> (ro_observations r))
             (<[O := default tt (last (ro_states r))]> (ro_states r))
             (ro_rewards r) (ro_value_preds r) (ro_returns r)
             (ro_action_log_probs r) (ro_actions r)
             (<[O := default [] (last (ro_masks r))]> (ro_masks r))
             (ro_step r).

Definition toy_new_rollouts (t n : nat) (sz : Z) (gae : bool) (tau : Q)
    : RolloutStorage :=
  mkRollouts (repeat (repeat [] n) (S t))
             (repeat tt (S t))
             (repeat (repeat 0%Q n) t)
             (repeat (repeat (const 0) n) t)
             (repeat (repeat (const 0) n) (S t))
             (repeat (repeat (const 0) n) t)
             (repeat (repeat 0 n) t)
             (repeat (repeat 1%Q n) (S t))
             O.

#[export] Instance utils : Utils :=
  {| Memory := (Z * list Transition)%type;
     new_memory := fun capacity => (capacity, []);
     mem_push := toy_push;
     mem_sample := toy_sample;
     schedule_value := fun sched t =>
       match sched with
       | ExponentialSchedule _ final _ _ => final
       | LinearSchedule _ final _ _ => final
       | PiecewiseSchedule start _ _ _ => start
       end;
     new_rollouts := toy_new_rollouts;
     ro_insert := toy_insert;
     ro_compute_returns := fun r next_value discount =>
       mkRollouts (ro_observations r) (ro_states r) (ro_rewards r)
         (ro_value_preds r)
         (toy_returns (ro_rewards r) (ro_masks r) next_value discount)
         (ro_action_log_probs r) (ro_actions r) (ro_masks r) (ro_step r);
     ro_after_update := toy_after_update |}.

(** Two environments that observe two features; the first one ends its
    episode at every step and reports it, the second one never does. *)
Definition toy_info (k : nat) : Info :=
  {[ "episode" := {[ "r" := inject_Z (Z.of_nat k); "l" := 1%Q ]} ]}.

#[export] Instance vecenv : VecEnv :=
  {| EnvState := nat;
     env_reset := fun k => (toy_obs, k);
     env_step := fun k acts =>
       (toy_obs, [1; 2]%Q, [true; false],
        [toy_info k; ∅], S k) |}.

Definition toy_config : Config :=
  {| lr := 1%Q; adam_eps := 0%Q; rms_alpha := 0%Q; rms_eps := 0%Q;
     noisy_nets := false; num_envs := 2; exp_replay_size := 8;
     epsilon_start := 1%Q; epsilon_final := [1 # 2]%Q;
     epsilon_decay := [3]%Q; max_tsteps := 100; batch_size := 2;
     s_norm := None; gamma := (9 # 10)%Q; learn_start := 0;
     grad_norm_max := 1%Q; target_net_update_freq := 5;
     update_freq := 2; use_gae := false; gae_tau := 0%Q;
     value_loss_weight := 1%Q; entropy_loss_weight := (1 # 100)%Q |}.

(** A DQN agent on these collaborators, as [__init__] builds it, and the
    states it reaches. *)
Definition toy_stream : list Q :=
  [9 # 10; 1 # 10; 9 # 10; 9 # 10; 9 # 10; 9 # 10; 9 # 10; 9 # 10;
   9 # 10; 9 # 10; 9 # 10; 9 # 10]%Q.

Definition toy_blank : DQN.Agent :=
  DQN.mkAgent false toy_config 2 O 0 0 O 0%Q (8, []) 0 [] [] None
    None None None None [] [] [] toy_stream.

Definition toy_dqn : DQN.Agent :=
  match DQN.init false O toy_config 2 toy_stream with
  | Ok a => a
  | Raise _ => toy_blank
  end.

(** The same agent in evaluation mode. *)
Definition toy_static : DQN.Agent :=
  DQN.mkAgent true toy_config 2 O 0 0 O 0%Q (8, []) 0 [] [] None
    None None None None [] toy_obs [] toy_stream.

Definition after (cs : list call) (a : DQN.Agent) : DQN.Agent :=
  match run_calls cs a with
  | Ok (_, a') => a'
  | Raise _ => a
  end.

(** Five rounds of the training loop, then two more. *)
Definition five_rounds : list call :=
  [Step 0; Update 0; Step 1; Update 1; Step 2; Update 2; Step 3; Update 3;
   Step 4; Update 4].

Definition two_rounds : list call := [Step 5; Update 5; Step 6; Update 6].

Definition toy_a1 : DQN.Agent := after five_rounds toy_dqn.
Definition toy_a2 : DQN.Agent := after two_rounds toy_a1.

(** A minibatch for the DQN agent. *)
Definition toy_batch : DQN.Batch :=
  DQN.mkBatch toy_obs [0; 1] [1; 2]%Q toy_next_obs
    [1; 0]%Q [0; 1] [1; 1]%Q.

(** An A2C agent on these collaborators, as [__init__] builds it, and
    the states it reaches in the two steps of its first window. *)
Definition toy_a2c_blank : A2C.Agent :=
  A2C.mkAgent false toy_config 2 O 1 O 0%Q
    (toy_new_rollouts 2 2 1 false 0) [] [] [] [] [] toy_stream.

Definition toy_a2c : A2C.Agent :=
  match A2C.init false O toy_config 2 toy_stream with
  | Ok a => a
  | Raise _ => toy_a2c_blank
  end.

Definition a2c_after (m : SE A2C.Agent unit) (a : A2C.Agent) : A2C.Agent :=
  match m a with
  | Ok (_, a') => a'
  | Raise _ => a
  end.

Definition toy_a2c1 : A2C.Agent := a2c_after (A2C.step 0 0) toy_a2c.
Definition toy_a2c2 : A2C.Agent := a2c_after (A2C.step 1 1) toy_a2c1.

(** Configurations at the edges: a sync frequency of zero, a constant
    epsilon without a decay, and no final epsilon at all. *)
Definition toy_config_no_sync : Config :=
  {| lr := 1%Q; adam_eps := 0%Q; rms_alpha := 0%Q; rms_eps := 0%Q;
     noisy_nets := false; num_envs := 2; exp_replay_size := 8;
     epsilon_start := 1%Q; epsilon_final := [1 # 2]%Q;
     epsilon_decay := [3]%Q; max_tsteps := 100; batch_size := 2;
     s_norm := None; gamma := (9 # 10)%Q; learn_start := 0;
     grad_norm_max := 1%Q; target_net_update_freq := 0;
     update_freq := 2; use_gae := false; gae_tau := 0%Q;
     value_loss_weight := 1%Q; entropy_loss_weight := (1 # 100)%Q |}.

Definition toy_config_no_decay : Config :=
  {| lr := 1%Q; adam_eps := 0%Q; rms_alpha := 0%Q; rms_eps := 0%Q;
     noisy_nets := false; num_envs := 2; exp_replay_size := 8;
     epsilon_start := 1%Q; epsilon_final := [1 # 2]%Q;
     epsilon_decay := []; max_tsteps := 100; batch_size := 2;
     s_norm := None; gamma := (9 # 10)%Q; learn_start := 0;
     grad_norm_max := 1%Q; target_net_update_freq := 5;
     update_freq := 2; use_gae := false; gae_tau := 0%Q;
     value_loss_weight := 1%Q; entropy_loss_weight := (1 # 100)%Q |}.

Definition toy_config_no_final : Config :=
  {| lr := 1%Q; adam_eps := 0%Q; rms_alpha := 0%Q; rms_eps := 0%Q;
     noisy_nets := false; num_envs := 2; exp_replay_size := 8;
     epsilon_start := 1%Q; epsilon_final := [];
     epsilon_decay := [3]%Q; max_tsteps := 100; batch_size := 2;
     s_norm := None; gamma := (9 # 10)%Q; learn_start := 0;
     grad_norm_max := 1%Q; target_net_update_freq := 5;
     update_freq := 2; use_gae := false; gae_tau := 0%Q;
     value_loss_weight := 1%Q; entropy_loss_weight := (1 # 100)%Q |}.

(** The DQN agent with a sync frequency of zero, and the one that has no
    action to choose from. *)
Definition toy_nosync : DQN.Agent :=
  match DQN.init false O toy_config_no_sync 2 toy_stream with
  | Ok a => a
  | Raise _ => toy_blank
  end.

Definition toy_noact : DQN.Agent :=
  match DQN.init false O toy_config 0 toy_stream with
  | Ok a => a
  | Raise _ => toy_blank
  end.

(** A minibatch whose second action names no column of the two-column
    output. *)
Definition toy_bad_batch : DQN.Batch :=
  DQN.mkBatch toy_obs [0; 5] [1; 2]%Q toy_next_obs
    [1; 0]%Q [0; 1] [1; 1]%Q.

(** An A2C agent whose storage holds three observations per slot for two
    environments. *)
Definition toy_a2c_wide : A2C.Agent :=
  A2C.set_rollouts
    (A2C.set_ro_observations
       (repeat toy_wide_obs 3) (A2C.rollouts toy_a2c2))
    toy_a2c2.

(** The DQN agent constructed in evaluation mode. *)
Definition toy_eval : DQN.Agent :=
  match DQN.init true O toy_config 2 toy_stream with
  | Ok a => a
  | Raise _ => toy_static
  end.

(** The same collaborators with an optimizer whose step leaves the
    parameters where they are (a learning rate of zero); the rollout
    storage, which the DQN agent does not use, is empty. *)
Definition idle_torch : Torch :=
  {| Params := Z;
     Hidden := unit;
     OptState := nat;
     RNG := list Q;
     new_dqn := fun g => (0, g);
     new_actor_critic := fun g => (1, g);
     state_size := fun _ => 1;
     q_forward := toy_q;
     ac_forward := toy_ac;
     log_softmax := fun row => row;
     softmax := fun row => row;
     entropy := fun row => Dmean row;
     categorical_sample := fun logits g => (map (fun _ => 0) logits, g);
     Adam := fun _ _ => O;
     RMSprop := fun _ _ _ => O;
     clip_grad_norm := fun g _ => g;
     opt_step := fun o p _ => (p, S o);
     opt_lr := fun _ => 0%Q;
     weight_norm := fun p => inject_Z (Z.abs p);
     grad_norm := Qabs;
     sigma_norm := fun _ => 0%Q;
     np_random := toy_random;
     np_randint := fun low high n g => (repeat (high - 1) n, g) |}.

Definition idle_utils : @Utils autograd idle_torch :=
  @Build_Utils autograd idle_torch
    (Z * list Transition)%type
    (fun capacity => (capacity, []))
    toy_push
    toy_sample
    (fun sched t =>
       match sched with
       | ExponentialSchedule _ final _ _ => final
       | LinearSchedule _ final _ _ => final
       | PiecewiseSchedule start _ _ _ => start
       end)
    (fun _ _ _ _ _ =>
       @mkRollouts autograd idle_torch [] [] [] [] [] [] [] [] O)
    (fun r _ _ _ _ _ _ _ => r)
    (fun r _ _ => r)
    (fun r => r).

Definition idle_blank : @DQN.Agent autograd idle_torch idle_utils vecenv :=
  @DQN.mkAgent autograd idle_torch idle_utils vecenv
    false toy_config 2 O 0 0 O 0%Q (8, []) 0 [] [] None
    None None None None [] [] [] toy_stream.

Definition idle_dqn : @DQN.Agent autograd idle_torch idle_utils vecenv :=
  match @DQN.init autograd idle_torch idle_utils vecenv
          false O toy_config 2 toy_stream with
  | Ok a => a
  | Raise _ => idle_blank
  end.

Definition idle_after (cs : list call)
    (a : @DQN.Agent autograd idle_torch idle_utils vecenv)
    : @DQN.Agent autograd idle_torch idle_utils vecenv :=
  match @run_calls autograd idle_torch idle_utils vecenv cs a with
  | Ok (_, a') => a'
  | Raise _ => a
  end.

Definition idle_a1 := idle_after five_rounds idle_dqn.
Definition idle_a2 := idle_after two_rounds idle_a1.






End Toy.

(** ** Notions used in the statements *)

(** Whether a call returned. *)
Definition is_ok {A} (r : result A) : bool :=
  match r with
  | Ok _ => true
  | Raise _ => false
  end.

(** What a method returned, if it returned. *)
Definition returned {S A} (r : result (A * S)) : option A :=
  match r with
  | Ok (x, _) => Some x
  | Raise _ => None
  end.

(** A method [m] keeps the relation [R] between the states before and
    after it, whenever it returns. *)
Definition keeps {S : Type} (R : S -> S -> Prop) {A} (m : SE S A) : Prop :=
  forall s x s', m s = Ok (x, s') -> R s s'.

(** The total reward that an [info] dictionary reports, when it carries
    the ["episode"] entry. *)
Definition episode_return (info : Info) : option Q :=
  info !! "episode"%string ≫= (fun ep => ep !! "r"%string).

Definition episode_returns (infs : list Info) : list Q :=
  omap episode_return infs.

(** The window of the last 100 episode returns after appending [rs]. *)
Definition extend_window (w rs : list Q) : list Q :=
  foldl (deque_append 100) w rs.

(** The Huber loss with threshold 1 on a difference [d]. *)
Definition huber (d : Q) : Q :=
  if Qltb (Qabs d) 1 then ((1 # 2) * d * d)%Q else (Qabs d - (1 # 2))%Q.

(** The transition of environment [i] in one [update_] call: its current
    observation, action, reward, next observation and terminal flag. *)
Definition transition_at (s : list Obs) (act : list Z) (r : list Q)
    (s_ : list Obs) (t : list Z) (i : nat) : option Transition :=
  x ← s !! i; y ← act !! i; z ← r !! i; u ← s_ !! i; v ← t !! i;
  Some {| tr_state := x; tr_action := y; tr_reward := z;
          tr_next_state := u; tr_terminal := v |}.



Section Notions.
Context {AG : Autograd} {T : Torch} {U : Utils} {E : VecEnv}.

(** [i] is the index of an entry of greatest value of [row]. *)
Definition is_argmax (row : list D) (i : Z) : Prop :=
  exists x, 0 <= i /\ row !! Z.to_nat i = Some x /\
            Forall (fun y => val y <= val x)%Q row.

(** [m] is the greatest value of [row]. *)
Definition is_max (row : list D) (m : Q) : Prop :=
  (exists x, x ∈ row /\ val x = m) /\ Forall (fun y => val y <= m)%Q row.

(** The Q-values of the online network on the observations. *)
Definition q_online (a : DQN.Agent) (s : list Obs) : list (list D) :=
  q_forward (DQN.model a) (normalise (DQN.config a) s).

(** The part of the agent that only learning may change. *)
Definition same_learner (a a' : DQN.Agent) : Prop :=
  DQN.static_policy a' = DQN.static_policy a /\
  DQN.config a' = DQN.config a /\
  DQN.num_actions a' = DQN.num_actions a /\
  DQN.model a' = DQN.model a /\
  DQN.target_model a' = DQN.target_model a /\
  DQN.optimizer a' = DQN.optimizer a /\
  DQN.grad a' = DQN.grad a /\
  DQN.memory a' = DQN.memory a /\
  DQN.update_count a' = DQN.update_count a.

(** The transitions that one [update_] call appends. *)
Definition appended (a : DQN.Agent) (s : list Obs) (act : list Z)
    (r : list Q) (s_ : list Obs) (t : list Z) : Memory :=
  fold_left DQN.push_row (zip5 s act r s_ t) (DQN.memory a).

(** The reporting state of the DQN agent. *)
Definition same_report (a a' : DQN.Agent) : Prop :=
  DQN.last_100_rewards a' = DQN.last_100_rewards a /\
  DQN.infos a' = DQN.infos a.

(** What [A2C.step] leaves alone until it inserts into the rollouts. *)
Definition same_store (a a' : A2C.Agent) : Prop :=
  A2C.rollouts a' = A2C.rollouts a /\
  A2C.envs a' = A2C.envs a /\
  A2C.config a' = A2C.config a /\
  A2C.model a' = A2C.model a.

(** The reporting window of the A2C agent. *)
Definition same_window (a a' : A2C.Agent) : Prop :=
  A2C.last_100_rewards a' = A2C.last_100_rewards a.

End Notions.

(** ** Further notions *)

(** The accumulators after the loop over [enumerate(self.dones)]: entry
    [k + i] is reset where [dns[i]] is set. *)
Fixpoint reset_done (er : list Q) (k : nat) (dns : list bool) : list Q :=
  match dns with
  | [] => er
  | d :: dns' => reset_done (if d then <[k := 0%Q]> er else er) (S k) dns'
  end.

(** [dones.astype(int)] *)
Definition astype_int (d : list bool) : list Z :=
  map (fun b : bool => if b then 1 else 0) d.

(** The value a call returned, or [d] where it raised; the state it
    left, or the state it found. *)
Definition value_or {A} (d : A) (r : result A) : A :=
  match r with
  | Ok x => x
  | Raise _ => d
  end.

Definition state_after {S} (m : SE S unit) (s : S) : S :=
  match m s with
  | Ok (_, s') => s'
  | Raise _ => s
  end.

Section More_notions.
Context {AG : Autograd} {T : Torch} {U : Utils} {E : VecEnv}.

(** What [DQN.step] records about the interaction, once it is set. *)
Definition same_interaction (a a' : DQN.Agent) : Prop :=
  DQN.prev_observations a' = DQN.prev_observations a /\
  DQN.actions a' = DQN.actions a /\
  DQN.rewards a' = DQN.rewards a /\
  DQN.dones a' = DQN.dones a /\
  DQN.observations a' = DQN.observations a /\
  DQN.envs a' = DQN.envs a.

(** The episode accumulators of the DQN agent. *)
Definition same_accumulators (a a' : DQN.Agent) : Prop :=
  DQN.episode_rewards a' = DQN.episode_rewards a.

(** The metrics sink only grows. *)
Definition dqn_log_grows (a a' : DQN.Agent) : Prop :=
  DQN.tb_writer a `prefix_of` DQN.tb_writer a'.

Definition a2c_log_grows (a a' : A2C.Agent) : Prop :=
  A2C.tb_writer a `prefix_of` A2C.tb_writer a'.

(** The part of the A2C agent that only learning may change. *)
Definition a2c_same_learner (a a' : A2C.Agent) : Prop :=
  A2C.static_policy a' = A2C.static_policy a /\
  A2C.config a' = A2C.config a /\
  A2C.model a' = A2C.model a /\
  A2C.optimizer a' = A2C.optimizer a /\
  A2C.grad a' = A2C.grad a.

(** What [A2C.update_] leaves alone after the returns are computed. *)
Definition a2c_same_rollouts (a a' : A2C.Agent) : Prop :=
  A2C.rollouts a' = A2C.rollouts a /\ A2C.config a' = A2C.config a.

(** The reward accumulators of the A2C agent. *)
Definition a2c_same_rewards (a a' : A2C.Agent) : Prop :=
  A2C.episode_rewards a' = A2C.episode_rewards a /\
  A2C.final_rewards a' = A2C.final_rewards a /\
  A2C.envs a' = A2C.envs a.

(** The source of randomness and the environments of the A2C agent. *)
Definition a2c_same_world (a a' : A2C.Agent) : Prop :=
  A2C.rng a' = A2C.rng a /\ A2C.envs a' = A2C.envs a.

End More_notions.

(** * Properties *)

(** ** Comparisons and sums of rationals *)

Lemma Qgtb_true (a b : Q) : Qgtb a b = true <-> (b < a)%Q.
Proof.
  unfold Qgtb. rewrite negb_true_iff, <- not_true_iff_false, Qle_bool_iff.
  split; [apply Qnot_le_lt | apply Qlt_not_le].
Qed.

Lemma Qgtb_false (a b : Q) : Qgtb a b = false <-> (a <= b)%Q.
Proof. unfold Qgtb. rewrite negb_false_iff. apply Qle_bool_iff. Qed.

Lemma Qltb_true (a b : Q) : Qltb a b = true <-> (a < b)%Q.
Proof. apply Qgtb_true. Qed.

Lemma Qltb_false (a b : Q) : Qltb a b = false <-> (b <= a)%Q.
Proof. apply Qgtb_false. Qed.

(** ** C10: the choice of exploration schedule *)

Section DQN_schedule.
Context {AG : Autograd} {T : Torch} {U : Utils} {E : VecEnv}.

Lemma make_schedule_one (cfg : Config) (f d : Q) (ds : list Q) :
  epsilon_final cfg = [f] -> epsilon_decay cfg = d :: ds ->
  DQN.make_schedule cfg =
  Ok (if Qlt_le_dec 1 d
      then ExponentialSchedule (epsilon_start cfg) f d (max_tsteps cfg)
      else LinearSchedule (epsilon_start cfg) f d (max_tsteps cfg)).
Proof.
  intros Hf Hd. unfold DQN.make_schedule. rewrite Hf, Hd. simpl.
  destruct (Qlt_le_dec 1 d) as [Hlt | Hle].
  - apply Qgtb_true in Hlt. now rewrite Hlt.
  - apply Qgtb_false in Hle. now rewrite Hle.
Qed.

Lemma make_schedule_many (cfg : Config) :
  (1 < length (epsilon_final cfg))%nat ->
  DQN.make_schedule cfg =
  Ok (PiecewiseSchedule (epsilon_start cfg) (epsilon_final cfg)
        (epsilon_decay cfg) (max_tsteps cfg)).
Proof.
  intros Hlen. unfold DQN.make_schedule.
  destruct (Nat.eqb_spec (length (epsilon_final cfg)) 1); [lia | reflexivity].
Qed.

Lemma training_priors_schedule (a : DQN.Agent) (sched : Schedule) :
  DQN.make_schedule (DQN.config a) = Ok sched ->
  exists a', DQN.training_priors a = Ok (tt, a') /\
             DQN.anneal_eps a' = Some sched.
Proof.
  intros Hs. unfold DQN.training_priors, bind, get, modify, lift. simpl.
  rewrite Hs. simpl. destruct (env_reset (DQN.envs a)) as [obs e].
  eexists. split; reflexivity.
Qed.

(** C10.  [training_priors] picks the schedule from the shape of the
    configuration: when [epsilon_final] has exactly one element it
    builds an [ExponentialSchedule] if [epsilon_decay[0] > 1.0] and a
    [LinearSchedule] otherwise; when [epsilon_final] has more than one
    element it builds a [PiecewiseSchedule]. *)
Theorem schedule_dispatch (a : DQN.Agent) :
  let cfg := DQN.config a in
  (forall f d ds,
      epsilon_final cfg = [f] -> epsilon_decay cfg = d :: ds ->
      exists a', DQN.training_priors a = Ok (tt, a') /\
        DQN.anneal_eps a' =
        Some (if Qlt_le_dec 1 d
              then ExponentialSchedule (epsilon_start cfg) f d (max_tsteps cfg)
              else LinearSchedule (epsilon_start cfg) f d (max_tsteps cfg)))
  /\ ((1 < length (epsilon_final cfg))%nat ->
      exists a', DQN.training_priors a = Ok (tt, a') /\
        DQN.anneal_eps a' =
        Some (PiecewiseSchedule (epsilon_start cfg) (epsilon_final cfg)
                (epsilon_decay cfg) (max_tsteps cfg))).
Proof.
  intros cfg. split.
  - intros f d ds Hf Hd. apply training_priors_schedule.
    now apply make_schedule_one with (ds := ds).
  - intros Hlen. apply training_priors_schedule.
    now apply make_schedule_many.
Qed.

End DQN_schedule.

(** ** Row maximum and arg-max *)

Section Rows.
Context {AG : Autograd}.

Lemma argmax_from_spec (row : list D) : forall (bi : nat) (b : Q) (i k : nat),
  argmax_from bi b i row = k ->
  (k = bi /\ Forall (fun y => val y <= b)%Q row) \/
  (exists x, (i <= k)%nat /\ row !! (k - i)%nat = Some x /\ (b < val x)%Q /\
             Forall (fun y => val y <= val x)%Q row).
Proof.
  induction row as [| x row IH]; intros bi b i k Hk; simpl in Hk.
  - left. split; [congruence | constructor].
  - destruct (Qltb b (val x)) eqn:Hb.
    + apply Qltb_true in Hb. right.
      destruct (IH _ _ _ _ Hk) as [[-> Hall] | (x' & Hik & Hx' & Hlt & Hall)].
      * exists x. rewrite Nat.sub_diag. repeat split; auto.
        constructor; [apply Qle_refl | exact Hall].
      * exists x'. replace (k - i)%nat with (S (k - S i)) by lia.
        repeat split; auto; [lia | eapply Qlt_trans; eauto |].
        constructor; [now apply Qlt_le_weak | exact Hall].
    + apply Qltb_false in Hb.
      destruct (IH _ _ _ _ Hk) as [[-> Hall] | (x' & Hik & Hx' & Hlt & Hall)].
      * left. split; [reflexivity | now constructor].
      * right. exists x'. replace (k - i)%nat with (S (k - S i)) by lia.
        repeat split; auto; [lia |].
        constructor; [| exact Hall].
        apply Qlt_le_weak. eapply Qle_lt_trans; eauto.
Qed.

Lemma argmax_row_spec (row : list D) (i : Z) :
  argmax_row row = Ok i -> is_argmax row i.
Proof.
  destruct row as [| x row]; simpl; [discriminate |].
  intros [= <-]. unfold is_argmax. rewrite Nat2Z.id.
  destruct (argmax_from_spec row 0 (val x) 1 _ eq_refl)
    as [[-> Hall] | (x' & Hik & Hx' & Hlt & Hall)].
  - exists x. split; [lia |]. split; [reflexivity |].
    constructor; [apply Qle_refl | exact Hall].
  - exists x'. split; [lia |]. split.
    + replace (argmax_from 0 (val x) 1 row)
        with (S (argmax_from 0 (val x) 1 row - 1)) by lia.
      exact Hx'.
    + constructor; [now apply Qlt_le_weak | exact Hall].
Qed.

Lemma argmax_row_total (row : list D) :
  row <> [] -> exists i, argmax_row row = Ok i.
Proof. destruct row; [congruence | simpl; eauto]. Qed.

Lemma argmax_rows (rows : list (list D)) :
  Forall (fun row => row <> []) rows ->
  exists acts, rmapM argmax_row rows = Ok acts /\ Forall2 is_argmax rows acts.
Proof.
  induction 1 as [| row rows Hrow _ (acts & Hacts & Hall)]; simpl.
  - exists []. split; [reflexivity | constructor].
  - destruct (argmax_row_total row Hrow) as [i Hi]. rewrite Hi, Hacts. simpl.
    exists (i :: acts). split; [reflexivity |].
    constructor; [now apply argmax_row_spec | exact Hall].
Qed.

Lemma max_from_spec (row : list D) : forall best : D,
  (max_from best row = best \/ max_from best row ∈ row) /\
  (val best <= val (max_from best row))%Q /\
  Forall (fun y => val y <= val (max_from best row))%Q row.
Proof.
  induction row as [| x row IH]; intros best; simpl.
  - repeat split; [now left | apply Qle_refl | constructor].
  - destruct (Qltb (val best) (val x)) eqn:Hb.
    + apply Qltb_true in Hb. destruct (IH x) as ([-> | Hin] & Hle & Hall).
      * repeat split; [right; left | now apply Qlt_le_weak |].
        constructor; [apply Qle_refl | exact Hall].
      * repeat split; [right; now right | |].
        -- apply Qlt_le_weak. eapply Qlt_le_trans; eauto.
        -- now constructor.
    + apply Qltb_false in Hb. destruct (IH best) as (Hor & Hle & Hall).
      repeat split; [| exact Hle |].
      * destruct Hor as [-> | Hin]; [now left | right; now right].
      * constructor; [eapply Qle_trans; eauto | exact Hall].
Qed.

Lemma row_max_spec (row : list D) (x : D) :
  row_max row = Ok x -> is_max row (val x).
Proof.
  destruct row as [| y row]; simpl; [discriminate |].
  intros [= <-]. destruct (max_from_spec row y) as (Hor & Hle & Hall).
  split.
  - exists (max_from y row). split; [| reflexivity].
    destruct Hor as [-> | Hin]; [left | now right].
  - now constructor.
Qed.

End Rows.

(** ** C5, C6: action selection of the DQN agent *)

Section DQN_get_action.
Context {AG : Autograd} {T : Torch} {U : Utils} {E : VecEnv}.

Lemma get_action_greedy (a : DQN.Agent) (s : list Obs) (eps : Q) :
  Qgtb (fst (np_random (DQN.rng a))) eps
    || DQN.static_policy a || noisy_nets (DQN.config a) = true ->
  DQN.get_action s eps a =
  lift (rmapM argmax_row (q_online a s))
       (DQN.set_rng (snd (np_random (DQN.rng a))) a).
Proof.
  intros Hb. unfold DQN.get_action, bind, DQN.draw, get.
  destruct (np_random (DQN.rng a)) as [u g]. simpl in *.
  now rewrite Hb.
Qed.

Lemma get_action_random (a : DQN.Agent) (s : list Obs) (eps : Q) :
  Qgtb (fst (np_random (DQN.rng a))) eps
    || DQN.static_policy a || noisy_nets (DQN.config a) = false ->
  0 < DQN.num_actions a ->
  DQN.get_action s eps a =
  DQN.draw (np_randint 0 (DQN.num_actions a) (length s))
           (DQN.set_rng (snd (np_random (DQN.rng a))) a).
Proof.
  intros Hb Hn. unfold DQN.get_action, bind, get.
  unfold DQN.draw at 1.
  destruct (np_random (DQN.rng a)) as [u g]. simpl in *.
  rewrite Hb. destruct (Z.leb_spec (DQN.num_actions a) 0); [lia | reflexivity].
Qed.

(** C6.  When noisy nets are enabled, or in evaluation mode
    ([static_policy]), [get_action] returns for every epsilon and every
    batch of observations the arg-max of the online Q-network's output for
    each environment; the random branch is never taken (the result does
    not depend on [np.random.randint]), and the only change of state is
    the one draw of [np.random.random()]. *)
Theorem greedy_when_noisy_or_static (a : DQN.Agent) (s : list Obs) (eps : Q) :
  noisy_nets (DQN.config a) = true \/ DQN.static_policy a = true ->
  Forall (fun row => row <> []) (q_online a s) ->
  exists acts,
    DQN.get_action s eps a =
      Ok (acts, DQN.set_rng (snd (np_random (DQN.rng a))) a) /\
    Forall2 is_argmax (q_online a s) acts.
Proof.
  intros Hmode Hrows. rewrite get_action_greedy.
  - destruct (argmax_rows _ Hrows) as (acts & Hacts & Hall).
    exists acts. unfold lift. rewrite Hacts. now split.
  - destruct Hmode as [-> | ->]; rewrite ?orb_true_r; reflexivity.
Qed.

(** C5 (as the code has it).  Outside evaluation mode and without noisy
    nets, one draw [u] of [np.random.random()] decides for the whole
    batch: if [u > eps] every environment receives the arg-max of the
    online Q-network's output for its observation, and otherwise every
    environment receives its entry of one
    [np.random.randint(0, num_actions, N)] array. *)
Theorem exploration_is_batch_wide (a : DQN.Agent) (s : list Obs) (eps : Q) :
  DQN.static_policy a = false -> noisy_nets (DQN.config a) = false ->
  let u := fst (np_random (DQN.rng a)) in
  let a1 := DQN.set_rng (snd (np_random (DQN.rng a))) a in
  ((eps < u)%Q ->
     Forall (fun row => row <> []) (q_online a s) ->
     exists acts, DQN.get_action s eps a = Ok (acts, a1) /\
                  Forall2 is_argmax (q_online a s) acts) /\
  ((u <= eps)%Q -> 0 < DQN.num_actions a ->
     DQN.get_action s eps a =
     Ok (fst (np_randint 0 (DQN.num_actions a) (length s) (DQN.rng a1)),
         DQN.set_rng
           (snd (np_randint 0 (DQN.num_actions a) (length s) (DQN.rng a1)))
           a1)).
Proof.
  intros Hst Hnoisy u a1. split.
  - intros Hu Hrows. rewrite get_action_greedy.
    + destruct (argmax_rows _ Hrows) as (acts & Hacts & Hall).
      exists acts. unfold lift. rewrite Hacts. now split.
    + apply Qgtb_true in Hu. fold u. now rewrite Hu.
  - intros Hu Hn. rewrite get_action_random; auto.
    + unfold DQN.draw. fold a1.
      now destruct (np_randint 0 (DQN.num_actions a) (length s) (DQN.rng a1)).
    + apply Qgtb_false in Hu. fold u. now rewrite Hu, Hst, Hnoisy.
Qed.

End DQN_get_action.

(** ** Reasoning about methods *)

Section Monad.
Context {S : Type}.

Lemma bind_ok {A B} (m : SE S A) (k : A -> SE S B) (s s' : S) (y : B) :
  bind m k s = Ok (y, s') ->
  exists x s1, m s = Ok (x, s1) /\ k x s1 = Ok (y, s').
Proof.
  unfold bind. destruct (m s) as [[x s1] | e]; [eauto | discriminate].
Qed.

Lemma lift_ok {A} (r : result A) (s s' : S) (x : A) :
  lift r s = Ok (x, s') -> r = Ok x /\ s' = s.
Proof. unfold lift. destruct r; [intros [= -> ->]; auto | discriminate]. Qed.

Variable R : S -> S -> Prop.
Hypothesis R_refl : forall s, R s s.
Hypothesis R_trans : forall s1 s2 s3, R s1 s2 -> R s2 s3 -> R s1 s3.

Lemma keeps_ret {A} (x : A) : keeps R (ret x).
Proof. intros s y s' [= _ <-]. apply R_refl. Qed.

Lemma keeps_get : keeps R get.
Proof. intros s y s' [= _ <-]. apply R_refl. Qed.

Lemma keeps_lift {A} (r : result A) : keeps R (lift r).
Proof. intros s y s' H. apply lift_ok in H as [_ ->]. apply R_refl. Qed.

Lemma keeps_raise {A} (e : exn) : keeps R (raise (A := A) e).
Proof. intros s y s' H. discriminate. Qed.

Lemma keeps_modify (f : S -> S) : (forall s, R s (f s)) -> keeps R (modify f).
Proof. intros Hf s y s' [= _ <-]. apply Hf. Qed.

Lemma keeps_bind {A B} (m : SE S A) (k : A -> SE S B) :
  keeps R m -> (forall x, keeps R (k x)) -> keeps R (bind m k).
Proof.
  intros Hm Hk s y s' H. apply bind_ok in H as (x & s1 & H1 & H2).
  eapply R_trans; [eapply Hm | eapply Hk]; eauto.
Qed.

Lemma keeps_for_each {A} (xs : list A) (body : A -> SE S unit) :
  (forall x, keeps R (body x)) -> keeps R (for_each xs body).
Proof.
  intros Hbody. induction xs as [| x xs IH]; simpl.
  - apply keeps_ret.
  - apply keeps_bind; auto.
Qed.

End Monad.

(** ** The DQN learner across the calls of the training loop *)

Section DQN_frames.
Context {AG : Autograd} {T : Torch} {U : Utils} {E : VecEnv}.

Lemma same_learner_refl (a : DQN.Agent) : same_learner a a.
Proof. unfold same_learner. tauto. Qed.

Lemma same_learner_trans (a1 a2 a3 : DQN.Agent) :
  same_learner a1 a2 -> same_learner a2 a3 -> same_learner a1 a3.
Proof. unfold same_learner. intuition congruence. Qed.

Ltac learner_base :=
  first
    [ apply keeps_ret; apply same_learner_refl
    | apply keeps_get; apply same_learner_refl
    | apply keeps_lift; apply same_learner_refl
    | apply keeps_raise
    | apply keeps_modify; intros ?; unfold same_learner; simpl; tauto
    | apply keeps_bind; [apply same_learner_trans | | intros ?]
    | apply keeps_for_each;
        [apply same_learner_refl | apply same_learner_trans | intros ?]
    | match goal with
      | |- keeps _ (match ?x with _ => _ end) => destruct x
      end ].

Lemma add_scalar_learner (tag : string) (v : Q) (t : Z) :
  keeps same_learner (DQN.add_scalar tag v t).
Proof. unfold DQN.add_scalar. repeat learner_base. Qed.

Lemma draw_learner {A} (f : RNG -> A * RNG) :
  keeps same_learner (DQN.draw f).
Proof.
  intros a x a'. unfold DQN.draw. destruct (f (DQN.rng a)) as [y g].
  intros [= _ <-]. unfold same_learner. simpl. tauto.
Qed.

Ltac learner_frame :=
  repeat first
    [ apply add_scalar_learner | apply draw_learner | learner_base ].

Lemma get_action_learner (s : list Obs) (eps : Q) :
  keeps same_learner (DQN.get_action s eps).
Proof. unfold DQN.get_action. learner_frame. Qed.

Lemma record_episode_learner (t : Z) (p : Z * Info) :
  keeps same_learner (DQN.record_episode t p).
Proof. unfold DQN.record_episode. destruct p. learner_frame. Qed.

Lemma step_learner (t : Z) : keeps same_learner (DQN.step t).
Proof.
  unfold DQN.step.
  learner_frame;
    first [apply get_action_learner | apply record_episode_learner].
Qed.


(** ** C3, C4: the learning step of the DQN agent *)

Lemma update_target_model_eq (a : DQN.Agent) :
  DQN.update_target_model a =
  let K := target_net_update_freq (DQN.config a) in
  let c := (DQN.update_count a + 1) mod K in
  if K =? 0 then Raise ZeroDivisionError
  else Ok (tt, if c =? 0
               then DQN.set_target_model (DQN.model a)
                      (DQN.set_update_count c a)
               else DQN.set_update_count c a).
Proof.
  unfold DQN.update_target_model, bind, modify, get, raise, ret. simpl.
  destruct (target_net_update_freq (DQN.config a) =? 0); [reflexivity |].
  simpl. now destruct (_ =? 0).
Qed.

Lemma prep_minibatch_learner : keeps same_learner DQN.prep_minibatch.
Proof.
  unfold DQN.prep_minibatch. learner_frame.
  intros b y b'. destruct (mem_sample _ _ _) as [[smp | e] g];
    [| discriminate].
  intros [= _ <-]. unfold same_learner. simpl. tauto.
Qed.

Lemma compute_loss_learner (bv : DQN.Batch) (t : Z) :
  keeps same_learner (DQN.compute_loss bv t).
Proof. unfold DQN.compute_loss. learner_frame. Qed.

Lemma update__static (a : DQN.Agent) s act r s_ t tstep :
  DQN.static_policy a = true ->
  DQN.update_ s act r s_ t tstep a = Ok (tt, a).
Proof.
  intros Hst. unfold DQN.update_, bind, get. simpl. now rewrite Hst.
Qed.

Lemma update__early (a : DQN.Agent) s act r s_ t tstep :
  DQN.static_policy a = false ->
  tstep < learn_start (DQN.config a) ->
  DQN.update_ (Some s) (Some act) (Some r) s_ t tstep a =
  Ok (tt, DQN.set_memory (appended a s act r s_ t) a).
Proof.
  intros Hst Hlt. unfold DQN.update_, bind, get. simpl. rewrite Hst.
  unfold DQN.append_to_replay, modify.
  destruct (Z.ltb_spec tstep (learn_start (DQN.config a))); [| lia].
  reflexivity.
Qed.

Lemma update__learning (a a' : DQN.Agent) s act r s_ t tstep :
  DQN.static_policy a = false ->
  learn_start (DQN.config a) <= tstep ->
  DQN.update_ s act r s_ t tstep a = Ok (tt, a') ->
  let K := target_net_update_freq (DQN.config a) in
  K <> 0 /\
  DQN.static_policy a' = false /\
  DQN.config a' = DQN.config a /\
  (exists s0 act0 r0,
      s = Some s0 /\ act = Some act0 /\ r = Some r0 /\
      DQN.memory a' = appended a s0 act0 r0 s_ t) /\
  DQN.update_count a' = (DQN.update_count a + 1) mod K /\
  DQN.target_model a' =
    (if DQN.update_count a' =? 0 then DQN.model a'
     else DQN.target_model a).
Proof.
  intros Hst Hle H K. unfold DQN.update_ in H.
  apply bind_ok in H as (self & a0 & [= <- <-] & H). rewrite Hst in H.
  apply bind_ok in H as ([] & a1 & Happ & H).
  destruct s as [s0 |]; [| discriminate].
  destruct act as [act0 |]; [| discriminate].
  destruct r as [r0 |]; [| discriminate].
  unfold DQN.append_to_replay, modify in Happ. injection Happ as <-.
  destruct (Z.ltb_spec tstep (learn_start (DQN.config a))); [lia |].
  apply bind_ok in H as (bv & a2 & Hprep & H).
  apply prep_minibatch_learner in Hprep.
  apply bind_ok in H as (loss & a3 & Hloss & H).
  apply compute_loss_learner in Hloss.
  apply bind_ok in H as ([] & a4 & [= <-] & H).
  apply bind_ok in H as ([] & a5 & [= <-] & H).
  apply bind_ok in H as ([] & a6 & [= <-] & H).
  apply bind_ok in H as ([] & a7 & [= <-] & H).
  apply bind_ok in H as ([] & a8 & Hsync & H).
  assert (Hlog : same_learner a8 a').
  { revert H. generalize a8 a'. intros b b' H.
    assert (Hk : keeps same_learner
      (bind (DQN.add_scalar "Loss/Total Loss" (val loss) tstep) (fun _ =>
       bind get (fun self0 =>
       bind (DQN.add_scalar "Learning/Learning Rate"
               (opt_lr (DQN.optimizer self0)) tstep) (fun _ =>
       bind (DQN.add_scalar "Learning/Weight Norm"
               (weight_norm (DQN.model self0)) tstep) (fun _ =>
       bind (DQN.add_scalar "Learning/Grad Norm"
               (grad_norm (DQN.grad self0)) tstep) (fun _ =>
       if noisy_nets (DQN.config self0)
       then DQN.add_scalar "Policy/Sigma Norm"
              (sigma_norm (DQN.model self0)) tstep
       else ret tt)))))))
      by learner_frame.
    destruct b' as []. eapply Hk. exact H. }
  rewrite update_target_model_eq in Hsync.
  destruct (opt_step _ _ _) as [p o] eqn:Hopt.
  unfold same_learner in *. simpl in *.
  destruct Hprep as (Hp1 & Hp2 & Hp3 & Hp4 & Hp5 & Hp6 & Hp7 & Hp8 & Hp9).
  destruct Hloss as (Hl1 & Hl2 & Hl3 & Hl4 & Hl5 & Hl6 & Hl7 & Hl8 & Hl9).
  rewrite Hl2, Hp2, Hl9, Hp9 in Hsync.
  fold K in Hsync.
  destruct (Z.eqb_spec K 0) as [| HK]; [discriminate |].
  injection Hsync as <-.
  destruct Hlog as (Hg1 & Hg2 & Hg3 & Hg4 & Hg5 & Hg6 & Hg7 & Hg8 & Hg9).
  split; [exact HK |].
  destruct (Z.eqb_spec ((DQN.update_count a + 1) mod K) 0) as [Hc | Hc];
    simpl in *.
  - rewrite Hg1, Hg2, Hg8, Hg9, Hg5, Hg4, Hl1, Hl2, Hl8, Hp1, Hp2, Hp8.
    repeat split; auto; [now exists s0, act0, r0 |].
    rewrite Hc. reflexivity.
  - rewrite Hg1, Hg2, Hg8, Hg9, Hg5, Hl1, Hl2, Hl8, Hl5, Hp1, Hp2, Hp8, Hp5.
    repeat split; auto; [now exists s0, act0, r0 |].
    destruct (Z.eqb_spec ((DQN.update_count a + 1) mod K) 0);
      [contradiction | reflexivity].
Qed.

End DQN_frames.

Section DQN_cadence.
Context {AG : Autograd} {T : Torch} {U : Utils} {E : VecEnv}.

Lemma zip5_length {A B C D' E'} (s : list A) (a : list B) (r : list C)
    (s_ : list D') (t : list E') :
  length a = length s -> length r = length s -> length s_ = length s ->
  length t = length s -> length (zip5 s a r s_ t) = length s.
Proof.
  revert a r s_ t. induction s as [| x s IH]; intros [| y a] [| z r]
    [| u s_] [| v t]; simpl; try discriminate; try reflexivity.
  intros [=] [=] [=] [=]. f_equal. now apply IH.
Qed.

Lemma zip5_lookup {A B C D' E'} (s : list A) (a : list B) (r : list C)
    (s_ : list D') (t : list E') (i : nat) x y z u v :
  s !! i = Some x -> a !! i = Some y -> r !! i = Some z ->
  s_ !! i = Some u -> t !! i = Some v ->
  zip5 s a r s_ t !! i = Some (x, y, z, u, v).
Proof.
  revert a r s_ t i. induction s as [| x0 s IH]; intros [| y0 a] [| z0 r]
    [| u0 s_] [| v0 t] [| i]; simpl; try discriminate.
  - now intros [= ->] [= ->] [= ->] [= ->] [= ->].
  - apply IH.
Qed.

Lemma push_rows_transitions (rows : list (Obs * Z * Q * Obs * Z))
    (m : Memory) :
  fold_left DQN.push_row rows m =
  fold_left mem_push
    (map (fun '(x, y, z, u, v) => mkTransition x y z u v) rows) m.
Proof.
  revert m. induction rows as [| [[[[x y] z] u] v] rows IH]; intros m; simpl;
    [reflexivity | apply IH].
Qed.

Lemma zip5_transition_at (s : list Obs) (act : list Z) (r : list Q)
    (s_ : list Obs) (t : list Z) (i : nat) :
  map (fun '(x, y, z, u, v) => mkTransition x y z u v) (zip5 s act r s_ t)
    !! i = transition_at s act r s_ t i.
Proof.
  unfold transition_at.
  revert act r s_ t i. induction s as [| x s IH]; intros act r s_ t i.
  - reflexivity.
  - destruct act as [| y act].
    { simpl. now destruct ((x :: s) !! i). }
    destruct r as [| z r].
    { simpl. destruct ((x :: s) !! i); simpl; [| reflexivity].
      now destruct ((y :: act) !! i). }
    destruct s_ as [| u s_].
    { simpl. destruct ((x :: s) !! i); simpl; [| reflexivity].
      destruct ((y :: act) !! i); simpl; [| reflexivity].
      now destruct ((z :: r) !! i). }
    destruct t as [| v t].
    { simpl. destruct ((x :: s) !! i); simpl; [| reflexivity].
      destruct ((y :: act) !! i); simpl; [| reflexivity].
      destruct ((z :: r) !! i); simpl; [| reflexivity].
      now destruct ((u :: s_) !! i). }
    destruct i as [| i]; [reflexivity |]. simpl. apply IH.
Qed.

(** C4.  An [update_] call of a non-static agent pushes, with
    [memory.push], one transition for each parallel environment, in
    order: the transition of environment [i] holds its current
    observation, action, reward, next observation and terminal flag.
    When [tstep < learn_start] the call then returns and nothing but the
    replay memory has changed: no minibatch is sampled (the generator is
    untouched), no loss is computed and nothing is logged, the optimizer,
    the gradients and the online network are as before, and so are the
    target network and the update counter.  From [learn_start] on, a call
    that returns has pushed the same transitions. *)
Theorem replay_append_and_learning_gate (a : DQN.Agent)
    (s : list Obs) (act : list Z) (r : list Q) (s_ : list Obs) (t : list Z)
    (tstep : Z) :
  DQN.static_policy a = false ->
  length act = length s -> length r = length s ->
  length s_ = length s -> length t = length s ->
  exists ts : list Transition,
    let a' := DQN.set_memory (fold_left mem_push ts (DQN.memory a)) a in
    (length ts = length s /\
     (forall i, ts !! i = transition_at s act r s_ t i) /\
     forall i x y z u v,
       s !! i = Some x -> act !! i = Some y -> r !! i = Some z ->
       s_ !! i = Some u -> t !! i = Some v ->
       ts !! i = Some {| tr_state := x; tr_action := y; tr_reward := z;
                         tr_next_state := u; tr_terminal := v |}) /\
    (tstep < learn_start (DQN.config a) ->
       DQN.update_ (Some s) (Some act) (Some r) s_ t tstep a = Ok (tt, a') /\
       DQN.rng a' = DQN.rng a /\
       DQN.tb_writer a' = DQN.tb_writer a /\
       DQN.model a' = DQN.model a /\
       DQN.optimizer a' = DQN.optimizer a /\
       DQN.grad a' = DQN.grad a /\
       DQN.target_model a' = DQN.target_model a /\
       DQN.update_count a' = DQN.update_count a) /\
    (learn_start (DQN.config a) <= tstep ->
       forall a'',
         DQN.update_ (Some s) (Some act) (Some r) s_ t tstep a
           = Ok (tt, a'') ->
         DQN.memory a'' = DQN.memory a').
Proof.
  intros Hst Ha Hr Hs Ht.
  exists (map (fun '(x, y, z, u, v) => mkTransition x y z u v)
            (zip5 s act r s_ t)).
  cbv zeta. rewrite <- push_rows_transitions. fold (appended a s act r s_ t).
  split; [split; [| split] |split].
  - rewrite length_map. now apply zip5_length.
  - apply zip5_transition_at.
  - intros i x y z u v Hx Hy Hz Hu Hv. rewrite zip5_transition_at.
    unfold transition_at. rewrite Hx, Hy, Hz, Hu, Hv. reflexivity.
  - intros Hlt. rewrite (update__early a s act r s_ t tstep Hst Hlt).
    repeat split.
  - intros Hle a'' H.
    destruct (update__learning _ _ _ _ _ _ _ _ Hst Hle H)
      as (_ & _ & _ & (s0 & act0 & r0 & [= <-] & [= <-] & [= <-] & Hm) & _).
    exact Hm.
Qed.

(** What one call of the training loop does to the networks and the
    update counter. *)
Lemma do_call_nets (c : call) (a a' : DQN.Agent) :
  DQN.static_policy a = false ->
  do_call c a = Ok (tt, a') ->
  let K := target_net_update_freq (DQN.config a) in
  DQN.static_policy a' = false /\ DQN.config a' = DQN.config a /\
  (learning_updates (learn_start (DQN.config a)) [c] = 0 ->
     DQN.model a' = DQN.model a /\
     DQN.target_model a' = DQN.target_model a /\
     DQN.update_count a' = DQN.update_count a) /\
  (learning_updates (learn_start (DQN.config a)) [c] = 1 ->
     K <> 0 /\
     DQN.update_count a' = (DQN.update_count a + 1) mod K /\
     DQN.target_model a' =
       (if DQN.update_count a' =? 0 then DQN.model a'
        else DQN.target_model a)).
Proof.
  intros Hst H K. destruct c as [t | t]; simpl in *.
  - apply step_learner in H. unfold same_learner in H.
    destruct H as (H1 & H2 & _ & H4 & H5 & _ & _ & _ & H9).
    repeat split; try congruence; intros; lia.
  - unfold DQN.update in H.
    apply bind_ok in H as (self & a0 & [= <- <-] & H).
    destruct (DQN.dones a) as [d |]; [| discriminate].
    destruct (Z.ltb_spec t (learn_start (DQN.config a))) as [Hlt | Hle].
    + destruct (DQN.prev_observations a) as [s |]; [| revert H; clear -Hst;
        unfold DQN.update_, bind, get; simpl; rewrite Hst; discriminate].
      destruct (DQN.actions a) as [act |]; [| revert H; clear -Hst;
        unfold DQN.update_, bind, get; simpl; rewrite Hst; discriminate].
      destruct (DQN.rewards a) as [r |]; [| revert H; clear -Hst;
        unfold DQN.update_, bind, get; simpl; rewrite Hst; discriminate].
      rewrite update__early in H by assumption. injection H as <-.
      simpl. repeat split; auto; intros; lia.
    + destruct (update__learning _ _ _ _ _ _ _ _ Hst Hle H)
        as (HK & Hst' & Hcfg & _ & Hc & Ht).
      repeat split; auto; intros; lia.
Qed.

Lemma learning_updates_cons (ls : Z) (c : call) (cs : list call) :
  learning_updates ls (c :: cs) =
  learning_updates ls [c] + learning_updates ls cs.
Proof. destruct c; simpl; lia. Qed.

Lemma learning_updates_one (ls : Z) (c : call) :
  learning_updates ls [c] = 0 \/ learning_updates ls [c] = 1.
Proof. destruct c as [t | t]; simpl; [| destruct (t <? ls)]; lia. Qed.

Lemma learning_updates_nonneg (ls : Z) (cs : list call) :
  0 <= learning_updates ls cs.
Proof.
  induction cs as [| c cs IH]; [simpl; lia |].
  rewrite learning_updates_cons.
  destruct (learning_updates_one ls c); lia.
Qed.

(** Between syncs: as long as the counter does not reach [K], the target
    network is not modified; without a learning update the online
    network is not modified either. *)
Lemma run_frozen (cs : list call) : forall a a' : DQN.Agent,
  DQN.static_policy a = false ->
  run_calls cs a = Ok (tt, a') ->
  let K := target_net_update_freq (DQN.config a) in
  let n := learning_updates (learn_start (DQN.config a)) cs in
  0 <= DQN.update_count a -> DQN.update_count a + n < K ->
  DQN.static_policy a' = false /\ DQN.config a' = DQN.config a /\
  DQN.target_model a' = DQN.target_model a /\
  DQN.update_count a' = DQN.update_count a + n /\
  (n = 0 -> DQN.model a' = DQN.model a).
Proof.
  induction cs as [| c cs IH]; intros a a' Hst H K n Hc Hn.
  - injection H as <-. subst n. simpl. repeat split; auto; lia.
  - simpl in H. apply bind_ok in H as ([] & a1 & H1 & H2).
    destruct (do_call_nets _ _ _ Hst H1) as (Hst1 & Hcfg1 & H0 & Hl).
    subst n. rewrite learning_updates_cons in Hn |- *.
    pose proof (learning_updates_nonneg (learn_start (DQN.config a)) cs).
    destruct (learning_updates_one (learn_start (DQN.config a)) c) as [Hz | Ho].
    + destruct (H0 Hz) as (Hm & Ht & Hu).
      pose proof (IH a1 a' Hst1 H2) as IH1. cbv zeta in IH1.
      rewrite Hcfg1, Hu in IH1. fold K in IH1.
      destruct IH1 as (I1 & I2 & I3 & I4 & I5); [lia | lia |].
      rewrite Hz.
      repeat split; [exact I1 | congruence | congruence | lia |].
      intros Hn0. rewrite I5 by lia. exact Hm.
    + destruct (Hl Ho) as (HK & Hu & Ht). fold K in Hu, Ht, HK.
      assert (Hu' : DQN.update_count a1 = DQN.update_count a + 1).
      { rewrite Hu. apply Z.mod_small. lia. }
      pose proof (IH a1 a' Hst1 H2) as IH1. cbv zeta in IH1.
      rewrite Hcfg1, Hu' in IH1. fold K in IH1.
      destruct IH1 as (I1 & I2 & I3 & I4 & I5); [lia | lia |].
      destruct (Z.eqb_spec (DQN.update_count a1) 0); [lia |].
      rewrite Ho.
      repeat split; [exact I1 | congruence | congruence | lia | lia].
Qed.

(** The counter counts the learning updates modulo [K], and every [K]-th
    learning update leaves the target network equal to the online one. *)
Lemma run_synced (cs : list call) : forall a a' : DQN.Agent,
  DQN.static_policy a = false ->
  run_calls cs a = Ok (tt, a') ->
  let K := target_net_update_freq (DQN.config a) in
  let n := learning_updates (learn_start (DQN.config a)) cs in
  0 < K -> 0 <= DQN.update_count a < K ->
  DQN.update_count a' = (DQN.update_count a + n) mod K /\
  (0 < n -> (DQN.update_count a + n) mod K = 0 ->
   DQN.target_model a' = DQN.model a').
Proof.
  induction cs as [| c cs IH]; intros a a' Hst H K n HK Hc.
  - injection H as <-. subst n. simpl. rewrite Z.add_0_r.
    split; [symmetry; now apply Z.mod_small | lia].
  - simpl in H. apply bind_ok in H as ([] & a1 & H1 & H2).
    destruct (do_call_nets _ _ _ Hst H1) as (Hst1 & Hcfg1 & H0 & Hl).
    subst n. rewrite learning_updates_cons.
    pose proof (learning_updates_nonneg (learn_start (DQN.config a)) cs) as Hnn.
    destruct (learning_updates_one (learn_start (DQN.config a)) c) as [Hz | Ho].
    + destruct (H0 Hz) as (Hm & Ht & Hu). rewrite Hz. simpl.
      pose proof (IH a1 a' Hst1 H2) as IH1. cbv zeta in IH1.
      rewrite Hcfg1, Hu in IH1. fold K in IH1.
      apply IH1; lia.
    + destruct (Hl Ho) as (_ & Hu & Ht). fold K in Hu, Ht. rewrite Ho.
      assert (Hr : 0 <= DQN.update_count a1 < K).
      { rewrite Hu. now apply Z.mod_pos_bound. }
      pose proof (IH a1 a' Hst1 H2) as IH1. cbv zeta in IH1.
      rewrite Hcfg1 in IH1. fold K in IH1.
      destruct IH1 as (Hcnt & Hsync); [lia | lia |].
      assert (Hmod : forall m, (DQN.update_count a1 + m) mod K =
                               (DQN.update_count a + (1 + m)) mod K).
      { intros m. rewrite Hu, Zplus_mod_idemp_l. f_equal. lia. }
      rewrite Hmod in Hcnt, Hsync. split; [exact Hcnt |].
      intros _ Hzero.
      destruct (Z.eq_dec (learning_updates (learn_start (DQN.config a)) cs) 0)
        as [Hn0 | Hn0].
      * rewrite Hn0, Z.add_0_r in Hzero.
        assert (Hu0 : DQN.update_count a1 = 0) by (rewrite Hu; exact Hzero).
        rewrite Hu0 in Ht. simpl in Ht.
        pose proof (run_frozen cs a1 a' Hst1 H2) as Hf. cbv zeta in Hf.
        rewrite Hcfg1, Hu0, Hn0 in Hf. fold K in Hf.
        destruct Hf as (_ & _ & Htf & _ & Hmf); [lia | lia |].
        rewrite Htf, Hmf by reflexivity. exact Ht.
      * apply Hsync; [lia | exact Hzero].
Qed.


(** C3 (as the code has it).  With target-sync frequency
    [K = target_net_update_freq], started from a zero update counter: the
    counter is the number of learning updates modulo [K]; after every
    [K]-th learning update the target network's parameters are exactly
    the online network's parameters; and as long as the counter does not
    wrap, the target network keeps the parameters it had.  With [K = 5]:
    after exactly 5 learning updates target equals online; during updates
    6 to 9 the target stays at the parameters of update 5, so it equals
    the online network exactly when the optimizer has left the online
    parameters where update 5 put them (nothing in the code makes the two
    differ); the 10th update makes them equal again. *)
Theorem target_sync_cadence (a0 a1 a2 : DQN.Agent) (cs1 cs2 : list call) :
  let K := target_net_update_freq (DQN.config a0) in
  let n1 := learning_updates (learn_start (DQN.config a0)) cs1 in
  let n2 := learning_updates (learn_start (DQN.config a0)) cs2 in
  DQN.static_policy a0 = false -> DQN.update_count a0 = 0 -> 0 < K ->
  run_calls cs1 a0 = Ok (tt, a1) -> run_calls cs2 a1 = Ok (tt, a2) ->
  DQN.update_count a1 = n1 mod K /\
  (0 < n1 -> n1 mod K = 0 -> DQN.target_model a1 = DQN.model a1) /\
  (n1 mod K + n2 < K -> DQN.target_model a2 = DQN.target_model a1) /\
  (K = 5 -> n1 = 5 ->
     DQN.target_model a1 = DQN.model a1 /\
     (1 <= n2 <= 4 ->
        DQN.target_model a2 = DQN.model a1 /\
        (DQN.target_model a2 = DQN.model a2 <->
         DQN.model a2 = DQN.model a1)) /\
     (n2 = 5 -> DQN.target_model a2 = DQN.model a2)).
Proof.
  intros K n1 n2 Hst Hc0 HK H1 H2.
  pose proof (run_synced cs1 a0 a1 Hst H1) as S1. cbv zeta in S1.
  rewrite Hc0 in S1. fold K n1 in S1. rewrite !Z.add_0_l in S1.
  destruct S1 as (Hcnt1 & Hsync1); [lia | lia |].
  pose proof (learning_updates_nonneg (learn_start (DQN.config a0)) cs1) as Hn1.
  pose proof (learning_updates_nonneg (learn_start (DQN.config a0)) cs2) as Hn2.
  fold n1 in Hn1. fold n2 in Hn2.
  assert (Hr1 : 0 <= DQN.update_count a1 < K).
  { rewrite Hcnt1. now apply Z.mod_pos_bound. }
  assert (Hst1 : DQN.static_policy a1 = false /\ DQN.config a1 = DQN.config a0).
  { clear - Hst H1. revert a0 a1 Hst H1.
    induction cs1 as [| c cs IH]; intros a0 a1 Hst H1.
    - now injection H1 as <-.
    - simpl in H1. apply bind_ok in H1 as ([] & b & Hb & H1).
      destruct (do_call_nets _ _ _ Hst Hb) as (Hstb & Hcfgb & _).
      destruct (IH _ _ Hstb H1) as (? & ?). split; congruence. }
  destruct Hst1 as (Hst1 & Hcfg1).
  pose proof (run_frozen cs2 a1 a2 Hst1 H2) as F2. cbv zeta in F2.
  rewrite Hcfg1, Hcnt1 in F2. fold K n2 in F2.
  pose proof (run_synced cs2 a1 a2 Hst1 H2) as S2. cbv zeta in S2.
  rewrite Hcfg1, Hcnt1 in S2. fold K n2 in S2.
  assert (Hmp : 0 <= n1 mod K < K) by now apply Z.mod_pos_bound.
  split; [exact Hcnt1 |].
  split; [exact Hsync1 |].
  split.
  { intros Hlt.
    destruct F2 as (_ & _ & Ht & _); [apply Hmp | exact Hlt | exact Ht]. }
  intros K5 N1.
  assert (Hm1 : n1 mod K = 0) by (rewrite K5, N1; reflexivity).
  assert (Hs1 : DQN.target_model a1 = DQN.model a1).
  { apply Hsync1; [lia | exact Hm1]. }
  rewrite Hm1 in F2, S2. simpl in F2, S2.
  split; [exact Hs1 |]. split.
  - intros Hn. destruct F2 as (_ & _ & Ht & _); [lia | lia |].
    rewrite Ht, Hs1. split; [reflexivity |].
    split; intros Heq; now symmetry.
  - intros N2. destruct S2 as (_ & Hsync2); [lia | lia |].
    apply Hsync2; [lia |]. rewrite N2, K5. reflexivity.
Qed.

End DQN_cadence.

(** ** The DQN properties on the concrete instance *)

Lemma state_after_ok {S} (m : SE S unit) (s : S) :
  is_ok (m s) = true -> m s = Ok (tt, state_after m s).
Proof.
  unfold state_after. destruct (m s) as [[[] s'] | e];
    [reflexivity | discriminate].
Qed.

Lemma value_or_ok {A} (d : A) (r : result A) :
  is_ok r = true -> r = Ok (value_or d r).
Proof. destruct r; [reflexivity | discriminate]. Qed.

Section DQN_examples.
Import Toy.

Lemma schedule_dispatch_witness :
  epsilon_final (DQN.config toy_blank) = [1 # 2]%Q /\
  epsilon_decay (DQN.config toy_blank) = [3]%Q /\
  exists a', DQN.training_priors toy_blank = Ok (tt, a') /\
             DQN.anneal_eps a' =
             Some (ExponentialSchedule 1 (1 # 2) 3 100).
Proof.
  split; [reflexivity |]. split; [reflexivity |].
  exact (proj1 (schedule_dispatch toy_blank) (1 # 2)%Q 3%Q []
           eq_refl eq_refl).
Defined.

Lemma greedy_when_noisy_or_static_witness :
  DQN.static_policy toy_static = true /\
  exists acts,
    DQN.get_action toy_obs 1%Q toy_static =
      Ok (acts, DQN.set_rng (snd (np_random (DQN.rng toy_static))) toy_static) /\
    Forall2 is_argmax (q_online toy_static toy_obs) acts.
Proof.
  split; [reflexivity |].
  apply (greedy_when_noisy_or_static toy_static toy_obs 1%Q).
  - right. reflexivity.
  - repeat constructor; discriminate.
Defined.

Lemma exploration_is_batch_wide_witness :
  DQN.static_policy toy_dqn = false /\
  noisy_nets (DQN.config toy_dqn) = false /\
  returned (DQN.get_action toy_obs 1%Q toy_dqn) = Some [1; 1].
Proof.
  split; [reflexivity |]. split; [reflexivity |].
  rewrite (proj2 (exploration_is_batch_wide toy_dqn toy_obs 1%Q
                    eq_refl eq_refl)).
  - reflexivity.
  - vm_compute. discriminate.
  - reflexivity.
Defined.

(** C5 (as stated) fails: action selection is not one explore-or-exploit
    draw per environment.  With two environments whose arg-max action is
    0, epsilon 1/2 and the draws 9/10, 1/10, [get_action] returns the
    greedy actions [0; 0] while the per-environment reading returns
    [0; 1]. *)
Lemma exploration_not_per_environment :
  ~ (forall (AG : Autograd) (T : Torch) (U : Utils) (E : VecEnv)
            (a : DQN.Agent) (s : list Obs) (eps : Q),
        DQN.static_policy a = false -> noisy_nets (DQN.config a) = false ->
        returned (DQN.get_action s eps a) =
        returned (get_action_per_env s eps a)).
Proof.
  intros H.
  specialize (H autograd torch utils vecenv toy_dqn
                toy_obs (1 # 2)%Q eq_refl eq_refl).
  vm_compute in H. discriminate.
Qed.

Lemma replay_append_and_learning_gate_witness :
  DQN.static_policy toy_dqn = false /\
  DQN.update_ (Some toy_obs) (Some [0; 1]) (Some [1; 2]%Q)
    toy_obs [1; 0] (-1) toy_dqn =
  Ok (tt, DQN.set_memory
            (mem_push
               (mem_push (DQN.memory toy_dqn)
                  {| tr_state := [Fin 1; Fin 0]; tr_action := 0;
                     tr_reward := 1; tr_next_state := [Fin 1; Fin 0];
                     tr_terminal := 1 |})
               {| tr_state := [Fin 1; Fin 0]; tr_action := 1;
                  tr_reward := 2; tr_next_state := [Fin 1; Fin 0];
                  tr_terminal := 0 |})
            toy_dqn).
Proof.
  split; [reflexivity |].
  destruct (replay_append_and_learning_gate toy_dqn toy_obs [0; 1]
              [1; 2]%Q toy_obs [1; 0] (-1)
              eq_refl eq_refl eq_refl eq_refl eq_refl)
    as (ts & (Hlen & Hts & _) & Hearly & _).
  destruct (Hearly eq_refl) as [Hrun _].
  destruct ts as [| t0 [| t1 [| t2 ts]]]; try discriminate Hlen.
  pose proof (Hts 0%nat) as H0. pose proof (Hts 1%nat) as H1.
  injection H0 as ->. injection H1 as ->. exact Hrun.
Defined.

Lemma after_ok (cs : list call) (a : DQN.Agent) :
  is_ok (run_calls cs a) = true -> run_calls cs a = Ok (tt, after cs a).
Proof.
  unfold after. destruct (run_calls cs a) as [[[] a'] | e];
    [reflexivity | discriminate].
Qed.

Lemma target_sync_cadence_witness :
  (DQN.static_policy toy_dqn = false /\ DQN.update_count toy_dqn = 0 /\
   run_calls five_rounds toy_dqn = Ok (tt, toy_a1) /\
   run_calls two_rounds toy_a1 = Ok (tt, toy_a2)) /\
  DQN.target_model toy_a1 = DQN.model toy_a1 /\
  DQN.target_model toy_a2 = DQN.model toy_a1 /\
  DQN.target_model toy_a2 <> DQN.model toy_a2.
Proof.
  assert (H1 : run_calls five_rounds toy_dqn = Ok (tt, toy_a1))
    by (apply after_ok; vm_compute; reflexivity).
  assert (H2 : run_calls two_rounds toy_a1 = Ok (tt, toy_a2))
    by (apply after_ok; vm_compute; reflexivity).
  split.
  { split; [reflexivity |]. split; [reflexivity |].
    split; [exact H1 | exact H2]. }
  destruct (target_sync_cadence toy_dqn toy_a1 toy_a2 five_rounds two_rounds
              eq_refl eq_refl eq_refl H1 H2) as (_ & _ & _ & H5).
  destruct (H5 eq_refl eq_refl) as (Hs & Hmid & _).
  split; [exact Hs |].
  destruct Hmid as (Hf & Hd); [vm_compute; split; discriminate |].
  split; [exact Hf |]. intros Heq. apply (proj1 Hd) in Heq.
  vm_compute in Heq. discriminate.
Defined.

Lemma idle_after_ok (cs : list call)
    (a : DQN.Agent (T := idle_torch) (U := idle_utils)) :
  is_ok (run_calls cs a) = true -> run_calls cs a = Ok (tt, idle_after cs a).
Proof.
  unfold idle_after. destruct (run_calls cs a) as [[[] a'] | e];
    [reflexivity | discriminate].
Qed.

(** C3 (as stated) fails: target and online need not diverge during
    updates 6 to 9.  With an optimizer whose step leaves the parameters
    where they are, sync frequency 5 and learning active from the first
    call, five rounds of [step] and [update] followed by two more leave
    the target network equal to the online network. *)
Lemma target_need_not_diverge :
  DQN.static_policy idle_dqn = false /\
  DQN.update_count idle_dqn = 0 /\
  target_net_update_freq (DQN.config idle_dqn) = 5 /\
  learning_updates (learn_start (DQN.config idle_dqn)) five_rounds = 5 /\
  learning_updates (learn_start (DQN.config idle_dqn)) two_rounds = 2 /\
  run_calls five_rounds idle_dqn = Ok (tt, idle_a1) /\
  run_calls two_rounds idle_a1 = Ok (tt, idle_a2) /\
  DQN.target_model idle_a2 = DQN.model idle_a2.
Proof.
  split; [reflexivity |]. split; [reflexivity |]. split; [reflexivity |].
  split; [reflexivity |]. split; [reflexivity |].
  split; [apply idle_after_ok; vm_compute; reflexivity |].
  split; [apply idle_after_ok; vm_compute; reflexivity |].
  vm_compute. reflexivity.
Qed.

End DQN_examples.

(** ** Lists of results *)

Section Lists.

Lemma rmapM_ok {A B} (f : A -> result B) (l : list A) :
  Forall (fun x => exists y, f x = Ok y) l ->
  exists ys, rmapM f l = Ok ys /\ Forall2 (fun x y => f x = Ok y) l ys.
Proof.
  induction 1 as [| x l [y Hy] _ (ys & Hys & Hall)]; simpl.
  - exists []. split; [reflexivity | constructor].
  - rewrite Hy, Hys. simpl. exists (y :: ys).
    split; [reflexivity | now constructor].
Qed.

Lemma rmapM_inv {A B} (f : A -> result B) (l : list A) (ys : list B) :
  rmapM f l = Ok ys -> Forall2 (fun x y => f x = Ok y) l ys.
Proof.
  revert ys. induction l as [| x l IH]; simpl; intros ys H.
  - injection H as <-. constructor.
  - destruct (f x) as [y | e] eqn:Hy; [| discriminate]. simpl in H.
    destruct (rmapM f l) as [ys' | e]; [| discriminate]. simpl in H.
    injection H as <-. constructor; auto.
Qed.

Lemma lookup_map {A B} (f : A -> B) (l : list A) (i : nat) :
  map f l !! i = f <$> (l !! i).
Proof. revert i. induction l as [| x l IH]; intros [| i]; simpl; auto. Qed.

End Lists.

(** ** C1: the regression target and the loss of the DQN agent *)

Section DQN_loss.
Context {AG : Autograd} {T : Torch} {U : Utils} {E : VecEnv}.

Lemma bcast_same (op : D -> D -> D) (xs ys : list D) :
  length xs = length ys -> bcast op xs ys = Ok (zip_with op xs ys).
Proof. intros H. unfold bcast. now rewrite H, Nat.eqb_refl. Qed.

Lemma val_smooth_l1 (x y : D) : val (smooth_l1 x y) = huber (val x - val y).
Proof. unfold smooth_l1, huber. now destruct (Qltb _ _). Qed.

Lemma map_val_smooth_l1 (xs ys : list D) :
  map val (zip_with smooth_l1 xs ys) =
  zip_with (fun x y => huber (val x - val y)) xs ys.
Proof.
  revert ys. induction xs as [| x xs IH]; intros [| y ys]; simpl; auto.
  now rewrite val_smooth_l1, IH.
Qed.

Lemma gather_ok (x : list (list D)) (index : list Z) :
  Forall2 (fun row j => 0 <= j < Z.of_nat (length row)) x index ->
  exists ys, gather x index = Ok ys /\
             Forall2 (fun p y => fst p !! Z.to_nat (snd p) = Some y)
                     (zip x index) ys.
Proof.
  intros H. unfold gather.
  rewrite (Forall2_length _ _ _ H), Nat.ltb_irrefl.
  assert (Hr : exists ys, rmapM (fun p => gather_row (fst p) (snd p))
                            (zip x index) = Ok ys /\
               Forall2 (fun p y => gather_row (fst p) (snd p) = Ok y)
                       (zip x index) ys).
  { apply rmapM_ok. induction H as [| row j x index Hj _ IH]; simpl;
      constructor; auto.
    simpl. unfold gather_row. destruct (Z.ltb_spec j 0); [lia |].
    destruct (row !! Z.to_nat j) as [y |] eqn:Hy; [eauto |].
    apply lookup_ge_None in Hy. lia. }
  destruct Hr as (ys & Hys & Hall). exists ys. split; [exact Hys |].
  eapply Forall2_impl; [exact Hall |]. intros [row j] y. simpl.
  unfold gather_row. destruct (j <? 0); [discriminate |].
  destruct (row !! Z.to_nat j); [congruence | discriminate].
Qed.

(** C1.  On a minibatch of well-shaped tensors [compute_loss] returns;
    its current estimate is the online network's Q-value gathered at the
    action taken; its regression target equals
    [batch_reward + gamma * (1 - batch_terminal) * max over actions of the
    target network's Q-values on batch_next_state], and carries no
    gradient (it is computed under [torch.no_grad()]); and the loss is the
    mean Huber (SmoothL1) loss between the current estimates and that
    target. *)
Theorem dqn_target_and_huber_loss (a : DQN.Agent) (bv : DQN.Batch) (tstep : Z) :
  let cur_q := q_forward (DQN.model a) (DQN.batch_state bv) in
  let next_q := q_forward (DQN.target_model a) (DQN.batch_next_state bv) in
  Forall2 (fun row j => 0 <= j < Z.of_nat (length row))
          cur_q (DQN.batch_action bv) ->
  Forall (fun row => row <> []) next_q ->
  length (DQN.batch_reward bv) = length next_q ->
  length (DQN.batch_terminal bv) = length next_q ->
  length next_q = length cur_q ->
  exists (current target : list D) (loss : D) (a' : DQN.Agent),
    DQN.compute_loss bv tstep a = Ok (loss, a') /\
    same_learner a a' /\
    Forall2 (fun p y => fst p !! Z.to_nat (snd p) = Some y)
            (zip cur_q (DQN.batch_action bv)) current /\
    length target = length next_q /\
    (forall i r t row,
        DQN.batch_reward bv !! i = Some r ->
        DQN.batch_terminal bv !! i = Some t ->
        next_q !! i = Some row ->
        exists y m,
          target !! i = Some y /\ is_max row m /\
          (val y == r + gamma (DQN.config a) * (1 - t) * m)%Q /\
          tan y = gzero) /\
    loss = Dmean (zip_with smooth_l1 current target) /\
    val loss =
      Qmean (zip_with (fun c y => huber (val c - val y)) current target).
Proof.
  intros cur_q next_q Hact Hrows Hrew Hterm Hlen.
  destruct (gather_ok _ _ Hact) as (current & Hcur & Hcur_spec).
  destruct (rmapM_ok row_max next_q) as (max_q & Hmax & Hmax_spec).
  { eapply Forall_impl; [exact Hrows |]. intros [| x row] Hne; [congruence |].
    simpl. eauto. }
  pose proof (Forall2_length _ _ _ Hmax_spec) as Hlmax.
  pose proof (Forall2_length _ _ _ Hcur_spec) as Hlcur.
  pose proof (Forall2_length _ _ _ Hact) as Hlact.
  set (next_q_values :=
         zip_with Dmul (map (Dcmul (gamma (DQN.config a))) max_q)
           (map (fun t => const (1 - t)) (DQN.batch_terminal bv))).
  set (target := no_grad (zip_with Dadd (map const (DQN.batch_reward bv))
                            next_q_values)).
  assert (Hln : length next_q_values = length next_q).
  { unfold next_q_values.
    rewrite length_zip_with, !length_map. lia. }
  assert (Hlt : length target = length next_q).
  { unfold target, no_grad.
    rewrite length_map, length_zip_with, length_map. lia. }
  assert (Hloss : SmoothL1Loss current target =
                  Ok (Dmean (zip_with smooth_l1 current target))).
  { unfold SmoothL1Loss. rewrite bcast_same; [reflexivity |].
    rewrite length_zip_with in Hlcur. lia. }
  exists current, target, (Dmean (zip_with smooth_l1 current target)).
  eexists. split.
  { unfold DQN.compute_loss, bind, get, lift. fold cur_q next_q.
    rewrite Hcur. rewrite Hmax. simpl.
    rewrite bcast_same by (rewrite !length_map; lia). simpl.
    rewrite bcast_same by (fold next_q_values; rewrite length_map; lia).
    simpl. fold next_q_values. fold target. rewrite Hloss. reflexivity. }
  split; [unfold same_learner; simpl; tauto |].
  split; [exact Hcur_spec |].
  split; [exact Hlt |].
  split; [| split; [reflexivity |]].
  - intros i r t row Hr Ht Hrow.
    destruct (Forall2_lookup_l _ _ _ _ _ Hmax_spec Hrow) as (m & Hm & Hrm).
    exists (detach (Dadd (const r)
                      (Dmul (Dcmul (gamma (DQN.config a)) m) (const (1 - t))))),
           (val m).
    split; [| split; [now apply row_max_spec | split; [| reflexivity]]].
    + unfold target, no_grad, next_q_values.
      rewrite lookup_map, lookup_zip_with, lookup_map, Hr. simpl.
      rewrite lookup_zip_with, !lookup_map, Hm, Ht. reflexivity.
    + simpl. ring.
  - simpl. now rewrite map_val_smooth_l1.
Qed.

End DQN_loss.

(** ** C8: the optional ["episode"] entry of the info dictionaries *)

Ltac keeps_with refl trans unf :=
  repeat first
    [ apply keeps_ret; apply refl
    | apply keeps_get; apply refl
    | apply keeps_lift; apply refl
    | apply keeps_raise
    | apply keeps_modify; intros ?; unf; simpl; tauto
    | apply keeps_bind; [apply trans | | intros ?]
    | apply keeps_for_each; [apply refl | apply trans | intros ?]
    | match goal with
      | |- keeps _ (match ?x with _ => _ end) => destruct x
      end ].

Section Windows.

Lemma dict_contains_true {V} (d : gmap string V) (k : string) :
  dict_contains d k = true -> exists v, d !! k = Some v.
Proof.
  unfold dict_contains. intros H. apply bool_decide_eq_true in H.
  apply elem_of_dom in H. destruct H as [v Hv]. eauto.
Qed.

Lemma dict_contains_false {V} (d : gmap string V) (k : string) :
  dict_contains d k = false -> d !! k = None.
Proof.
  unfold dict_contains. intros H. apply bool_decide_eq_false in H.
  now apply not_elem_of_dom in H.
Qed.

Lemma dict_getitem_ok {V} (d : gmap string V) (k : string) (v : V) :
  dict_getitem d k = Ok v <-> d !! k = Some v.
Proof.
  unfold dict_getitem. destruct (d !! k); split; congruence.
Qed.

Lemma extend_window_app (w rs1 rs2 : list Q) :
  extend_window w (rs1 ++ rs2) = extend_window (extend_window w rs1) rs2.
Proof. unfold extend_window. apply foldl_app. Qed.

Lemma episode_returns_cons (info : Info) (infs : list Info) :
  episode_returns (info :: infs) =
  episode_returns [info] ++ episode_returns infs.
Proof.
  unfold episode_returns. simpl. now destruct (episode_return info).
Qed.

Lemma deque_append_last {A} (n : nat) (d : list A) (x : A) :
  (0 < n)%nat -> last (deque_append (S (n - 1)) d x) = Some x.
Proof.
  intros Hn. unfold deque_append. rewrite length_app. simpl.
  replace (length d + 1 - S (n - 1))%nat with (length d - (n - 1))%nat by lia.
  rewrite drop_app_le by lia. now rewrite last_snoc.
Qed.

Lemma deque_append_room {A} (n : nat) (d : list A) (x : A) :
  (length d < n)%nat -> deque_append n d x = d ++ [x].
Proof.
  intros Hn. unfold deque_append. rewrite length_app. simpl.
  replace (length d + 1 - n)%nat with O by lia. reflexivity.
Qed.

Lemma deque_append_length {A} (n : nat) (d : list A) (x : A) :
  (0 < n)%nat -> (length d <= n)%nat ->
  (length (deque_append n d x) <= n)%nat.
Proof.
  intros Hn Hd. unfold deque_append. rewrite length_drop, length_app.
  simpl. lia.
Qed.

End Windows.

Section DQN_window.
Context {AG : Autograd} {T : Torch} {U : Utils} {E : VecEnv}.

Lemma same_report_refl (a : DQN.Agent) : same_report a a.
Proof. unfold same_report. tauto. Qed.

Lemma same_report_trans (a1 a2 a3 : DQN.Agent) :
  same_report a1 a2 -> same_report a2 a3 -> same_report a1 a3.
Proof. unfold same_report. intuition congruence. Qed.

Lemma draw_report {A} (f : RNG -> A * RNG) : keeps same_report (DQN.draw f).
Proof.
  intros a x a'. unfold DQN.draw. destruct (f (DQN.rng a)) as [y g].
  intros [= _ <-]. unfold same_report. simpl. tauto.
Qed.

Ltac report_frame :=
  unfold DQN.add_scalar;
  repeat first
    [ apply draw_report
    | progress keeps_with same_report_refl same_report_trans
        ltac:(unfold same_report) ].

Lemma get_action_report (s : list Obs) (eps : Q) :
  keeps same_report (DQN.get_action s eps).
Proof. unfold DQN.get_action. report_frame. Qed.

Lemma dqn_record_absent (t idx : Z) (info : Info) (a : DQN.Agent) :
  info !! "episode"%string = None ->
  DQN.record_episode t (idx, info) a = Ok (tt, a).
Proof.
  intros H. unfold DQN.record_episode, dict_contains.
  rewrite bool_decide_eq_false_2; [reflexivity |].
  now apply not_elem_of_dom.
Qed.

Lemma dqn_record_present (t idx : Z) (info : Info) (ep : gmap string Q)
    (r l : Q) (a : DQN.Agent) :
  info !! "episode"%string = Some ep ->
  ep !! "r"%string = Some r -> ep !! "l"%string = Some l ->
  exists a', DQN.record_episode t (idx, info) a = Ok (tt, a') /\
    DQN.last_100_rewards a' = deque_append 100 (DQN.last_100_rewards a) r.
Proof.
  intros Hep Hr Hl. unfold DQN.record_episode, dict_contains.
  rewrite bool_decide_eq_true_2 by (apply elem_of_dom; eauto).
  unfold bind, lift, dict_getitem. rewrite Hep, Hr, Hl. simpl.
  eexists. split; reflexivity.
Qed.

Lemma dqn_record_inv (t : Z) (p : Z * Info) (a a' : DQN.Agent) :
  DQN.record_episode t p a = Ok (tt, a') ->
  DQN.last_100_rewards a' =
    extend_window (DQN.last_100_rewards a) (episode_returns [snd p]) /\
  DQN.infos a' = DQN.infos a.
Proof.
  destruct p as [idx info]. unfold DQN.record_episode. simpl snd.
  unfold episode_returns, episode_return. simpl.
  destruct (dict_contains info "episode") eqn:Hc.
  - apply dict_contains_true in Hc as [ep Hep]. rewrite Hep. simpl.
    intros H.
    apply bind_ok in H as (ep1 & a1 & H1 & H). apply lift_ok in H1 as [H1 ->].
    apply dict_getitem_ok in H1. rewrite Hep in H1. injection H1 as <-.
    apply bind_ok in H as (r & a1 & H1 & H). apply lift_ok in H1 as [H1 ->].
    apply dict_getitem_ok in H1. rewrite H1. simpl.
    apply bind_ok in H as ([] & a1 & [= <-] & H).
    match type of H with
    | ?m _ = _ => assert (Hk : keeps same_report m) by report_frame
    end.
    apply Hk in H. unfold same_report in H. simpl in H. tauto.
  - apply dict_contains_false in Hc. rewrite Hc. simpl.
    intros [= <-]. auto.
Qed.

Lemma dqn_record_loop (t : Z) (infs : list Info) :
  forall (g : nat -> Info -> Z * Info) (a a' : DQN.Agent),
  (forall i x, snd (g i x) = x) ->
  for_each (imap g infs) (DQN.record_episode t) a = Ok (tt, a') ->
  DQN.last_100_rewards a' =
    extend_window (DQN.last_100_rewards a) (episode_returns infs) /\
  DQN.infos a' = DQN.infos a.
Proof.
  induction infs as [| info infs IH]; intros g a a' Hg H; simpl in H.
  - injection H as <-. split; reflexivity.
  - apply bind_ok in H as ([] & a1 & H1 & H).
    apply dqn_record_inv in H1 as (Hw1 & Hi1). rewrite Hg in Hw1.
    apply IH in H as (Hw & Hi); [| intros; apply Hg].
    rewrite episode_returns_cons, extend_window_app, <- Hw1.
    split; congruence.
Qed.

Lemma dqn_step_window (t : Z) (a a' : DQN.Agent) :
  DQN.step t a = Ok (tt, a') ->
  DQN.last_100_rewards a' =
    extend_window (DQN.last_100_rewards a) (episode_returns (DQN.infos a')).
Proof.
  intros H. unfold DQN.step in H.
  apply bind_ok in H as (self & a0 & [= <- <-] & H).
  apply bind_ok in H as (sched & a1 & H1 & H). apply lift_ok in H1 as [_ ->].
  apply bind_ok in H as ([] & a2 & H2 & H).
  apply bind_ok in H as (acts & a3 & H3 & H).
  apply bind_ok in H as (self3 & a4 & [= <- <-] & H).
  destruct (env_step (DQN.envs a3) acts) as [[[[obs rews] dns] infs] e].
  apply bind_ok in H as ([] & b1 & [= <-] & H).
  apply bind_ok in H as ([] & b2 & [= <-] & H).
  apply bind_ok in H as ([] & b3 & [= <-] & H).
  apply bind_ok in H as ([] & b4 & [= <-] & H).
  apply bind_ok in H as (er & b5 & H5 & H). apply lift_ok in H5 as [_ ->].
  apply bind_ok in H as ([] & b6 & [= <-] & H).
  apply bind_ok in H as ([] & b7 & H7 & H).
  assert (K2 : keeps same_report (DQN.add_scalar "Policy/Epsilon"
                 (schedule_value sched t) t)) by report_frame.
  apply K2 in H2. apply get_action_report in H3.
  match type of H7 with
  | ?m _ = _ => assert (K7 : keeps same_report m) by report_frame
  end.
  apply K7 in H7.
  apply dqn_record_loop in H as (Hw & Hi); [| reflexivity].
  unfold same_report in *. simpl in *.
  destruct H2 as (H2w & _), H3 as (H3w & _), H7 as (H7w & H7i).
  rewrite Hw, Hi, H7w, H7i, H3w, H2w. reflexivity.
Qed.

End DQN_window.

(** ** C7, C8: one step of the A2C agent *)

Section A2C_step.
Context {AG : Autograd} {T : Torch} {U : Utils} {E : VecEnv}.

Lemma same_store_refl (a : A2C.Agent) : same_store a a.
Proof. unfold same_store. tauto. Qed.

Lemma same_store_trans (a1 a2 a3 : A2C.Agent) :
  same_store a1 a2 -> same_store a2 a3 -> same_store a1 a3.
Proof. unfold same_store. intuition congruence. Qed.

Lemma same_window_refl (a : A2C.Agent) : same_window a a.
Proof. reflexivity. Qed.

Lemma same_window_trans (a1 a2 a3 : A2C.Agent) :
  same_window a1 a2 -> same_window a2 a3 -> same_window a1 a3.
Proof. unfold same_window. congruence. Qed.

Lemma a2c_draw_store {A} (f : RNG -> A * RNG) : keeps same_store (A2C.draw f).
Proof.
  intros a x a'. unfold A2C.draw. destruct (f (A2C.rng a)) as [y g].
  intros [= _ <-]. unfold same_store. simpl. tauto.
Qed.

Lemma a2c_draw_window {A} (f : RNG -> A * RNG) :
  keeps same_window (A2C.draw f).
Proof.
  intros a x a'. unfold A2C.draw. destruct (f (A2C.rng a)) as [y g].
  now intros [= _ <-].
Qed.

Ltac store_frame :=
  unfold A2C.add_scalar;
  repeat first
    [ apply a2c_draw_store
    | progress keeps_with same_store_refl same_store_trans
        ltac:(unfold same_store) ].

Ltac window_frame :=
  unfold A2C.add_scalar;
  repeat first
    [ apply a2c_draw_window
    | progress keeps_with same_window_refl same_window_trans
        ltac:(unfold same_window) ].

Lemma a2c_get_action_store s h m (det : bool) :
  keeps same_store (A2C.get_action s h m det).
Proof. unfold A2C.get_action. store_frame. Qed.

Lemma a2c_get_action_window s h m (det : bool) :
  keeps same_window (A2C.get_action s h m det).
Proof. unfold A2C.get_action. window_frame. Qed.

Lemma a2c_record_store (t : Z) (p : Z * Info) :
  keeps same_store (A2C.record_episode t p).
Proof. unfold A2C.record_episode. destruct p. store_frame. Qed.

Lemma a2c_record_absent (t idx : Z) (info : Info) (a : A2C.Agent) :
  info !! "episode"%string = None ->
  A2C.record_episode t (idx, info) a = Ok (tt, a).
Proof.
  intros H. unfold A2C.record_episode, dict_contains.
  rewrite bool_decide_eq_false_2; [reflexivity |].
  now apply not_elem_of_dom.
Qed.

Lemma a2c_record_present (t idx : Z) (info : Info) (ep : gmap string Q)
    (r l : Q) (a : A2C.Agent) :
  info !! "episode"%string = Some ep ->
  ep !! "r"%string = Some r -> ep !! "l"%string = Some l ->
  exists a', A2C.record_episode t (idx, info) a = Ok (tt, a') /\
    A2C.last_100_rewards a' = deque_append 100 (A2C.last_100_rewards a) r.
Proof.
  intros Hep Hr Hl. unfold A2C.record_episode, dict_contains.
  rewrite bool_decide_eq_true_2 by (apply elem_of_dom; eauto).
  unfold bind, lift, dict_getitem. rewrite Hep, Hr, Hl. simpl.
  eexists. split; reflexivity.
Qed.

Lemma a2c_record_inv (t : Z) (p : Z * Info) (a a' : A2C.Agent) :
  A2C.record_episode t p a = Ok (tt, a') ->
  A2C.last_100_rewards a' =
    extend_window (A2C.last_100_rewards a) (episode_returns [snd p]).
Proof.
  destruct p as [idx info]. unfold A2C.record_episode. simpl snd.
  unfold episode_returns, episode_return. simpl.
  destruct (dict_contains info "episode") eqn:Hc.
  - apply dict_contains_true in Hc as [ep Hep]. rewrite Hep. simpl.
    intros H.
    apply bind_ok in H as (ep1 & a1 & H1 & H). apply lift_ok in H1 as [H1 ->].
    apply dict_getitem_ok in H1. rewrite Hep in H1. injection H1 as <-.
    apply bind_ok in H as (r & a1 & H1 & H). apply lift_ok in H1 as [H1 ->].
    apply dict_getitem_ok in H1. rewrite H1. simpl.
    apply bind_ok in H as ([] & a1 & [= <-] & H).
    match type of H with
    | ?m _ = _ => assert (Hk : keeps same_window m) by window_frame
    end.
    apply Hk in H. exact H.
  - apply dict_contains_false in Hc. rewrite Hc. simpl.
    now intros [= <-].
Qed.

(** The loop over [enumerate(info)] in [step]. *)
Lemma a2c_info_loop (t : Z) (done : list bool) (infs : list Info) :
  forall (g : nat -> Info -> Z * Info) (a a' : A2C.Agent),
  (forall i x, snd (g i x) = x) ->
  for_each (imap g infs)
    (fun '(idx, inf) =>
       bind (A2C.record_episode t (idx, inf)) (fun _ =>
       bind (lift (py_index done idx)) (fun d : bool =>
       if d then
         bind get (fun self =>
         bind (lift (py_index (A2C.final_rewards self) idx)) (fun x =>
         A2C.add_scalar "Performance/Agent Reward" x (t + idx)))
       else ret tt))) a = Ok (tt, a') ->
  A2C.last_100_rewards a' =
    extend_window (A2C.last_100_rewards a) (episode_returns infs) /\
  same_store a a'.
Proof.
  induction infs as [| info infs IH]; intros g a a' Hg H;
    cbn [for_each imap] in H.
  - injection H as <-. split; [reflexivity | apply same_store_refl].
  - apply bind_ok in H as ([] & a1 & H1 & H).
    pose proof (Hg O info) as Hg0.
    destruct (g O info) as [idx inf]. simpl in Hg0. subst inf.
    apply bind_ok in H1 as ([] & a2 & H2 & H1).
    pose proof (a2c_record_store _ _ _ _ _ H2) as Hs2.
    apply a2c_record_inv in H2. simpl in H2.
    match type of H1 with
    | ?m _ = _ =>
        assert (Kw : keeps same_window m) by window_frame;
        assert (Ks : keeps same_store m) by store_frame
    end.
    pose proof (Ks _ _ _ H1) as Hs1. apply Kw in H1.
    apply IH in H as (Hw & Hs); [| intros; apply Hg].
    split.
    + rewrite episode_returns_cons, extend_window_app, Hw.
      unfold same_window in H1. now rewrite H1, H2.
    + eauto using same_store_trans.
Qed.



Lemma one_minus_done_lookup (done : list bool) (k : nat) (d : bool) :
  done !! k = Some d ->
  one_minus (astype_float done) !! k = Some (1 - (if d then 1 else 0))%Q.
Proof.
  intros H. unfold one_minus, astype_float.
  now rewrite !lookup_map, H.
Qed.

(** What one [step] leaves behind. *)
Lemma a2c_step_inv (t i : Z) (a a' : A2C.Agent) :
  A2C.step t i a = Ok (tt, a') ->
  exists acts states logp values obs reward done info e masked,
    env_step (A2C.envs a) acts = (obs, reward, done, info, e) /\
    A2C.mask_obs (normalise (A2C.config a) obs) (one_minus (astype_float done))
      = Ok masked /\
    A2C.rollouts a' =
      ro_insert (A2C.rollouts a) masked states acts (no_grad logp)
        (no_grad values) reward (one_minus (astype_float done)) /\
    A2C.last_100_rewards a' =
      extend_window (A2C.last_100_rewards a) (episode_returns info).
Proof.
  intros H. unfold A2C.step in H.
  apply bind_ok in H as (self & a0 & [= <- <-] & H).
  apply bind_ok in H as (o & a1 & H1 & H). apply lift_ok in H1 as [_ ->].
  apply bind_ok in H as (h & a1 & H1 & H). apply lift_ok in H1 as [_ ->].
  apply bind_ok in H as (m & a1 & H1 & H). apply lift_ok in H1 as [_ ->].
  apply bind_ok in H as ([[[values acts] logp] states] & a3 & H3 & H).
  pose proof (a2c_get_action_store _ _ _ _ _ _ _ H3) as Hs3.
  apply a2c_get_action_window in H3.
  apply bind_ok in H as (self3 & a4 & [= <- <-] & H).
  destruct (env_step (A2C.envs a3) acts)
    as [[[[obs reward] done] info] e] eqn:Henv.
  apply bind_ok in H as ([] & b1 & [= <-] & H).
  apply bind_ok in H as (er & b2 & H2 & H). apply lift_ok in H2 as [_ ->].
  apply bind_ok in H as ([] & b3 & [= <-] & H).
  apply bind_ok in H as (fr & b4 & H4 & H). apply lift_ok in H4 as [_ ->].
  apply bind_ok in H as (x & b5 & H5 & H). apply lift_ok in H5 as [_ ->].
  apply bind_ok in H as (fr' & b6 & H6 & H). apply lift_ok in H6 as [_ ->].
  apply bind_ok in H as ([] & b7 & [= <-] & H).
  apply bind_ok in H as (er' & b8 & H8 & H). apply lift_ok in H8 as [_ ->].
  apply bind_ok in H as ([] & b9 & [= <-] & H).
  apply bind_ok in H as ([] & b10 & Hloop & H).
  apply a2c_info_loop in Hloop as (Hw & Hs); [| reflexivity].
  apply bind_ok in H as (masked & b11 & Hm & H). apply lift_ok in Hm as [Hm ->].
  injection H as <-.
  unfold same_store, same_window in *. simpl in *.
  destruct Hs3 as (Hr3 & He3 & Hc3 & _). destruct Hs as (Hr & _ & _ & _).
  rewrite He3 in Henv. rewrite Hc3 in Hm.
  exists acts, states, logp, values, obs, reward, done, info, e, masked.
  repeat split; auto.
  - now rewrite Hr, Hr3.
  - now rewrite Hw, H3.
Qed.



(** C8.  In both agents the ["episode"] entry of an info dictionary is
    optional.  For an info without it the statement of [step] that
    records episodes returns without an error and without any change;
    for an info that carries it (with its [r] and [l] entries) exactly one
    entry, [info['episode']['r']], is appended to the window of the last
    100 episode returns.  Over a whole [step] the window is extended by
    the returns of exactly the infos that carry the entry, in order. *)
Theorem episode_key_is_optional :
  (forall t idx (info : Info) (a : DQN.Agent),
      info !! "episode"%string = None ->
      DQN.record_episode t (idx, info) a = Ok (tt, a)) /\
  (forall t idx (info : Info) ep r l (a : DQN.Agent),
      info !! "episode"%string = Some ep ->
      ep !! "r"%string = Some r -> ep !! "l"%string = Some l ->
      exists a', DQN.record_episode t (idx, info) a = Ok (tt, a') /\
        DQN.last_100_rewards a' =
          deque_append 100 (DQN.last_100_rewards a) r) /\
  (forall t (a a' : DQN.Agent),
      DQN.step t a = Ok (tt, a') ->
      DQN.last_100_rewards a' =
        extend_window (DQN.last_100_rewards a)
          (episode_returns (DQN.infos a'))) /\
  (forall t idx (info : Info) (a : A2C.Agent),
      info !! "episode"%string = None ->
      A2C.record_episode t (idx, info) a = Ok (tt, a)) /\
  (forall t idx (info : Info) ep r l (a : A2C.Agent),
      info !! "episode"%string = Some ep ->
      ep !! "r"%string = Some r -> ep !! "l"%string = Some l ->
      exists a', A2C.record_episode t (idx, info) a = Ok (tt, a') /\
        A2C.last_100_rewards a' =
          deque_append 100 (A2C.last_100_rewards a) r) /\
  (forall t i (a a' : A2C.Agent),
      A2C.step t i a = Ok (tt, a') ->
      exists acts,
        A2C.last_100_rewards a' =
          extend_window (A2C.last_100_rewards a)
            (episode_returns (snd (fst (env_step (A2C.envs a) acts))))) /\
  (forall (w : list Q) (r : Q),
      last (deque_append 100 w r) = Some r /\
      ((length w < 100)%nat -> deque_append 100 w r = w ++ [r]) /\
      episode_returns [] = [] /\ extend_window w [] = w /\
      extend_window w [r] = deque_append 100 w r).
Proof.
  split; [apply dqn_record_absent |].
  split; [apply dqn_record_present |].
  split; [apply dqn_step_window |].
  split; [apply a2c_record_absent |].
  split; [apply a2c_record_present |].
  split.
  - intros t i a a' H.
    destruct (a2c_step_inv _ _ _ _ H)
      as (acts & states & logp & values & obs & reward & done & info & e
          & masked & Henv & _ & _ & Hw).
    exists acts. now rewrite Henv.
  - intros w r. split; [apply (deque_append_last 100); lia |].
    split; [apply deque_append_room |]. repeat split.
Qed.

End A2C_step.

(** ** C9: the learning call of the A2C agent *)

Section A2C_update.
Context {AG : Autograd} {T : Torch} {U : Utils} {E : VecEnv}.

Lemma py_index_last {A} (xs : list A) (x : A) :
  last xs = Some x -> py_index xs (-1) = Ok x.
Proof.
  intros H. unfold py_index.
  assert (Hn : (0 < length xs)%nat).
  { destruct xs; [discriminate | simpl; lia]. }
  change (-1 <? 0) with true. cbv iota.
  destruct (Z.ltb_spec (Z.of_nat (length xs) + -1) 0); [lia |].
  destruct (Z.leb_spec (Z.of_nat (length xs)) (Z.of_nat (length xs) + -1));
    [lia |].
  simpl. replace (Z.to_nat (Z.of_nat (length xs) + -1))
    with (pred (length xs)) by lia.
  rewrite last_lookup in H. now rewrite H.
Qed.

Lemma no_grad_tan (xs : list D) : Forall (fun v => tan v = gzero) (no_grad xs).
Proof.
  unfold no_grad. apply Forall_forall. intros v Hv.
  apply list_elem_of_In, in_map_iff in Hv as (x & <- & _). reflexivity.
Qed.

(** C9.  Every [update] call that returns has computed the bootstrap
    value from the last slot of the window with gradients disabled, and
    has called [after_update] on the rollout storage exactly once, as its
    last action: when [current_tstep < learn_start] nothing else happens
    (no loss, no optimizer step), and otherwise the rotation follows the
    learning step [update_]. *)
Theorem rollout_rotation_is_unconditional (t : Z) (a : A2C.Agent)
    (o : list Obs) (h : Hidden) (m : list Q) :
  last (ro_observations (A2C.rollouts a)) = Some o ->
  last (ro_states (A2C.rollouts a)) = Some h ->
  last (ro_masks (A2C.rollouts a)) = Some m ->
  let next_value := no_grad (snd (fst (ac_forward (A2C.model a) o h m))) in
  Forall (fun v => tan v = gzero) next_value /\
  (t < learn_start (A2C.config a) ->
     A2C.update t a =
     Ok (tt, A2C.set_rollouts (ro_after_update (A2C.rollouts a)) a)) /\
  (learn_start (A2C.config a) <= t ->
     forall r a1,
       A2C.update_ next_value t a = Ok (r, a1) ->
       A2C.update t a =
       Ok (tt, A2C.set_rollouts (ro_after_update (A2C.rollouts a1)) a1)).
Proof.
  intros Ho Hh Hm next_value. split; [apply no_grad_tan |].
  assert (Hupd : A2C.update t a =
    bind (if learn_start (A2C.config a) <=? t
          then bind (A2C.update_ next_value t) (fun _ => ret tt)
          else ret tt)
      (fun _ => modify (fun self =>
         A2C.set_rollouts (ro_after_update (A2C.rollouts self)) self)) a).
  { unfold A2C.update. unfold bind at 1, get.
    unfold bind at 1, lift. rewrite (py_index_last _ _ Ho).
    unfold bind at 1. rewrite (py_index_last _ _ Hh).
    unfold bind at 1. rewrite (py_index_last _ _ Hm).
    unfold bind at 1, A2C.get_values. unfold bind at 1, get.
    subst next_value.
    destruct (ac_forward (A2C.model a) o h m) as [[logits values] st].
    reflexivity. }
  rewrite Hupd. split.
  - intros Hlt. destruct (Z.leb_spec (learn_start (A2C.config a)) t); [lia |].
    reflexivity.
  - intros Hle r a1 Hu.
    destruct (Z.leb_spec (learn_start (A2C.config a)) t); [| lia].
    unfold bind, ret, modify. now rewrite Hu.
Qed.

End A2C_update.

(** ** C2: the loss of the A2C agent *)

Section Grids.
Context {AG : Autograd}.

Lemma chunks_shape {A} (t n : nat) : forall xs : list A,
  length xs = (t * n)%nat ->
  length (chunks t n xs) = t /\
  Forall (fun row => length row = n) (chunks t n xs) /\
  concat (chunks t n xs) = xs.
Proof.
  induction t as [| t IH]; intros xs Hlen; simpl in *.
  - destruct xs; [| discriminate]. repeat split. constructor.
  - destruct (IH (drop n xs)) as (Hl & Hall & Hcat).
    { rewrite length_drop. lia. }
    rewrite Hl, Hcat, take_drop. repeat split.
    constructor; [| exact Hall]. rewrite length_take. lia.
Qed.

Lemma bcast_rows_same {A B C} (op : A -> B -> result C)
    (xs : list A) (ys : list B) :
  length xs = length ys ->
  bcast_rows op xs ys = rmapM (fun p => op (fst p) (snd p)) (zip xs ys).
Proof. intros H. unfold bcast_rows. now rewrite H, Nat.eqb_refl. Qed.

Lemma bcast2_same (op : D -> D -> D) (X Y : list (list D)) :
  Forall2 (fun x y => length x = length y) X Y ->
  bcast2 op X Y = Ok (zip_with (zip_with op) X Y).
Proof.
  intros H. unfold bcast2.
  rewrite bcast_rows_same by (eapply Forall2_length; eauto).
  induction H as [| x y X Y Hxy _ IH]; simpl; [reflexivity |].
  unfold bcast at 1. rewrite Hxy, Nat.eqb_refl. simpl.
  now rewrite IH.
Qed.

Lemma concat_zip_with {A B C} (op : A -> B -> C)
    (X : list (list A)) (Y : list (list B)) :
  Forall2 (fun x y => length x = length y) X Y ->
  concat (zip_with (zip_with op) X Y) = zip_with op (concat X) (concat Y).
Proof.
  induction 1 as [| x y X Y Hxy _ IH]; simpl; [reflexivity |].
  now rewrite IH, zip_with_app.
Qed.

Lemma same_shape {A B} (n : nat) (X : list (list A)) (Y : list (list B)) :
  length X = length Y ->
  Forall (fun row => length row = n) X ->
  Forall (fun row => length row = n) Y ->
  Forall2 (fun x y => length x = length y) X Y.
Proof.
  revert Y. induction X as [| x X IH]; intros [| y Y]; simpl;
    try discriminate; [constructor |].
  intros [= Hl] HX HY. inversion HX; inversion HY; subst.
  constructor; [congruence | auto].
Qed.

Lemma map_val_detach_mul (xs ys : list D) :
  map val (zip_with Dmul (map detach xs) ys) =
  zip_with (fun x y => val x * val y)%Q xs ys.
Proof.
  revert ys. induction xs as [| x xs IH]; intros [| y ys]; simpl; auto.
  now rewrite IH.
Qed.

Lemma detach_mul_const (xs ys : list D) :
  zip_with Dmul (map detach xs) ys =
  zip_with (fun x y => Dmul (const (val x)) y) xs ys.
Proof.
  revert ys. induction xs as [| x xs IH]; intros [| y ys]; simpl; auto.
  now rewrite IH.
Qed.

Lemma concat_map_map {A B} (f : A -> B) (X : list (list A)) :
  concat (map (map f) X) = map f (concat X).
Proof.
  induction X as [| x X IH]; simpl; [reflexivity |].
  now rewrite IH, map_app.
Qed.

End Grids.

Section A2C_loss.
Context {AG : Autograd} {T : Torch} {U : Utils} {E : VecEnv}.

Lemma view_ok {A} (t n : nat) (xs : list A) :
  length xs = (t * n)%nat -> view t n xs = Ok (chunks t n xs).
Proof. intros H. unfold view. now rewrite H, Nat.eqb_refl. Qed.

Lemma zip_with_shape {A B C} (op : A -> B -> C) (n : nat)
    (X : list (list A)) (Y : list (list B)) :
  length X = length Y ->
  Forall (fun row => length row = n) X ->
  Forall (fun row => length row = n) Y ->
  length (zip_with (zip_with op) X Y) = length X /\
  Forall (fun row => length row = n) (zip_with (zip_with op) X Y).
Proof.
  revert Y. induction X as [| x X IH]; intros [| y Y]; simpl;
    try discriminate; [split; [reflexivity | constructor] |].
  intros [= Hl] HX HY. inversion HX; inversion HY; subst.
  destruct (IH Y Hl) as (IH1 & IH2); auto.
  split; [now rewrite IH1 |].
  constructor; [| exact IH2]. rewrite length_zip_with. lia.
Qed.

Lemma map_map_shape {A B} (f : A -> B) (n : nat) (X : list (list A)) :
  Forall (fun row => length row = n) X ->
  Forall (fun row => length row = n) (map (map f) X).
Proof.
  induction 1; simpl; constructor; auto. now rewrite length_map.
Qed.

(** C2.  On a well-shaped window [compute_loss] returns, with:
    advantages = returns - value estimates; value loss = mean of the
    squared advantage times 1/2; policy loss = minus the mean of
    (advantage, detached) times (log-probability of the action), where
    the advantage enters as a constant, so that the policy term is the
    same whatever the gradient of the value estimates is; and total loss
    = policy loss + value_loss_weight * value loss - entropy_loss_weight
    * mean entropy. *)
Theorem a2c_loss_terms (a : A2C.Agent) (next_value : list D) (tstep : Z)
    (logits : list (list D)) (values logp : list D) (st h0 : Hidden) :
  let R := ro_compute_returns (A2C.rollouts a) next_value
             (gamma (A2C.config a)) in
  let num_steps := length (ro_rewards (A2C.rollouts a)) in
  let num_processes := match ro_rewards (A2C.rollouts a) with
                       | r :: _ => length r
                       | [] => O
                       end in
  let returns := but_last (ro_returns R) in
  py_index (ro_states R) 0 = Ok h0 ->
  ac_forward (A2C.model a) (concat (but_last (ro_observations R))) h0
    (concat (but_last (ro_masks R))) = (logits, values, st) ->
  gather (map log_softmax logits) (concat (ro_actions R)) = Ok logp ->
  length values = (num_steps * num_processes)%nat ->
  length logp = (num_steps * num_processes)%nat ->
  length returns = num_steps ->
  Forall (fun row => length row = num_processes) returns ->
  let advantages := zip_with Dsub (concat returns) values in
  let dist_entropy := Dmean (map entropy logits) in
  let value_loss :=
    Dmean (map (fun x => Dmulc (Dpow2 x) (1 # 2)) advantages) in
  let action_loss :=
    Dneg (Dmean (zip_with (fun x l => Dmul (const (val x)) l)
                   advantages logp)) in
  let loss :=
    Dsub (Dadd action_loss
            (Dcmul (value_loss_weight (A2C.config a)) value_loss))
         (Dcmul (entropy_loss_weight (A2C.config a)) dist_entropy) in
  (exists a',
      A2C.compute_loss next_value tstep a =
        Ok ((loss, action_loss, value_loss, dist_entropy, 0%Q), a') /\
      A2C.rollouts a' = R /\ A2C.model a' = A2C.model a) /\
  (forall (i : nat) (r v : D),
      concat returns !! i = Some r -> values !! i = Some v ->
      exists x, advantages !! i = Some x /\ val x = (val r - val v)%Q) /\
  val value_loss =
    Qmean (map (fun x => val x * val x * (1 # 2))%Q advantages) /\
  val action_loss =
    (- Qmean (zip_with (fun x l => val x * val l)%Q advantages logp))%Q /\
  (forall advantages' : list D,
      map val advantages' = map val advantages ->
      Dneg (Dmean (zip_with Dmul (map detach advantages') logp))
        = action_loss) /\
  val loss =
    (val action_loss + value_loss_weight (A2C.config a) * val value_loss
     - entropy_loss_weight (A2C.config a) * val dist_entropy)%Q.
Proof.
  intros R num_steps num_processes returns Hh0 Hfw Hg Hlv Hll Hlr Hrows
    advantages dist_entropy value_loss action_loss loss.
  destruct (chunks_shape num_steps num_processes values Hlv)
    as (Hv1 & Hv2 & Hv3).
  destruct (chunks_shape num_steps num_processes logp Hll)
    as (Hl1 & Hl2 & Hl3).
  set (values2 := chunks num_steps num_processes values) in *.
  set (logp2 := chunks num_steps num_processes logp) in *.
  set (advs2 := zip_with (zip_with Dsub) returns values2).
  destruct (zip_with_shape Dsub num_processes returns values2)
    as (Ha1 & Ha2); [congruence | assumption | assumption |].
  fold advs2 in Ha1, Ha2.
  assert (Hadv : bcast2 Dsub returns values2 = Ok advs2).
  { apply bcast2_same, (same_shape num_processes); auto; congruence. }
  assert (Hprod : bcast2 Dmul (map (map detach) advs2) logp2 =
                  Ok (zip_with (zip_with Dmul) (map (map detach) advs2) logp2)).
  { apply bcast2_same, (same_shape num_processes); auto.
    - rewrite length_map. congruence.
    - now apply map_map_shape. }
  assert (Hcat : concat advs2 = advantages).
  { unfold advs2, advantages. rewrite concat_zip_with, Hv3; [reflexivity |].
    apply (same_shape num_processes); auto; congruence. }
  assert (Hcatp : concat (zip_with (zip_with Dmul) (map (map detach) advs2)
                            logp2)
                  = zip_with Dmul (map detach advantages) logp).
  { rewrite concat_zip_with, concat_map_map, Hcat, Hl3; [reflexivity |].
    apply (same_shape num_processes); auto.
    - rewrite length_map. congruence.
    - now apply map_map_shape. }
  split; [| split; [| split; [| split; [| split]]]].
  - eexists. split; [| split].
    + unfold A2C.compute_loss.
      unfold bind at 1, get. unfold bind at 1, modify.
      unfold bind at 1, get. cbn [A2C.rollouts A2C.set_rollouts A2C.config].
      fold R. unfold bind at 1, lift. rewrite Hh0.
      unfold bind at 1. unfold A2C.evaluate_actions at 1.
      unfold bind at 1, get.
      cbn [A2C.model A2C.set_rollouts]. rewrite Hfw.
      unfold bind at 1, lift. rewrite Hg. unfold ret at 1.
      unfold bind at 1, lift.
      fold num_steps num_processes.
      rewrite (view_ok _ _ _ Hlv). fold values2.
      unfold bind at 1. rewrite (view_ok _ _ _ Hll). fold logp2.
      unfold bind at 1. fold returns. rewrite Hadv.
      unfold bind at 1. rewrite Hprod.
      rewrite Hcat, Hcatp, detach_mul_const.
      fold dist_entropy value_loss action_loss.
      cbn [A2C.config A2C.set_rollouts]. fold loss.
      reflexivity.
    + reflexivity.
    + reflexivity.
  - intros i r v Hr Hv. unfold advantages.
    rewrite lookup_zip_with, Hr, Hv. simpl. eauto.
  - unfold value_loss. simpl. now rewrite map_map.
  - unfold action_loss. simpl. f_equal. f_equal.
    rewrite <- map_val_detach_mul, detach_mul_const. reflexivity.
  - intros advantages' Hval. unfold action_loss.
    rewrite <- detach_mul_const. do 3 f_equal.
    unfold detach. rewrite <- (map_map val (fun q => mkD q gzero)).
    rewrite Hval. now rewrite map_map.
  - reflexivity.
Qed.

End A2C_loss.

(** ** The remaining properties on the concrete instance *)

Section More_examples.
Import Toy.

Lemma dqn_target_and_huber_loss_witness :
  exists (current target : list D) (loss : D) (a' : DQN.Agent),
    DQN.compute_loss toy_batch 0 toy_dqn = Ok (loss, a') /\
    length target = 2%nat /\
    Forall (fun y => tan y = 0%Q) target /\
    loss = Dmean (zip_with smooth_l1 current target).
Proof.
  let c := eval vm_compute in
             (q_forward (DQN.model toy_dqn) (DQN.batch_state toy_batch)) in
  pose (cur := c).
  let c := eval vm_compute in
             (q_forward (DQN.target_model toy_dqn)
                (DQN.batch_next_state toy_batch)) in
  pose (nxt := c).
  assert (Hcur : q_forward (DQN.model toy_dqn) (DQN.batch_state toy_batch)
                 = cur) by (vm_compute; reflexivity).
  assert (Hnext : q_forward (DQN.target_model toy_dqn)
                    (DQN.batch_next_state toy_batch) = nxt)
    by (vm_compute; reflexivity).
  destruct (dqn_target_and_huber_loss toy_dqn toy_batch 0)
    as (current & target & loss & a' & Hrun & _ & _ & Hlen & Htgt & Hloss & _).
  - rewrite Hcur. repeat constructor; simpl; lia.
  - rewrite Hnext. repeat constructor; discriminate.
  - rewrite Hnext. reflexivity.
  - rewrite Hnext. reflexivity.
  - rewrite Hcur, Hnext. reflexivity.
  - exists current, target, loss, a'.
    split; [exact Hrun |]. rewrite Hnext in Hlen, Htgt.
    split; [exact Hlen |]. split; [| exact Hloss].
    destruct target as [| y0 [| y1 [| y2 target]]]; try discriminate.
    destruct (Htgt 0%nat 1%Q 1%Q _ eq_refl eq_refl eq_refl)
      as (y & m & [= <-] & _ & _ & Htan0).
    destruct (Htgt 1%nat 2%Q 0%Q _ eq_refl eq_refl eq_refl)
      as (y' & m' & [= <-] & _ & _ & Htan1).
    repeat constructor; assumption.
Defined.

Lemma a2c_after_ok (m : SE A2C.Agent unit) (a : A2C.Agent) :
  is_ok (m a) = true -> m a = Ok (tt, a2c_after m a).
Proof.
  unfold a2c_after. destruct (m a) as [[[] a'] | e];
    [reflexivity | discriminate].
Qed.

Lemma a2c_loss_terms_witness :
  exists (loss action_loss value_loss dist_entropy : D) (a' : A2C.Agent),
    A2C.compute_loss [mkD 1%Q 0%Q; mkD 2%Q 0%Q] 2 toy_a2c2 =
      Ok ((loss, action_loss, value_loss, dist_entropy, 0%Q), a') /\
    val loss =
      (val action_loss + 1 * val value_loss - (1 # 100) * val dist_entropy)%Q.
Proof.
  pose (nv := [mkD 1%Q 0%Q; mkD 2%Q 0%Q]).
  pose (R := ro_compute_returns (A2C.rollouts toy_a2c2) nv
               (gamma (A2C.config toy_a2c2))).
  pose (out := ac_forward (A2C.model toy_a2c2)
                 (concat (but_last (ro_observations R))) tt
                 (concat (but_last (ro_masks R)))).
  let c := eval vm_compute in
             (default [] (returned
                (lift (S := unit)
                   (gather (map log_softmax (fst (fst out)))
                      (concat (ro_actions R))) tt))) in
  pose (logp := c).
  destruct (a2c_loss_terms toy_a2c2 nv 2 (fst (fst out)) (snd (fst out))
              logp (snd out) tt)
    as ((a' & Hrun & _) & _ & _ & _ & _ & Hloss).
  - vm_compute. reflexivity.
  - reflexivity.
  - vm_compute. reflexivity.
  - vm_compute. reflexivity.
  - vm_compute. reflexivity.
  - vm_compute. reflexivity.
  - vm_compute. repeat constructor.
  - eexists _, _, _, _, a'. split; [exact Hrun | exact Hloss].
Defined.



Lemma episode_key_is_optional_witness :
  DQN.step 0 toy_dqn = Ok (tt, after [Step 0] toy_dqn) /\
  DQN.last_100_rewards (after [Step 0] toy_dqn) = [0%Q] /\
  DQN.record_episode 0 (1, ∅) toy_dqn = Ok (tt, toy_dqn).
Proof.
  assert (H : DQN.step 0 toy_dqn = Ok (tt, after [Step 0] toy_dqn)).
  { assert (Hr := after_ok [Step 0] toy_dqn).
    unfold after, run_calls, do_call, bind, ret in *.
    destruct (DQN.step 0 toy_dqn) as [[[] b] | e] eqn:Hs.
    - reflexivity.
    - exfalso. assert (Hok : is_ok (DQN.step 0 toy_dqn) = true)
        by (vm_compute; reflexivity).
      rewrite Hs in Hok. discriminate. }
  split; [exact H |].
  destruct (episode_key_is_optional (AG := autograd) (T := torch)
              (U := utils) (E := vecenv))
    as (Habsent & _ & Hstep & _).
  split.
  - rewrite (Hstep 0 toy_dqn _ H).
    vm_compute. reflexivity.
  - apply Habsent. reflexivity.
Defined.

Lemma rollout_rotation_is_unconditional_witness :
  A2C.update (-1) toy_a2c2 =
  Ok (tt, A2C.set_rollouts (ro_after_update (A2C.rollouts toy_a2c2))
            toy_a2c2).
Proof.
  let c := eval vm_compute in
             (default [] (last (ro_observations (A2C.rollouts toy_a2c2)))) in
  pose (o := c).
  let c := eval vm_compute in
             (default [] (last (ro_masks (A2C.rollouts toy_a2c2)))) in
  pose (m := c).
  destruct (rollout_rotation_is_unconditional (-1) toy_a2c2 o tt m)
    as (_ & Hearly & _).
  - vm_compute. reflexivity.
  - vm_compute. reflexivity.
  - vm_compute. reflexivity.
  - apply Hearly. vm_compute. reflexivity.
Defined.

End More_examples.

(** * Further properties of the agents *)

(** ** Acting, evaluation mode and the update counter of the DQN agent *)

Section DQN_more.
Context {AG : Autograd} {T : Torch} {U : Utils} {E : VecEnv}.

(** X1.  [DQN.step] never learns: a step that returns has left the
    online and the target network, the optimizer, the gradient buffers,
    the replay memory and the update counter as they were. *)
Theorem dqn_step_never_learns (t : Z) (a a' : DQN.Agent) :
  DQN.step t a = Ok (tt, a') ->
  DQN.model a' = DQN.model a /\
  DQN.target_model a' = DQN.target_model a /\
  DQN.optimizer a' = DQN.optimizer a /\
  DQN.grad a' = DQN.grad a /\
  DQN.memory a' = DQN.memory a /\
  DQN.update_count a' = DQN.update_count a /\
  DQN.config a' = DQN.config a /\
  DQN.static_policy a' = DQN.static_policy a.
Proof.
  intros H. apply step_learner in H. unfold same_learner in H. tauto.
Qed.

Lemma update_static (t : Z) (a a' : DQN.Agent) :
  DQN.static_policy a = true -> DQN.update t a = Ok (tt, a') -> a' = a.
Proof.
  intros Hst H. unfold DQN.update in H.
  apply bind_ok in H as (self & a0 & [= <- <-] & H).
  destruct (DQN.dones a) as [d |]; [| discriminate].
  rewrite update__static in H by assumption. now injection H.
Qed.

Lemma run_static (cs : list call) : forall a a' : DQN.Agent,
  DQN.static_policy a = true -> run_calls cs a = Ok (tt, a') ->
  same_learner a a'.
Proof.
  induction cs as [| c cs IH]; intros a a' Hst H; simpl in H.
  - injection H as <-. apply same_learner_refl.
  - apply bind_ok in H as ([] & a1 & H1 & H).
    assert (H1' : same_learner a a1).
    { destruct c as [t | t]; simpl in H1.
      - now apply step_learner in H1.
      - apply update_static in H1; [| assumption]. subst a1.
        apply same_learner_refl. }
    eapply same_learner_trans; [exact H1' |]. apply IH; [| exact H].
    unfold same_learner in H1'. destruct H1' as (-> & _). exact Hst.
Qed.

(** X2.  In evaluation mode ([static_policy]) no sequence of [step] and
    [update] calls changes the networks, the optimizer, the gradient
    buffers, the replay memory or the update counter: nothing is stored
    and nothing is learned. *)
Theorem evaluation_mode_is_inert (cs : list call) (a a' : DQN.Agent) :
  DQN.static_policy a = true ->
  run_calls cs a = Ok (tt, a') ->
  DQN.static_policy a' = true /\
  DQN.model a' = DQN.model a /\
  DQN.target_model a' = DQN.target_model a /\
  DQN.optimizer a' = DQN.optimizer a /\
  DQN.grad a' = DQN.grad a /\
  DQN.memory a' = DQN.memory a /\
  DQN.update_count a' = DQN.update_count a.
Proof.
  intros Hst H. apply run_static in H; [| exact Hst].
  unfold same_learner in H. destruct H as (H1 & _ & _ & H).
  split; [congruence | tauto].
Qed.

(** X3.  The update counter stays in range: with a positive sync
    frequency [K], a counter in [0, K) is still in [0, K) after any
    sequence of [step] and [update] calls. *)
Theorem update_counter_in_range (cs : list call) (a a' : DQN.Agent) :
  let K := target_net_update_freq (DQN.config a) in
  0 < K -> 0 <= DQN.update_count a < K ->
  run_calls cs a = Ok (tt, a') ->
  0 <= DQN.update_count a' < K.
Proof.
  intros K HK Hc H. destruct (DQN.static_policy a) eqn:Hst.
  - apply run_static in H; [| exact Hst]. unfold same_learner in H.
    destruct H as (_ & _ & _ & _ & _ & _ & _ & _ & ->). exact Hc.
  - pose proof (run_synced cs a a' Hst H) as S. cbv zeta in S.
    fold K in S. destruct S as (-> & _); [exact HK | exact Hc |].
    now apply Z.mod_pos_bound.
Qed.

(** X4.  A sync frequency of zero is an error: a learning update of a
    non-static agent never returns then, and once the minibatch is
    sampled and the loss computed it raises [ZeroDivisionError]
    (from [update_count % target_net_update_freq]), after the optimizer
    step. *)
Theorem zero_sync_frequency_raises (a : DQN.Agent)
    (s : list Obs) (act : list Z) (r : list Q) (s_ : list Obs)
    (term : list Z) (tstep : Z) :
  DQN.static_policy a = false ->
  learn_start (DQN.config a) <= tstep ->
  target_net_update_freq (DQN.config a) = 0 ->
  (forall a', DQN.update_ (Some s) (Some act) (Some r) s_ term tstep a
              <> Ok (tt, a')) /\
  (forall bv a2 loss a3,
      DQN.prep_minibatch (DQN.set_memory (appended a s act r s_ term) a)
        = Ok (bv, a2) ->
      DQN.compute_loss bv tstep a2 = Ok (loss, a3) ->
      DQN.update_ (Some s) (Some act) (Some r) s_ term tstep a
        = Raise ZeroDivisionError).
Proof.
  intros Hst Hle HK. split.
  - intros a' H.
    destruct (update__learning _ _ _ _ _ _ _ _ Hst Hle H) as (HK' & _).
    contradiction.
  - intros bv a2 loss a3 Hprep Hloss.
    pose proof (prep_minibatch_learner _ _ _ Hprep) as Hp.
    pose proof (compute_loss_learner _ _ _ _ _ Hloss) as Hl.
    unfold DQN.update_. unfold bind at 1, get. rewrite Hst.
    unfold bind at 1, DQN.append_to_replay, modify. fold (appended a s act r s_ term).
    destruct (Z.ltb_spec tstep (learn_start (DQN.config a))); [lia |].
    unfold bind at 1. rewrite Hprep.
    unfold bind at 1. rewrite Hloss.
    unfold bind at 1, modify. unfold bind at 1. unfold bind at 1.
    unfold bind at 1.
    destruct (opt_step _ _ _) as [p o].
    unfold bind at 1. rewrite update_target_model_eq.
    unfold same_learner in Hp, Hl. simpl in *.
    destruct Hp as (_ & Hp2 & _), Hl as (_ & Hl2 & _).
    rewrite Hl2, Hp2, HK. reflexivity.
Qed.

End DQN_more.

(** ** What a step of the DQN agent records *)

Section DQN_step_more.
Context {AG : Autograd} {T : Torch} {U : Utils} {E : VecEnv}.

Lemma same_interaction_refl (a : DQN.Agent) : same_interaction a a.
Proof. unfold same_interaction. tauto. Qed.

Lemma same_interaction_trans (a1 a2 a3 : DQN.Agent) :
  same_interaction a1 a2 -> same_interaction a2 a3 -> same_interaction a1 a3.
Proof. unfold same_interaction. intuition congruence. Qed.

Lemma same_accumulators_refl (a : DQN.Agent) : same_accumulators a a.
Proof. reflexivity. Qed.

Lemma same_accumulators_trans (a1 a2 a3 : DQN.Agent) :
  same_accumulators a1 a2 -> same_accumulators a2 a3 ->
  same_accumulators a1 a3.
Proof. unfold same_accumulators. congruence. Qed.

Lemma draw_interaction {A} (f : RNG -> A * RNG) :
  keeps same_interaction (DQN.draw f).
Proof.
  intros a x a'. unfold DQN.draw. destruct (f (DQN.rng a)) as [y g].
  intros [= _ <-]. unfold same_interaction. simpl. tauto.
Qed.

Lemma draw_accumulators {A} (f : RNG -> A * RNG) :
  keeps same_accumulators (DQN.draw f).
Proof.
  intros a x a'. unfold DQN.draw. destruct (f (DQN.rng a)) as [y g].
  now intros [= _ <-].
Qed.

Ltac interaction_frame :=
  unfold DQN.add_scalar;
  repeat first
    [ apply draw_interaction
    | progress keeps_with same_interaction_refl same_interaction_trans
        ltac:(unfold same_interaction) ].

Ltac accumulators_frame :=
  unfold DQN.add_scalar;
  repeat first
    [ apply draw_accumulators
    | progress keeps_with same_accumulators_refl same_accumulators_trans
        ltac:(unfold same_accumulators) ].

Lemma get_action_interaction (s : list Obs) (eps : Q) :
  keeps same_interaction (DQN.get_action s eps).
Proof. unfold DQN.get_action. interaction_frame. Qed.

Lemma get_action_accumulators (s : list Obs) (eps : Q) :
  keeps same_accumulators (DQN.get_action s eps).
Proof. unfold DQN.get_action. accumulators_frame. Qed.

Lemma record_episode_interaction (t : Z) (p : Z * Info) :
  keeps same_interaction (DQN.record_episode t p).
Proof. unfold DQN.record_episode. destruct p. interaction_frame. Qed.

Lemma record_episode_accumulators (t : Z) (p : Z * Info) :
  keeps same_accumulators (DQN.record_episode t p).
Proof. unfold DQN.record_episode. destruct p. accumulators_frame. Qed.

Lemma py_setitem_nat {A} (xs ys : list A) (n : nat) (v : A) :
  py_setitem xs (Z.of_nat n) v = Ok ys ->
  ys = <[n := v]> xs /\ (n < length xs)%nat.
Proof.
  assert (Hlt : (Z.of_nat n <? 0) = false) by (apply Z.ltb_ge; lia).
  unfold py_setitem. cbv zeta. rewrite Hlt. cbv iota. rewrite Hlt.
  destruct (Z.leb_spec (Z.of_nat (length xs)) (Z.of_nat n)); cbn [orb];
    [discriminate |].
  rewrite Nat2Z.id. intros [= <-]. split; [reflexivity | lia].
Qed.

Lemma reset_done_before (dns : list bool) : forall (er : list Q) (k i : nat),
  (i < k)%nat -> reset_done er k dns !! i = er !! i.
Proof.
  induction dns as [| d dns IH]; intros er k i Hi; simpl; [reflexivity |].
  rewrite IH by lia. destruct d; [| reflexivity].
  apply list_lookup_insert_ne. lia.
Qed.

Lemma reset_done_at (dns : list bool) :
  forall (er : list Q) (k j : nat) (d : bool) (x : Q),
  dns !! j = Some d -> er !! (k + j)%nat = Some x ->
  reset_done er k dns !! (k + j)%nat = Some (if d then 0%Q else x).
Proof.
  induction dns as [| d0 dns IH]; intros er k j d x Hd Hx; [discriminate |].
  destruct j as [| j]; simpl in *.
  - injection Hd as ->. rewrite Nat.add_0_r in *.
    rewrite reset_done_before by lia. destruct d; [| exact Hx].
    apply list_lookup_insert_eq. eapply lookup_lt_Some; eauto.
  - replace (k + S j)%nat with (S k + j)%nat in * by lia.
    apply IH; [exact Hd |]. destruct d0; [| exact Hx].
    rewrite list_lookup_insert_ne by lia. exact Hx.
Qed.

Lemma reset_done_length (dns : list bool) : forall (er : list Q) (k : nat),
  length (reset_done er k dns) = length er.
Proof.
  induction dns as [| d dns IH]; intros er k; simpl; [reflexivity |].
  rewrite IH. destruct d; [apply length_insert | reflexivity].
Qed.

(** The loop over [enumerate(self.dones)] in [step]. *)
Lemma dqn_done_loop (t : Z) (dns : list bool) :
  forall (k : nat) (g : nat -> bool -> Z * bool) (a a' : DQN.Agent),
  (forall i x, g i x = (Z.of_nat (k + i), x)) ->
  for_each (imap g dns)
    (fun '(idx, done) =>
       if done : bool then
         bind get (fun self =>
         bind (lift (py_index (DQN.episode_rewards self) idx)) (fun x =>
         bind (DQN.add_scalar "Performance/Agent Reward" x (t + idx)) (fun _ =>
         bind (lift (py_setitem (DQN.episode_rewards self) idx 0%Q)) (fun er =>
         modify (DQN.set_episode_rewards er)))))
       else ret tt) a = Ok (tt, a') ->
  DQN.episode_rewards a' = reset_done (DQN.episode_rewards a) k dns /\
  same_interaction a a' /\ DQN.infos a' = DQN.infos a.
Proof.
  induction dns as [| d dns IH]; intros k g a a' Hg H;
    cbn [for_each imap] in H.
  - injection H as <-. repeat split.
  - apply bind_ok in H as ([] & a1 & H1 & H).
    rewrite Hg, Nat.add_0_r in H1.
    apply IH with (k := S k) in H as (Her & Hint & Hinf).
    2: { intros i x. unfold compose. rewrite Hg. do 2 f_equal. lia. }
    cbn [reset_done]. destruct d.
    + apply bind_ok in H1 as (self & a0 & [= <- <-] & H1).
      apply bind_ok in H1 as (x & a0 & Hx & H1).
      apply lift_ok in Hx as [_ ->].
      apply bind_ok in H1 as ([] & a2 & [= <-] & H1).
      apply bind_ok in H1 as (er & a3 & Hs & H1).
      apply lift_ok in Hs as [Hs ->]. injection H1 as <-.
      apply py_setitem_nat in Hs as [-> _].
      unfold same_interaction in *. simpl in *.
      destruct Hint as (? & ? & ? & ? & ? & ?).
      rewrite Her, Hinf. repeat split; assumption.
    + injection H1 as <-. destruct Hint as (? & ? & ? & ? & ? & ?).
      rewrite Her, Hinf. repeat split; assumption.
Qed.

Lemma np_inplace_lookup (op : Q -> Q -> Q) (x y z : list Q) (i : nat)
    (u v : Q) :
  np_inplace op x y = Ok z -> x !! i = Some u -> y !! i = Some v ->
  z !! i = Some (op u v).
Proof.
  unfold np_inplace. destruct (length y =? length x)%nat.
  - intros [= <-] Hu Hv. now rewrite lookup_zip_with, Hu, Hv.
  - destruct y as [| c [| c' y]]; try discriminate.
    intros [= <-] Hu Hv. destruct i; [| discriminate].
    injection Hv as ->. now rewrite lookup_map, Hu.
Qed.

Lemma np_inplace_length (op : Q -> Q -> Q) (x y z : list Q) :
  np_inplace op x y = Ok z -> length z = length x.
Proof.
  unfold np_inplace. destruct (Nat.eqb_spec (length y) (length x)).
  - intros [= <-]. rewrite length_zip_with. lia.
  - destruct y as [| c [| c' y]]; try discriminate.
    intros [= <-]. apply length_map.
Qed.

(** What one [step] leaves behind. *)
Lemma dqn_step_inv (t : Z) (a a' : DQN.Agent) :
  DQN.step t a = Ok (tt, a') ->
  exists acts obs rews dns infs e er,
    env_step (DQN.envs a) acts = (obs, rews, dns, infs, e) /\
    DQN.prev_observations a' = Some (DQN.observations a) /\
    DQN.actions a' = Some acts /\
    DQN.rewards a' = Some rews /\
    DQN.dones a' = Some dns /\
    DQN.observations a' = obs /\
    DQN.infos a' = infs /\
    DQN.envs a' = e /\
    np_inplace Qplus (DQN.episode_rewards a) rews = Ok er /\
    DQN.episode_rewards a' = reset_done er 0 dns.
Proof.
  intros H. unfold DQN.step in H.
  apply bind_ok in H as (self & a0 & [= <- <-] & H).
  apply bind_ok in H as (sched & a1 & H1 & H). apply lift_ok in H1 as [_ ->].
  apply bind_ok in H as ([] & a2 & H2 & H).
  apply bind_ok in H as (acts & a3 & H3 & H).
  apply bind_ok in H as (self3 & a4 & [= <- <-] & H).
  destruct (env_step (DQN.envs a3) acts)
    as [[[[obs rews] dns] infs] e] eqn:Henv.
  apply bind_ok in H as ([] & b1 & [= <-] & H).
  apply bind_ok in H as ([] & b2 & [= <-] & H).
  apply bind_ok in H as ([] & b3 & [= <-] & H).
  apply bind_ok in H as ([] & b4 & [= <-] & H).
  apply bind_ok in H as (er & b5 & H5 & H). apply lift_ok in H5 as [H5 ->].
  apply bind_ok in H as ([] & b6 & [= <-] & H).
  apply bind_ok in H as ([] & b7 & H7 & H).
  assert (K2i : keeps same_interaction (DQN.add_scalar "Policy/Epsilon"
                  (schedule_value sched t) t)) by interaction_frame.
  assert (K2a : keeps same_accumulators (DQN.add_scalar "Policy/Epsilon"
                  (schedule_value sched t) t)) by accumulators_frame.
  pose proof (K2i _ _ _ H2) as H2i. apply K2a in H2.
  pose proof (get_action_interaction _ _ _ _ _ H3) as H3i.
  apply get_action_accumulators in H3.
  apply (dqn_done_loop t dns 0 (fun i x => (Z.of_nat i, x))) in H7
    as (H7e & H7i & H7f); [| reflexivity].
  assert (Kli : keeps same_interaction
                  (for_each (enumerate infs) (DQN.record_episode t))).
  { apply keeps_for_each;
      [apply same_interaction_refl | apply same_interaction_trans |].
    intros p. apply record_episode_interaction. }
  assert (Kla : keeps same_accumulators
                  (for_each (enumerate infs) (DQN.record_episode t))).
  { apply keeps_for_each;
      [apply same_accumulators_refl | apply same_accumulators_trans |].
    intros p. apply record_episode_accumulators. }
  pose proof (Kli _ _ _ H) as H8i. pose proof (Kla _ _ _ H) as H8a.
  apply (dqn_record_loop t infs (fun i x => (Z.of_nat i, x))) in H
    as (_ & H8f); [| reflexivity].
  unfold same_interaction, same_accumulators in *. simpl in *.
  destruct H2i as (_ & _ & _ & _ & Ho2 & He2).
  destruct H3i as (_ & _ & _ & _ & Ho3 & He3).
  destruct H7i as (Hp7 & Ha7 & Hr7 & Hd7 & Ho7 & He7).
  destruct H8i as (Hp8 & Ha8 & Hr8 & Hd8 & Ho8 & He8).
  rewrite He3, He2 in Henv. rewrite H3, H2 in H5.
  exists acts, obs, rews, dns, infs, e, er.
  split; [exact Henv |].
  split; [rewrite Hp8, Hp7; congruence |].
  split; [congruence |]. split; [congruence |]. split; [congruence |].
  split; [congruence |]. split; [congruence |]. split; [congruence |].
  split; [exact H5 | congruence].
Qed.

(** X5.  Episode-reward bookkeeping of [DQN.step]: the reward of the step
    is added to each environment's accumulator, and the accumulator of
    every environment whose done flag is set is reset to zero. *)
Theorem episode_rewards_accumulate_and_reset (t : Z) (a a' : DQN.Agent) :
  DQN.step t a = Ok (tt, a') ->
  exists (rews : list Q) (dns : list bool),
    DQN.rewards a' = Some rews /\ DQN.dones a' = Some dns /\
    length (DQN.episode_rewards a') = length (DQN.episode_rewards a) /\
    forall (i : nat) (old r : Q) (d : bool),
      DQN.episode_rewards a !! i = Some old ->
      rews !! i = Some r -> dns !! i = Some d ->
      DQN.episode_rewards a' !! i = Some (if d then 0 else old + r)%Q.
Proof.
  intros H.
  destruct (dqn_step_inv _ _ _ H)
    as (acts & obs & rews & dns & infs & e & er & _ & _ & _ & Hr & Hd & _
        & _ & _ & Her & Hfin).
  exists rews, dns. split; [exact Hr |]. split; [exact Hd |]. split.
  - rewrite Hfin, reset_done_length. eapply np_inplace_length; eauto.
  - intros i old r d Hold Hri Hdi. rewrite Hfin.
    apply (reset_done_at dns er 0 i d (old + r)%Q Hdi).
    eapply np_inplace_lookup; eauto.
Qed.

(** X6.  [step] followed by [update]: below [learn_start], the [update]
    call of a non-static agent after a [step] pushes, with [memory.push]
    and in order, exactly the transitions of that step: the transition of
    environment [i] holds its observation before the step, the action
    taken, the reward, its observation after the step and its done flag
    as an integer; nothing else changes. *)
Theorem step_then_update_stores_the_step (t t' : Z) (a a1 : DQN.Agent) :
  DQN.step t a = Ok (tt, a1) ->
  DQN.static_policy a = false ->
  t' < learn_start (DQN.config a) ->
  exists (acts : list Z) (rews : list Q) (dns : list bool)
         (ts : list Transition),
    DQN.actions a1 = Some acts /\ DQN.rewards a1 = Some rews /\
    DQN.dones a1 = Some dns /\
    (forall i,
       ts !! i =
       transition_at (DQN.observations a) acts rews (DQN.observations a1)
         (astype_int dns) i) /\
    DQN.update t' a1 =
      Ok (tt, DQN.set_memory (fold_left mem_push ts (DQN.memory a)) a1).
Proof.
  intros H Hst Hlt.
  destruct (dqn_step_inv _ _ _ H)
    as (acts & obs & rews & dns & infs & e & er & _ & Hp & Ha & Hr & Hd & _).
  apply step_learner in H. unfold same_learner in H.
  destruct H as (Hs1 & Hc1 & _ & _ & _ & _ & _ & Hm1 & _).
  exists acts, rews, dns,
    (map (fun '(x, y, z, u, v) => mkTransition x y z u v)
       (zip5 (DQN.observations a) acts rews (DQN.observations a1)
          (astype_int dns))).
  split; [exact Ha |]. split; [exact Hr |]. split; [exact Hd |].
  split; [apply zip5_transition_at |].
  unfold DQN.update. unfold bind, get. rewrite Hd, Hp, Ha, Hr.
  fold (astype_int dns).
  rewrite update__early by congruence.
  unfold appended. now rewrite push_rows_transitions, Hm1.
Qed.

End DQN_step_more.

(** ** The reporting window, the metrics sink and construction *)

Section Reporting.
Context {AG : Autograd} {T : Torch} {U : Utils} {E : VecEnv}.

Lemma extend_window_length (rs : list Q) : forall w : list Q,
  (length w <= 100)%nat -> (length (extend_window w rs) <= 100)%nat.
Proof.
  induction rs as [| r rs IH]; intros w Hw; [exact Hw |].
  change (extend_window w (r :: rs))
    with (extend_window (deque_append 100 w r) rs).
  apply IH, deque_append_length; [lia | exact Hw].
Qed.

Lemma extend_window_suffix (rs w : list Q) :
  (length w + length rs <= 100)%nat -> extend_window w rs = w ++ rs.
Proof.
  revert w. induction rs as [| r rs IH]; intros w Hw; simpl in *.
  - now rewrite app_nil_r.
  - change (extend_window w (r :: rs))
      with (extend_window (deque_append 100 w r) rs).
    rewrite deque_append_room by lia.
    rewrite IH by (rewrite length_app; simpl; lia).
    now rewrite <- app_assoc.
Qed.

(** X7.  The window of episode returns never holds more than 100
    entries: in both agents a [step] keeps the bound, and as long as there
    is room the returns reported by the step are appended in order. *)
Theorem reward_window_bounded :
  (forall t (a a' : DQN.Agent),
      DQN.step t a = Ok (tt, a') ->
      (length (DQN.last_100_rewards a) <= 100)%nat ->
      (length (DQN.last_100_rewards a') <= 100)%nat /\
      ((length (DQN.last_100_rewards a)
        + length (episode_returns (DQN.infos a')) <= 100)%nat ->
       DQN.last_100_rewards a' =
         DQN.last_100_rewards a ++ episode_returns (DQN.infos a'))) /\
  (forall t i (a a' : A2C.Agent),
      A2C.step t i a = Ok (tt, a') ->
      (length (A2C.last_100_rewards a) <= 100)%nat ->
      (length (A2C.last_100_rewards a') <= 100)%nat).
Proof.
  split.
  - intros t a a' H Hw. rewrite (dqn_step_window _ _ _ H). split.
    + now apply extend_window_length.
    + apply extend_window_suffix.
  - intros t i a a' H Hw.
    destruct (a2c_step_inv _ _ _ _ H)
      as (acts & states & logp & values & obs & reward & done & info & e
          & masked & _ & _ & _ & ->).
    now apply extend_window_length.
Qed.

(** The metrics sink *)

Lemma dqn_log_grows_refl (a : DQN.Agent) : dqn_log_grows a a.
Proof. unfold dqn_log_grows. reflexivity. Qed.

Lemma dqn_log_grows_trans (a1 a2 a3 : DQN.Agent) :
  dqn_log_grows a1 a2 -> dqn_log_grows a2 a3 -> dqn_log_grows a1 a3.
Proof. unfold dqn_log_grows. apply transitivity. Qed.

Lemma a2c_log_grows_refl (a : A2C.Agent) : a2c_log_grows a a.
Proof. unfold a2c_log_grows. reflexivity. Qed.

Lemma a2c_log_grows_trans (a1 a2 a3 : A2C.Agent) :
  a2c_log_grows a1 a2 -> a2c_log_grows a2 a3 -> a2c_log_grows a1 a3.
Proof. unfold a2c_log_grows. apply transitivity. Qed.

Lemma dqn_add_scalar_grows (tag : string) (v : Q) (t : Z) :
  keeps dqn_log_grows (DQN.add_scalar tag v t).
Proof.
  intros a x a' [= _ <-]. unfold dqn_log_grows. simpl.
  now apply prefix_app_r.
Qed.

Lemma a2c_add_scalar_grows (tag : string) (v : Q) (t : Z) :
  keeps a2c_log_grows (A2C.add_scalar tag v t).
Proof.
  intros a x a' [= _ <-]. unfold a2c_log_grows. simpl.
  now apply prefix_app_r.
Qed.

Lemma dqn_draw_grows {A} (f : RNG -> A * RNG) :
  keeps dqn_log_grows (DQN.draw f).
Proof.
  intros a x a'. unfold DQN.draw. destruct (f (DQN.rng a)) as [y g].
  intros [= _ <-]. unfold dqn_log_grows. reflexivity.
Qed.

Lemma a2c_draw_grows {A} (f : RNG -> A * RNG) :
  keeps a2c_log_grows (A2C.draw f).
Proof.
  intros a x a'. unfold A2C.draw. destruct (f (A2C.rng a)) as [y g].
  intros [= _ <-]. unfold a2c_log_grows. reflexivity.
Qed.

Ltac dqn_grows :=
  repeat first
    [ apply dqn_add_scalar_grows
    | apply dqn_draw_grows
    | progress keeps_with dqn_log_grows_refl dqn_log_grows_trans
        ltac:(unfold dqn_log_grows; simpl; try reflexivity) ].

Ltac a2c_grows :=
  repeat first
    [ apply a2c_add_scalar_grows
    | apply a2c_draw_grows
    | progress keeps_with a2c_log_grows_refl a2c_log_grows_trans
        ltac:(unfold a2c_log_grows; simpl; try reflexivity) ].

Lemma dqn_step_grows (t : Z) : keeps dqn_log_grows (DQN.step t).
Proof.
  unfold DQN.step, DQN.get_action. dqn_grows.
  unfold DQN.record_episode. dqn_grows.
Qed.

Lemma dqn_update_grows (t : Z) : keeps dqn_log_grows (DQN.update t).
Proof.
  unfold DQN.update, DQN.update_, DQN.append_to_replay, DQN.compute_loss,
    DQN.update_target_model, DQN.prep_minibatch.
  dqn_grows.
  - intros b y b'. destruct (mem_sample _ _ _) as [[smp | e] g];
      [| discriminate].
    intros [= _ <-]. unfold dqn_log_grows. reflexivity.
  - apply keeps_modify. intros b. unfold dqn_log_grows.
    destruct (opt_step _ _ _). reflexivity.
Qed.

Lemma a2c_step_grows (t i : Z) : keeps a2c_log_grows (A2C.step t i).
Proof.
  unfold A2C.step, A2C.get_action. a2c_grows.
  unfold A2C.record_episode. a2c_grows.
Qed.

Lemma a2c_update_grows (t : Z) : keeps a2c_log_grows (A2C.update t).
Proof.
  unfold A2C.update, A2C.get_values, A2C.update_, A2C.compute_loss,
    A2C.evaluate_actions.
  a2c_grows.
  apply keeps_modify. intros b. unfold a2c_log_grows.
  destruct (opt_step _ _ _). reflexivity.
Qed.

(** X8.  The metrics sink is append-only: whatever [step] and [update]
    of either agent record is added after the scalars recorded before;
    nothing recorded is dropped or rewritten. *)
Theorem metrics_are_append_only :
  (forall t (a a' : DQN.Agent),
      DQN.step t a = Ok (tt, a') ->
      DQN.tb_writer a `prefix_of` DQN.tb_writer a') /\
  (forall t (a a' : DQN.Agent),
      DQN.update t a = Ok (tt, a') ->
      DQN.tb_writer a `prefix_of` DQN.tb_writer a') /\
  (forall t i (a a' : A2C.Agent),
      A2C.step t i a = Ok (tt, a') ->
      A2C.tb_writer a `prefix_of` A2C.tb_writer a') /\
  (forall t (a a' : A2C.Agent),
      A2C.update t a = Ok (tt, a') ->
      A2C.tb_writer a `prefix_of` A2C.tb_writer a').
Proof.
  split; [| split; [| split]].
  - intros t a a' H. exact (dqn_step_grows t _ _ _ H).
  - intros t a a' H. exact (dqn_update_grows t _ _ _ H).
  - intros t i a a' H. exact (a2c_step_grows t i _ _ _ H).
  - intros t a a' H. exact (a2c_update_grows t _ _ _ H).
Qed.

End Reporting.

(** ** Construction of the agents *)

Section Construction.
Context {AG : Autograd} {T : Torch} {U : Utils} {E : VecEnv}.

(** X9.  A freshly constructed DQN agent: the target network is a copy of
    the online network, the update counter is zero, the replay memory is
    new, the episode accumulators are [num_envs] zeros, the window and
    the metrics sink are empty, the observations are those of
    [envs.reset()] and the schedule is the one [training_priors] chose;
    an [update] before the first [step] raises [AttributeError], because
    [self.dones] is still [None]. *)
Theorem fresh_dqn_agent (static : bool) (env : EnvState) (cfg : Config)
    (n : Z) (g : RNG) (a : DQN.Agent) :
  DQN.init static env cfg n g = Ok a ->
  DQN.static_policy a = static /\ DQN.config a = cfg /\
  DQN.num_actions a = n /\
  DQN.target_model a = DQN.model a /\
  DQN.update_count a = 0 /\
  DQN.memory a = new_memory (exp_replay_size cfg) /\
  DQN.episode_rewards a = repeat 0%Q (num_envs cfg) /\
  DQN.last_100_rewards a = [] /\
  DQN.tb_writer a = [] /\
  DQN.observations a = fst (env_reset env) /\
  DQN.envs a = snd (env_reset env) /\
  (exists sched, DQN.make_schedule cfg = Ok sched /\
                 DQN.anneal_eps a = Some sched) /\
  (forall t, DQN.update t a = Raise AttributeError).
Proof.
  unfold DQN.init. destruct (new_dqn g) as [m g1].
  destruct (new_dqn g1) as [tm g2].
  unfold DQN.training_priors, bind, get, modify, lift. simpl.
  destruct (DQN.make_schedule cfg) as [sched | e]; [| discriminate].
  simpl. destruct (env_reset env) as [obs e'].
  intros [= <-]. simpl. repeat split; eauto.
Qed.

(** X10.  Edge cases of the schedule choice: with a one-element
    [epsilon_final] and an empty [epsilon_decay] the construction raises
    [IndexError] (from [epsilon_decay[0]]); with an empty [epsilon_final]
    it falls to the last branch and builds a [PiecewiseSchedule]. *)
Theorem schedule_edge_cases (static : bool) (env : EnvState) (cfg : Config)
    (n : Z) (g : RNG) :
  (forall f, epsilon_final cfg = [f] -> epsilon_decay cfg = [] ->
     DQN.init static env cfg n g = Raise IndexError) /\
  (epsilon_final cfg = [] ->
     exists a, DQN.init static env cfg n g = Ok a /\
       DQN.anneal_eps a =
       Some (PiecewiseSchedule (epsilon_start cfg) [] (epsilon_decay cfg)
               (max_tsteps cfg))).
Proof.
  split.
  - intros f Hf Hd. unfold DQN.init. destruct (new_dqn g) as [m g1].
    destruct (new_dqn g1) as [tm g2].
    unfold DQN.training_priors, bind, get, modify, lift. simpl.
    unfold DQN.make_schedule. rewrite Hf, Hd. reflexivity.
  - intros Hf. unfold DQN.init. destruct (new_dqn g) as [m g1].
    destruct (new_dqn g1) as [tm g2].
    unfold DQN.training_priors, bind, get, modify, lift. simpl.
    unfold DQN.make_schedule. rewrite Hf. simpl.
    destruct (env_reset env) as [obs e']. eexists. split; reflexivity.
Qed.

(** X11.  Construction of the A2C agent writes the (normalised)
    observations of [envs.reset()] into slot 0 of the rollout storage and
    leaves the other slots alone; the accumulators are [num_envs] zeros
    and the window is empty.  On a storage without observation slots the
    construction raises [IndexError]. *)
Theorem fresh_a2c_agent (static : bool) (env : EnvState) (cfg : Config)
    (n : Z) (g : RNG) :
  let m := fst (new_actor_critic g) in
  let ro := new_rollouts (update_freq cfg) (num_envs cfg) (state_size m)
              (use_gae cfg) (gae_tau cfg) in
  let obs := normalise cfg (fst (env_reset env)) in
  (ro_observations ro = [] ->
     A2C.init static env cfg n g = Raise IndexError) /\
  (ro_observations ro <> [] ->
     exists a, A2C.init static env cfg n g = Ok a /\
       A2C.model a = m /\
       ro_observations (A2C.rollouts a) = <[O := obs]> (ro_observations ro) /\
       ro_masks (A2C.rollouts a) = ro_masks ro /\
       ro_states (A2C.rollouts a) = ro_states ro /\
       A2C.obs a = fst (env_reset env) /\
       A2C.episode_rewards a = repeat 0%Q (num_envs cfg) /\
       A2C.final_rewards a = repeat 0%Q (num_envs cfg) /\
       A2C.last_100_rewards a = []).
Proof.
  intros m ro obs. subst m ro obs. unfold A2C.init.
  destruct (new_actor_critic g) as [m g1]. simpl fst.
  unfold A2C.training_priors, bind, get, modify, lift. simpl.
  destruct (env_reset env) as [o e']. simpl.
  set (ro := new_rollouts _ _ _ _ _).
  split.
  - intros ->. reflexivity.
  - intros Hne. unfold py_setitem.
    destruct (ro_observations ro) as [| x xs] eqn:Hro; [congruence |].
    simpl. eexists. split; [reflexivity |]. simpl.
    repeat split.
Qed.

End Construction.

(** ** More on the loss of the DQN agent *)

Section DQN_loss_more.
Context {AG : Autograd} {T : Torch} {U : Utils} {E : VecEnv}.

Lemma rmapM_raise {A B} (f : A -> result B) (e : exn) (l : list A) :
  (forall x e', f x = Raise e' -> e' = e) ->
  Exists (fun x => exists e', f x = Raise e') l ->
  rmapM f l = Raise e.
Proof.
  intros Hf. induction l as [| x l IH]; intros Hex; simpl.
  - inversion Hex.
  - destruct (f x) as [y | e'] eqn:Hx; simpl.
    + rewrite IH; [reflexivity |].
      inversion Hex as [? ? [e' He'] | ? ? Ht]; subst; [congruence | exact Ht].
    + now rewrite (Hf _ _ Hx).
Qed.

Lemma gather_row_raises (row : list D) (j : Z) (e : exn) :
  gather_row row j = Raise e -> e = RuntimeError.
Proof.
  unfold gather_row. destruct (j <? 0); [congruence |].
  destruct (row !! Z.to_nat j); [discriminate | congruence].
Qed.

Lemma gather_row_out_of_range (row : list D) (j : Z) :
  ~ (0 <= j < Z.of_nat (length row)) -> gather_row row j = Raise RuntimeError.
Proof.
  intros H. unfold gather_row. destruct (Z.ltb_spec j 0); [reflexivity |].
  destruct (row !! Z.to_nat j) as [x |] eqn:Hx; [| reflexivity].
  apply lookup_lt_Some in Hx. lia.
Qed.

Lemma gather_raises (x : list (list D)) (index : list Z) :
  (length x < length index)%nat \/
  (exists (i : nat) (row : list D) (j : Z),
      x !! i = Some row /\ index !! i = Some j /\
      ~ (0 <= j < Z.of_nat (length row))) ->
  gather x index = Raise RuntimeError.
Proof.
  intros H. unfold gather.
  destruct (Nat.ltb_spec (length x) (length index)) as [| Hle];
    [reflexivity |].
  destruct H as [H | (i & row & j & Hrow & Hj & Hout)]; [lia |].
  apply rmapM_raise.
  - intros [r k] e'. apply gather_row_raises.
  - apply Exists_exists. exists (row, j). split.
    + apply list_elem_of_lookup. exists i.
      rewrite lookup_zip_with, Hrow. simpl. now rewrite Hj.
    + simpl. exists RuntimeError. now apply gather_row_out_of_range.
Qed.

(** X12.  A minibatch whose action index does not name a column of the
    online network's output (or that has more actions than rows) makes
    [compute_loss] raise [RuntimeError]; nothing is logged. *)
Theorem action_out_of_range_raises (a : DQN.Agent) (bv : DQN.Batch)
    (tstep : Z) :
  let cur_q := q_forward (DQN.model a) (DQN.batch_state bv) in
  (length cur_q < length (DQN.batch_action bv))%nat \/
  (exists (i : nat) (row : list D) (j : Z),
      cur_q !! i = Some row /\ DQN.batch_action bv !! i = Some j /\
      ~ (0 <= j < Z.of_nat (length row))) ->
  DQN.compute_loss bv tstep a = Raise RuntimeError.
Proof.
  intros cur_q H. unfold DQN.compute_loss, bind, get, lift.
  fold cur_q. now rewrite (gather_raises _ _ H).
Qed.

(** The value of [compute_loss] on a well-shaped minibatch. *)
Lemma argmax_max_from (row : list D) : forall (pre : list D) (best : D)
    (bi : nat),
  pre !! bi = Some best ->
  (pre ++ row) !! argmax_from bi (val best) (length pre) row
    = Some (max_from best row).
Proof.
  induction row as [| y row IH]; intros pre best bi Hb; simpl.
  - rewrite app_nil_r. exact Hb.
  - replace (pre ++ y :: row) with ((pre ++ [y]) ++ row)
      by (now rewrite <- app_assoc).
    replace (S (length pre)) with (length (pre ++ [y]))
      by (rewrite length_app; simpl; lia).
    destruct (Qltb (val best) (val y)).
    + apply IH. rewrite lookup_app_r by lia.
      now rewrite Nat.sub_diag.
    + apply IH. rewrite lookup_app_l; [exact Hb |].
      eapply lookup_lt_Some; eauto.
Qed.

Lemma gather_row_argmax (row : list D) (j : Z) :
  argmax_row row = Ok j -> gather_row row j = row_max row.
Proof.
  destruct row as [| x row]; simpl; [discriminate |].
  intros [= <-]. unfold gather_row.
  destruct (Z.ltb_spec (Z.of_nat (argmax_from 0 (val x) 1 row)) 0); [lia |].
  rewrite Nat2Z.id.
  pose proof (argmax_max_from row [x] x 0 eq_refl) as Hm.
  change ([x] ++ row) with (x :: row) in Hm.
  change (length [x]) with 1%nat in Hm. now rewrite Hm.
Qed.

(** X14.  [get_max_next_state_action] reads the target network and
    changes nothing; the actions it returns are arg-max actions, and
    gathering the target network's Q-values at them gives exactly the row
    maxima that [compute_loss] takes with [max(dim=1)[0]]. *)
Theorem max_next_action_attains_max (a a' : DQN.Agent)
    (next_states : list Obs) (acts : list Z) :
  DQN.get_max_next_state_action next_states a = Ok (acts, a') ->
  let rows := q_forward (DQN.target_model a) next_states in
  a' = a /\
  Forall2 is_argmax rows acts /\
  gather rows acts = rmapM row_max rows.
Proof.
  intros H rows. unfold DQN.get_max_next_state_action in H.
  apply bind_ok in H as (self & a0 & [= <- <-] & H).
  apply lift_ok in H as [H ->]. fold rows in H.
  apply rmapM_inv in H. split; [reflexivity |]. split.
  - eapply Forall2_impl; [exact H |]. intros row j. apply argmax_row_spec.
  - unfold gather. rewrite (Forall2_length _ _ _ H), Nat.ltb_irrefl.
    induction H as [| row j rows' acts' Hj _ IH]; simpl; [reflexivity |].
    now rewrite (gather_row_argmax _ _ Hj), IH.
Qed.

End DQN_loss_more.

(** ** Gradients and exploration edge cases *)

Section DQN_grad.
Context {AG : Autograd} {T : Torch} {U : Utils} {E : VecEnv}.

(** X15.  Gradients do not accumulate across updates: a learning update
    zeroes the gradient buffers before it backpropagates, so its outcome
    (new parameters, optimizer state, everything it logs, and whether it
    raises) is the same whatever the buffers held before. *)
Theorem gradients_do_not_accumulate (a : DQN.Agent) (g : Grad)
    (s : option (list Obs)) (act : option (list Z)) (r : option (list Q))
    (s_ : list Obs) (term : list Z) (tstep : Z) :
  DQN.static_policy a = false ->
  learn_start (DQN.config a) <= tstep ->
  DQN.update_ s act r s_ term tstep (DQN.set_grad g a) =
  DQN.update_ s act r s_ term tstep a.
Proof.
  intros Hst Hle.
  unfold DQN.update_, DQN.append_to_replay, DQN.prep_minibatch,
    DQN.compute_loss, DQN.update_target_model, DQN.add_scalar,
    bind, get, modify, lift, ret, raise.
  cbn [DQN.static_policy DQN.set_grad DQN.config]. rewrite Hst.
  destruct s as [s |], act as [act |], r as [r |]; try reflexivity.
  destruct (Z.ltb_spec tstep (learn_start (DQN.config a))); [lia |].
  cbn.
  destruct (mem_sample _ _ _) as [[smp | e] g']; [| reflexivity].
  cbn.
  destruct (gather _ _) as [current | e]; [| reflexivity].
  destruct (rmapM row_max _) as [max_q | e]; [| reflexivity]. cbn.
  destruct (bcast Dmul _ _) as [nq | e]; [| reflexivity]. cbn.
  destruct (bcast Dadd _ _) as [tg | e]; [| reflexivity]. cbn.
  destruct (SmoothL1Loss _ _) as [loss | e]; [| reflexivity]. cbn.
  destruct (opt_step _ _ _) as [p o]. cbn.
  destruct (target_net_update_freq (DQN.config a) =? 0); [reflexivity |].
  cbn. destruct (_ =? 0); cbn; destruct (noisy_nets (DQN.config a));
    reflexivity.
Qed.

(** X16.  Exploring with an empty action range is an error: outside
    evaluation mode and without noisy nets, when the draw does not exceed
    epsilon and [num_actions <= 0], [get_action] on a non-empty batch of
    observations raises [ValueError] (from
    [np.random.randint(0, num_actions, ...)]). *)
Theorem exploring_without_actions_raises (a : DQN.Agent) (s : list Obs)
    (eps : Q) :
  s <> [] ->
  DQN.static_policy a = false -> noisy_nets (DQN.config a) = false ->
  DQN.num_actions a <= 0 ->
  (fst (np_random (DQN.rng a)) <= eps)%Q ->
  DQN.get_action s eps a = Raise ValueError.
Proof.
  intros Hs Hst Hn Hna Hu. unfold DQN.get_action, bind, get.
  unfold DQN.draw at 1. destruct (np_random (DQN.rng a)) as [u g'].
  simpl in *. apply Qgtb_false in Hu. rewrite Hu, Hst, Hn. simpl.
  destruct (Z.leb_spec (DQN.num_actions a) 0); [| lia].
  destruct s as [| o s]; [contradiction | reflexivity].
Qed.

End DQN_grad.

(** ** More on the A2C agent *)

Section A2C_more.
Context {AG : Autograd} {T : Torch} {U : Utils} {E : VecEnv}.

Lemma a2c_same_learner_refl (a : A2C.Agent) : a2c_same_learner a a.
Proof. unfold a2c_same_learner. tauto. Qed.

Lemma a2c_same_learner_trans (a1 a2 a3 : A2C.Agent) :
  a2c_same_learner a1 a2 -> a2c_same_learner a2 a3 ->
  a2c_same_learner a1 a3.
Proof. unfold a2c_same_learner. intuition congruence. Qed.

Lemma a2c_draw_learner {A} (f : RNG -> A * RNG) :
  keeps a2c_same_learner (A2C.draw f).
Proof.
  intros a x a'. unfold A2C.draw. destruct (f (A2C.rng a)) as [y g].
  intros [= _ <-]. unfold a2c_same_learner. simpl. tauto.
Qed.

Ltac a2c_learner_frame :=
  unfold A2C.add_scalar;
  repeat first
    [ apply a2c_draw_learner
    | progress keeps_with a2c_same_learner_refl a2c_same_learner_trans
        ltac:(unfold a2c_same_learner) ].

Lemma a2c_step_learner (t i : Z) : keeps a2c_same_learner (A2C.step t i).
Proof.
  unfold A2C.step, A2C.get_action. a2c_learner_frame.
  unfold A2C.record_episode. a2c_learner_frame.
Qed.

(** X17.  [A2C.step] never learns: a step that returns has left the
    network, the optimizer and the gradient buffers as they were. *)
Theorem a2c_step_never_learns (t i : Z) (a a' : A2C.Agent) :
  A2C.step t i a = Ok (tt, a') ->
  A2C.model a' = A2C.model a /\
  A2C.optimizer a' = A2C.optimizer a /\
  A2C.grad a' = A2C.grad a /\
  A2C.config a' = A2C.config a /\
  A2C.static_policy a' = A2C.static_policy a.
Proof.
  intros H. apply a2c_step_learner in H. unfold a2c_same_learner in H. tauto.
Qed.

(** X18.  Acting and evaluating agree: the values and log-probabilities
    that [get_action] returns for the actions it chose are the ones
    [evaluate_actions] recomputes for these actions on the same inputs,
    as long as the parameters have not changed. *)
Theorem evaluate_actions_recomputes_get_action (a a' : A2C.Agent)
    (s : list Obs) (h : Hidden) (m : list Q) (det : bool)
    (values logp : list D) (actions : list Z) (st : Hidden) :
  A2C.get_action s h m det a = Ok ((values, actions, logp, st), a') ->
  A2C.evaluate_actions s actions h m a' =
    Ok ((values, logp,
         Dmean (map entropy (fst (fst (ac_forward (A2C.model a) s h m)))),
         st), a').
Proof.
  intros H.
  pose proof (a2c_get_action_store _ _ _ _ _ _ _ H) as (_ & _ & _ & Hm).
  unfold A2C.get_action in H.
  apply bind_ok in H as (self & a0 & [= <- <-] & H).
  unfold A2C.evaluate_actions, bind at 1, get. rewrite Hm.
  destruct (ac_forward (A2C.model a) s h m) as [[logits vals] st'].
  apply bind_ok in H as (acts & a1 & _ & H).
  apply bind_ok in H as (lp & a2 & Hg & H). apply lift_ok in Hg as [Hg ->].
  injection H as <- <- <- <- <-.
  unfold bind, lift. rewrite Hg. reflexivity.
Qed.

(** X19.  An actor-critic output of the wrong size is an error: when the
    number of value estimates for the window is not
    [num_steps * num_processes], [compute_loss] raises [RuntimeError]
    (from [values.view(num_steps, num_processes, 1)]). *)
Theorem value_shape_mismatch_raises (a : A2C.Agent) (next_value : list D)
    (tstep : Z) (logits : list (list D)) (values logp : list D)
    (st h0 : Hidden) :
  let R := ro_compute_returns (A2C.rollouts a) next_value
             (gamma (A2C.config a)) in
  let num_steps := length (ro_rewards (A2C.rollouts a)) in
  let num_processes := match ro_rewards (A2C.rollouts a) with
                       | r :: _ => length r
                       | [] => O
                       end in
  py_index (ro_states R) 0 = Ok h0 ->
  ac_forward (A2C.model a) (concat (but_last (ro_observations R))) h0
    (concat (but_last (ro_masks R))) = (logits, values, st) ->
  gather (map log_softmax logits) (concat (ro_actions R)) = Ok logp ->
  length values <> (num_steps * num_processes)%nat ->
  A2C.compute_loss next_value tstep a = Raise RuntimeError.
Proof.
  intros R num_steps num_processes Hh0 Hfw Hg Hlen.
  unfold A2C.compute_loss.
  unfold bind at 1, get. unfold bind at 1, modify.
  unfold bind at 1, get. cbn [A2C.rollouts A2C.set_rollouts A2C.config].
  fold R. unfold bind at 1, lift. rewrite Hh0.
  unfold bind at 1. unfold A2C.evaluate_actions at 1.
  unfold bind at 1, get.
  cbn [A2C.model A2C.set_rollouts]. rewrite Hfw.
  unfold bind at 1, lift. rewrite Hg. unfold ret at 1.
  unfold bind at 1, lift. fold num_steps num_processes.
  unfold view at 1.
  destruct (Nat.eqb_spec (length values) (num_steps * num_processes));
    [contradiction | reflexivity].
Qed.

(** X20.  Gradients do not accumulate across updates of the A2C agent
    either: [update_] gives the same outcome whatever the gradient
    buffers held before. *)
Theorem a2c_gradients_do_not_accumulate (a : A2C.Agent) (g : Grad)
    (next_value : list D) (tstep : Z) :
  A2C.update_ next_value tstep (A2C.set_grad g a) =
  A2C.update_ next_value tstep a.
Proof.
  unfold A2C.update_, A2C.compute_loss, A2C.evaluate_actions,
    A2C.add_scalar, bind, get, modify, lift, ret.
  cbn.
  destruct (py_index _ 0) as [h0 | e]; [| reflexivity].
  destruct (ac_forward _ _ _ _) as [[logits values] st].
  destruct (gather _ _) as [logp | e]; [| reflexivity].
  destruct (view _ _ values) as [v2 | e]; [| reflexivity].
  destruct (view _ _ logp) as [l2 | e]; [| reflexivity].
  destruct (bcast2 Dsub _ _) as [adv | e]; [| reflexivity].
  destruct (bcast2 Dmul _ _) as [prod | e]; [| reflexivity].
  cbn. destruct (opt_step _ _ _) as [p o]. cbn.
  destruct (noisy_nets (A2C.config a)); reflexivity.
Qed.

End A2C_more.

(** ** Learning and reward bookkeeping of the A2C agent *)

Section A2C_more2.
Context {AG : Autograd} {T : Torch} {U : Utils} {E : VecEnv}.

Lemma py_index_last_inv {A} (xs : list A) (x : A) :
  py_index xs (-1) = Ok x -> last xs = Some x.
Proof.
  unfold py_index. change (-1 <? 0) with true. cbv zeta iota.
  destruct ((Z.of_nat (length xs) + -1 <? 0)
            || (Z.of_nat (length xs) <=? Z.of_nat (length xs) + -1)) eqn:Hb;
    [discriminate |].
  apply orb_false_iff in Hb as [Hb _]. apply Z.ltb_ge in Hb.
  replace (Z.to_nat (Z.of_nat (length xs) + -1))
    with (pred (length xs)) by lia.
  rewrite last_lookup.
  destruct (xs !! pred (length xs)); [congruence | discriminate].
Qed.

Lemma a2c_same_rollouts_refl (a : A2C.Agent) : a2c_same_rollouts a a.
Proof. unfold a2c_same_rollouts. tauto. Qed.

Lemma a2c_same_rollouts_trans (a1 a2 a3 : A2C.Agent) :
  a2c_same_rollouts a1 a2 -> a2c_same_rollouts a2 a3 ->
  a2c_same_rollouts a1 a3.
Proof. unfold a2c_same_rollouts. intuition congruence. Qed.

Ltac a2c_rollouts_frame :=
  unfold A2C.add_scalar;
  repeat first
    [ progress keeps_with a2c_same_rollouts_refl a2c_same_rollouts_trans
        ltac:(unfold a2c_same_rollouts)
    | apply keeps_modify; intros ?; unfold a2c_same_rollouts;
      destruct (opt_step _ _ _); simpl; tauto ].

Lemma a2c_update__rollouts (nv : list D) (t : Z) (a a2 : A2C.Agent)
    (r : Q * Q * Q * Q) :
  A2C.update_ nv t a = Ok (r, a2) ->
  A2C.rollouts a2 =
    ro_compute_returns (A2C.rollouts a) nv (gamma (A2C.config a)) /\
  A2C.config a2 = A2C.config a.
Proof.
  intros H. unfold A2C.update_ in H.
  apply bind_ok in H as ([[[[loss al] vl] de] dl] & a1 & Hc & H).
  match type of H with
  | ?m _ = _ => assert (K : keeps a2c_same_rollouts m) by a2c_rollouts_frame
  end.
  apply K in H. clear K.
  unfold A2C.compute_loss in Hc.
  apply bind_ok in Hc as (self & a0 & [= <- <-] & Hc).
  apply bind_ok in Hc as ([] & b & [= <-] & Hc).
  match type of Hc with
  | ?m _ = _ =>
      assert (K : keeps a2c_same_rollouts m)
        by (unfold A2C.evaluate_actions; a2c_rollouts_frame)
  end.
  apply K in Hc. clear K.
  unfold a2c_same_rollouts in *. simpl in *.
  destruct H as (-> & ->), Hc as (-> & ->). split; reflexivity.
Qed.

(** X21.  A learning [update] of the A2C agent computes the returns from
    the gradient-free bootstrap value of the last slot and only then
    rotates the window: the rollout storage it leaves is
    [after_update] of [compute_returns] of the storage it found. *)
Theorem update_learns_then_rotates (t : Z) (a a' : A2C.Agent) :
  A2C.update t a = Ok (tt, a') ->
  learn_start (A2C.config a) <= t ->
  exists (o : list Obs) (h : Hidden) (m : list Q),
    last (ro_observations (A2C.rollouts a)) = Some o /\
    last (ro_states (A2C.rollouts a)) = Some h /\
    last (ro_masks (A2C.rollouts a)) = Some m /\
    A2C.rollouts a' =
      ro_after_update
        (ro_compute_returns (A2C.rollouts a)
           (no_grad (snd (fst (ac_forward (A2C.model a) o h m))))
           (gamma (A2C.config a))).
Proof.
  intros H Hle. unfold A2C.update in H.
  apply bind_ok in H as (self & a0 & [= <- <-] & H).
  apply bind_ok in H as (o & a1 & Ho & H). apply lift_ok in Ho as [Ho ->].
  apply bind_ok in H as (h & a1 & Hh & H). apply lift_ok in Hh as [Hh ->].
  apply bind_ok in H as (m & a1 & Hm & H). apply lift_ok in Hm as [Hm ->].
  apply bind_ok in H as (nv & a1 & Hv & H).
  unfold A2C.get_values, bind, get in Hv.
  destruct (ac_forward (A2C.model a) o h m) as [[logits values] st] eqn:Hfw.
  injection Hv as <- <-.
  apply bind_ok in H as ([] & a2 & Hu & H). injection H as <-.
  destruct (Z.leb_spec (learn_start (A2C.config a)) t); [| lia].
  apply bind_ok in Hu as (r & a3 & Hu & [= <-]).
  apply a2c_update__rollouts in Hu as (Hr & _).
  exists o, h, m. repeat split; auto using py_index_last_inv.
  rewrite Hfw. simpl. now rewrite Hr.
Qed.

Lemma np_binop_lookup (op : Q -> Q -> Q) (x y z : list Q) (i : nat)
    (u v : Q) :
  np_binop op x y = Ok z -> x !! i = Some u -> y !! i = Some v ->
  z !! i = Some (op u v).
Proof.
  unfold np_binop. destruct (length x =? length y)%nat.
  - intros [= <-] Hu Hv. now rewrite lookup_zip_with, Hu, Hv.
  - destruct x as [| a [| a' x]].
    + intros _ Hu. discriminate.
    + intros [= <-] Hu Hv.
      destruct i; [| discriminate]. injection Hu as ->.
      now rewrite lookup_map, Hv.
    + destruct y as [| b [| b' y]]; try discriminate.
      intros [= <-] Hu Hv.
      destruct i; [| discriminate]. injection Hv as ->.
      simpl in Hu. injection Hu as ->. reflexivity.
Qed.

Lemma a2c_same_rewards_refl (a : A2C.Agent) : a2c_same_rewards a a.
Proof. unfold a2c_same_rewards. tauto. Qed.

Lemma a2c_same_rewards_trans (a1 a2 a3 : A2C.Agent) :
  a2c_same_rewards a1 a2 -> a2c_same_rewards a2 a3 ->
  a2c_same_rewards a1 a3.
Proof. unfold a2c_same_rewards. intuition congruence. Qed.

Lemma a2c_draw_rewards {A} (f : RNG -> A * RNG) :
  keeps a2c_same_rewards (A2C.draw f).
Proof.
  intros a x a'. unfold A2C.draw. destruct (f (A2C.rng a)) as [y g].
  intros [= _ <-]. unfold a2c_same_rewards. simpl. tauto.
Qed.

Ltac a2c_rewards_frame :=
  unfold A2C.add_scalar;
  repeat first
    [ apply a2c_draw_rewards
    | progress keeps_with a2c_same_rewards_refl a2c_same_rewards_trans
        ltac:(unfold a2c_same_rewards) ].

Lemma a2c_step_rewards_inv (t i : Z) (a a' : A2C.Agent) :
  A2C.step t i a = Ok (tt, a') ->
  exists acts obs reward done info e er fr1 x fr2 er2,
    env_step (A2C.envs a) acts = (obs, reward, done, info, e) /\
    np_inplace Qplus (A2C.episode_rewards a) reward = Ok er /\
    np_inplace Qmult (A2C.final_rewards a) (one_minus (astype_float done))
      = Ok fr1 /\
    np_binop Qmult (one_minus (one_minus (astype_float done))) er = Ok x /\
    np_inplace Qplus fr1 x = Ok fr2 /\
    np_inplace Qmult er (one_minus (astype_float done)) = Ok er2 /\
    A2C.episode_rewards a' = er2 /\ A2C.final_rewards a' = fr2.
Proof.
  intros H. unfold A2C.step in H.
  apply bind_ok in H as (self & a0 & [= <- <-] & H).
  apply bind_ok in H as (o & a1 & H1 & H). apply lift_ok in H1 as [_ ->].
  apply bind_ok in H as (h & a1 & H1 & H). apply lift_ok in H1 as [_ ->].
  apply bind_ok in H as (m & a1 & H1 & H). apply lift_ok in H1 as [_ ->].
  apply bind_ok in H as ([[[values acts] logp] states] & a3 & H3 & H).
  assert (K3 : keeps a2c_same_rewards (A2C.get_action o h m false))
    by (unfold A2C.get_action; a2c_rewards_frame).
  apply K3 in H3. clear K3.
  apply bind_ok in H as (self3 & a4 & [= <- <-] & H).
  destruct (env_step (A2C.envs a3) acts)
    as [[[[obs reward] done] info] e] eqn:Henv.
  apply bind_ok in H as ([] & b1 & [= <-] & H).
  apply bind_ok in H as (er & b2 & H2 & H). apply lift_ok in H2 as [H2 ->].
  apply bind_ok in H as ([] & b3 & [= <-] & H).
  apply bind_ok in H as (fr1 & b4 & H4 & H). apply lift_ok in H4 as [H4 ->].
  apply bind_ok in H as (x & b5 & H5 & H). apply lift_ok in H5 as [H5 ->].
  apply bind_ok in H as (fr2 & b6 & H6 & H). apply lift_ok in H6 as [H6 ->].
  apply bind_ok in H as ([] & b7 & [= <-] & H).
  apply bind_ok in H as (er2 & b8 & H8 & H). apply lift_ok in H8 as [H8 ->].
  apply bind_ok in H as ([] & b9 & [= <-] & H).
  match type of H with
  | ?m _ = _ =>
      assert (K : keeps a2c_same_rewards m)
        by (unfold A2C.record_episode; a2c_rewards_frame)
  end.
  apply K in H. clear K.
  unfold a2c_same_rewards in *. simpl in *.
  destruct H3 as (He3 & Hf3 & Hv3), H as (-> & -> & _).
  rewrite Hv3 in Henv. rewrite He3 in H2. rewrite Hf3 in H4.
  exists acts, obs, reward, done, info, e, er, fr1, x, fr2, er2.
  repeat split; assumption.
Qed.

(** X22.  Reward bookkeeping of [A2C.step]: for an environment that is
    not done the step's reward is added to its episode accumulator and
    its final reward is kept; for an environment whose done flag is set
    the final reward becomes the finished episode's total (accumulator
    plus the step's reward) and the accumulator is reset to zero. *)
Theorem a2c_rewards_accumulate_and_reset (t i : Z) (a a' : A2C.Agent) :
  A2C.step t i a = Ok (tt, a') ->
  exists (acts : list Z) (reward : list Q) (done : list bool),
    reward = snd (fst (fst (fst (env_step (A2C.envs a) acts)))) /\
    done = snd (fst (fst (env_step (A2C.envs a) acts))) /\
    forall (k : nat) (ep fin r : Q) (d : bool),
      A2C.episode_rewards a !! k = Some ep ->
      A2C.final_rewards a !! k = Some fin ->
      reward !! k = Some r -> done !! k = Some d ->
      exists ep' fin',
        A2C.episode_rewards a' !! k = Some ep' /\
        A2C.final_rewards a' !! k = Some fin' /\
        (if d then ep' == 0 /\ fin' == ep + r
         else ep' == ep + r /\ fin' == fin)%Q.
Proof.
  intros H.
  destruct (a2c_step_rewards_inv _ _ _ _ H)
    as (acts & obs & reward & done & info & e & er & fr1 & x & fr2 & er2
        & Henv & Her & Hfr1 & Hx & Hfr2 & Her2 & <- & <-).
  exists acts, reward, done. rewrite Henv. simpl.
  split; [reflexivity |]. split; [reflexivity |].
  intros k ep fin r d Hep Hfin Hr Hd.
  pose proof (one_minus_done_lookup _ _ _ Hd) as Hmask.
  assert (Hmask' : one_minus (one_minus (astype_float done)) !! k
                   = Some (1 - (1 - (if d then 1 else 0)))%Q).
  { unfold one_minus at 1. now rewrite lookup_map, Hmask. }
  pose proof (np_inplace_lookup _ _ _ _ _ _ _ Her Hep Hr) as Her_k.
  pose proof (np_inplace_lookup _ _ _ _ _ _ _ Hfr1 Hfin Hmask) as Hfr1_k.
  pose proof (np_binop_lookup _ _ _ _ _ _ _ Hx Hmask' Her_k) as Hx_k.
  pose proof (np_inplace_lookup _ _ _ _ _ _ _ Hfr2 Hfr1_k Hx_k) as Hfr2_k.
  pose proof (np_inplace_lookup _ _ _ _ _ _ _ Her2 Her_k Hmask) as Her2_k.
  eexists _, _. split; [exact Her2_k |]. split; [exact Hfr2_k |].
  destruct d; split; ring.
Qed.

End A2C_more2.

(** ** How the A2C agent chooses its actions *)

Section A2C_actions.
Context {AG : Autograd} {T : Torch} {U : Utils} {E : VecEnv}.

Lemma a2c_action_choice_aux (a a' : A2C.Agent) (s : list Obs) (h : Hidden)
    (m : list Q) (values logp : list D) (actions : list Z) (st : Hidden) :
  A2C.get_action s h m false a = Ok ((values, actions, logp, st), a') ->
  actions = fst (categorical_sample (fst (fst (ac_forward (A2C.model a) s h m)))
                   (A2C.rng a)) /\
  a' = A2C.set_rng
         (snd (categorical_sample (fst (fst (ac_forward (A2C.model a) s h m)))
                 (A2C.rng a))) a.
Proof.
  intros H. unfold A2C.get_action in H.
  apply bind_ok in H as (self & a0 & [= <- <-] & H).
  destruct (ac_forward (A2C.model a) s h m) as [[logits values'] st'].
  apply bind_ok in H as (acts & a1 & Ha & H).
  apply bind_ok in H as (lp & a2 & Hl & H). apply lift_ok in Hl as [_ ->].
  injection H as <- <- <- <- <-. simpl.
  unfold A2C.draw in Ha.
  destruct (categorical_sample logits (A2C.rng a)) as [x g].
  injection Ha as <- <-. split; reflexivity.
Qed.

(** X23.  The action choice of [A2C.get_action]: with
    [deterministic=True] the actions are arg-max entries of the softmax of
    the logits and the agent is left as it was; otherwise they are the
    sample drawn from the categorical distribution of the logits, and
    only the source of randomness advances. *)
Theorem a2c_action_choice (a a' : A2C.Agent) (s : list Obs) (h : Hidden)
    (m : list Q) (det : bool) (values logp : list D) (actions : list Z)
    (st : Hidden) :
  A2C.get_action s h m det a = Ok ((values, actions, logp, st), a') ->
  let logits := fst (fst (ac_forward (A2C.model a) s h m)) in
  if det
  then a' = a /\ Forall2 is_argmax (map softmax logits) actions
  else actions = fst (categorical_sample logits (A2C.rng a)) /\
       a' = A2C.set_rng (snd (categorical_sample logits (A2C.rng a))) a.
Proof.
  intros H. unfold A2C.get_action in H.
  apply bind_ok in H as (self & a0 & [= <- <-] & H).
  destruct (ac_forward (A2C.model a) s h m) as [[logits values'] st'].
  apply bind_ok in H as (acts & a1 & Ha & H).
  apply bind_ok in H as (lp & a2 & Hl & H). apply lift_ok in Hl as [_ ->].
  injection H as <- <- <- <- <-. simpl.
  destruct det.
  - apply lift_ok in Ha as [Ha ->]. split; [reflexivity |].
    apply rmapM_inv in Ha. eapply Forall2_impl; [exact Ha |].
    intros row j. apply argmax_row_spec.
  - unfold A2C.draw in Ha.
    destruct (categorical_sample logits (A2C.rng a)) as [x g].
    injection Ha as <- <-. split; reflexivity.
Qed.

Lemma a2c_same_world_refl (a : A2C.Agent) : a2c_same_world a a.
Proof. unfold a2c_same_world. tauto. Qed.

Lemma a2c_same_world_trans (a1 a2 a3 : A2C.Agent) :
  a2c_same_world a1 a2 -> a2c_same_world a2 a3 -> a2c_same_world a1 a3.
Proof. unfold a2c_same_world. intuition congruence. Qed.

Ltac a2c_world_frame :=
  unfold A2C.add_scalar;
  repeat first
    [ progress keeps_with a2c_same_world_refl a2c_same_world_trans
        ltac:(unfold a2c_same_world) ].

(** X24.  [A2C.step] always samples: whatever [static_policy] says, the
    environments are stepped with the actions drawn from the categorical
    distribution of the logits on slot [step] of the rollout storage, and
    the source of randomness advances by that one draw. *)
Theorem a2c_step_always_samples (t i : Z) (a a' : A2C.Agent) :
  A2C.step t i a = Ok (tt, a') ->
  exists (o : list Obs) (h : Hidden) (m : list Q),
    py_index (ro_observations (A2C.rollouts a)) i = Ok o /\
    py_index (ro_states (A2C.rollouts a)) i = Ok h /\
    py_index (ro_masks (A2C.rollouts a)) i = Ok m /\
    let logits := fst (fst (ac_forward (A2C.model a) o h m)) in
    let drawn := categorical_sample logits (A2C.rng a) in
    A2C.envs a' = snd (env_step (A2C.envs a) (fst drawn)) /\
    A2C.rng a' = snd drawn.
Proof.
  intros H. unfold A2C.step in H.
  apply bind_ok in H as (self & a0 & [= <- <-] & H).
  apply bind_ok in H as (o & a1 & Ho & H). apply lift_ok in Ho as [Ho ->].
  apply bind_ok in H as (h & a1 & Hh & H). apply lift_ok in Hh as [Hh ->].
  apply bind_ok in H as (m & a1 & Hm & H). apply lift_ok in Hm as [Hm ->].
  apply bind_ok in H as ([[[values acts] logp] states] & a3 & H3 & H).
  apply a2c_action_choice_aux in H3 as [-> ->].
  apply bind_ok in H as (self3 & a4 & [= <- <-] & H).
  cbn [A2C.envs A2C.set_rng] in H.
  destruct (env_step (A2C.envs a) _) as [[[[obs reward] done] info] e]
    eqn:Henv.
  apply bind_ok in H as ([] & b1 & [= <-] & H).
  match type of H with
  | ?k _ = _ =>
      assert (K : keeps a2c_same_world k)
        by (unfold A2C.record_episode; a2c_world_frame)
  end.
  apply K in H. clear K. destruct H as [Hg He].
  exists o, h, m. repeat split; try assumption.
  rewrite He. simpl. now rewrite Henv.
Qed.

End A2C_actions.

(** ** The properties above on the example agents *)

Section More_witnesses.
Import Toy.

Lemma toy_step_runs :
  DQN.step 0 toy_dqn = Ok (tt, state_after (DQN.step 0) toy_dqn).
Proof. apply state_after_ok. vm_compute. reflexivity. Qed.

Lemma toy_a2c_step_runs : A2C.step 0 0 toy_a2c = Ok (tt, toy_a2c1).
Proof.
  assert (H0 : is_ok (A2C.step 0 0 toy_a2c) = true)
    by (vm_compute; reflexivity).
  pose proof (a2c_after_ok (A2C.step 0 0) toy_a2c H0) as H.
  fold toy_a2c1 in H. exact H.
Qed.

Lemma toy_a2c_update_runs :
  A2C.update 2 toy_a2c2 = Ok (tt, state_after (A2C.update 2) toy_a2c2).
Proof. apply state_after_ok. vm_compute. reflexivity. Qed.

Lemma dqn_step_never_learns_witness :
  DQN.step 0 toy_dqn = Ok (tt, state_after (DQN.step 0) toy_dqn) /\
  DQN.model (state_after (DQN.step 0) toy_dqn) = DQN.model toy_dqn /\
  DQN.memory (state_after (DQN.step 0) toy_dqn) = DQN.memory toy_dqn.
Proof.
  split; [exact toy_step_runs |].
  destruct (dqn_step_never_learns 0 toy_dqn _ toy_step_runs)
    as (Hm & _ & _ & _ & Hmem & _).
  split; [exact Hm | exact Hmem].
Defined.

Lemma evaluation_mode_is_inert_witness :
  DQN.static_policy toy_eval = true /\
  run_calls five_rounds toy_eval = Ok (tt, after five_rounds toy_eval) /\
  DQN.model (after five_rounds toy_eval) = DQN.model toy_eval /\
  DQN.memory (after five_rounds toy_eval) = DQN.memory toy_eval.
Proof.
  assert (H : run_calls five_rounds toy_eval
              = Ok (tt, after five_rounds toy_eval))
    by (apply after_ok; vm_compute; reflexivity).
  split; [reflexivity |]. split; [exact H |].
  destruct (evaluation_mode_is_inert five_rounds toy_eval _ eq_refl H)
    as (_ & Hm & _ & _ & _ & Hmem & _).
  split; [exact Hm | exact Hmem].
Defined.

Lemma update_counter_in_range_witness :
  run_calls five_rounds toy_dqn = Ok (tt, toy_a1) /\
  0 <= DQN.update_count toy_a1 < 5.
Proof.
  assert (H : run_calls five_rounds toy_dqn = Ok (tt, toy_a1))
    by (apply after_ok; vm_compute; reflexivity).
  split; [exact H |].
  apply (update_counter_in_range five_rounds toy_dqn toy_a1);
    [reflexivity | split; [discriminate | reflexivity] | exact H].
Defined.

Lemma zero_sync_frequency_raises_witness :
  target_net_update_freq (DQN.config toy_nosync) = 0 /\
  DQN.update_ (Some toy_obs) (Some [0; 1]) (Some [1; 2]%Q)
    toy_obs [1; 0] 0 toy_nosync = Raise ZeroDivisionError.
Proof.
  split; [reflexivity |].
  destruct (zero_sync_frequency_raises toy_nosync toy_obs [0; 1]
              [1; 2]%Q toy_obs [1; 0] 0 eq_refl
              ltac:(vm_compute; discriminate) eq_refl) as [_ H].
  pose (v := value_or (toy_batch, toy_nosync)
               (DQN.prep_minibatch
                  (DQN.set_memory
                     (appended toy_nosync toy_obs [0; 1] [1; 2]%Q
                        toy_obs [1; 0]) toy_nosync))).
  pose (w := value_or (const 0, toy_nosync)
               (DQN.compute_loss (fst v) 0 (snd v))).
  apply (H (fst v) (snd v) (fst w) (snd w)).
  - rewrite <- surjective_pairing. apply value_or_ok.
    vm_compute. reflexivity.
  - rewrite <- surjective_pairing. apply value_or_ok.
    vm_compute. reflexivity.
Defined.

Lemma episode_rewards_accumulate_and_reset_witness :
  DQN.step 0 toy_dqn = Ok (tt, state_after (DQN.step 0) toy_dqn) /\
  DQN.episode_rewards toy_dqn = [0; 0]%Q /\
  exists (rews : list Q) (dns : list bool),
    DQN.rewards (state_after (DQN.step 0) toy_dqn) = Some rews /\
    DQN.dones (state_after (DQN.step 0) toy_dqn) = Some dns /\
    forall (i : nat) (old r : Q) (d : bool),
      DQN.episode_rewards toy_dqn !! i = Some old ->
      rews !! i = Some r -> dns !! i = Some d ->
      DQN.episode_rewards (state_after (DQN.step 0) toy_dqn) !! i
        = Some (if d then 0 else old + r)%Q.
Proof.
  split; [exact toy_step_runs |]. split; [reflexivity |].
  destruct (episode_rewards_accumulate_and_reset 0 toy_dqn _ toy_step_runs)
    as (rews & dns & Hr & Hd & _ & Hall).
  exists rews, dns. split; [exact Hr |]. split; [exact Hd | exact Hall].
Defined.

Lemma step_then_update_stores_the_step_witness :
  DQN.step 0 toy_dqn = Ok (tt, state_after (DQN.step 0) toy_dqn) /\
  exists (acts : list Z) (t0 t1 : Transition),
    DQN.actions (state_after (DQN.step 0) toy_dqn) = Some acts /\
    tr_state t0 = [Fin 1; Fin 0] /\ Some (tr_action t0) = acts !! 0%nat /\
    tr_reward t0 = 1%Q /\ tr_next_state t0 = [Fin 1; Fin 0] /\
    tr_terminal t0 = 1 /\
    tr_reward t1 = 2%Q /\ tr_terminal t1 = 0 /\
    DQN.update (-1) (state_after (DQN.step 0) toy_dqn) =
      Ok (tt, DQN.set_memory
                (mem_push (mem_push (DQN.memory toy_dqn) t0) t1)
                (state_after (DQN.step 0) toy_dqn)).
Proof.
  split; [exact toy_step_runs |].
  destruct (step_then_update_stores_the_step 0 (-1) toy_dqn _ toy_step_runs
              eq_refl eq_refl)
    as (acts & rews & dns & ts & Ha & Hr & Hd & Hts & H).
  assert (Ha' : DQN.actions (state_after (DQN.step 0) toy_dqn) = Some [0; 0])
    by (vm_compute; reflexivity).
  assert (Hr' : DQN.rewards (state_after (DQN.step 0) toy_dqn)
                = Some [1; 2]%Q) by (vm_compute; reflexivity).
  assert (Hd' : DQN.dones (state_after (DQN.step 0) toy_dqn)
                = Some [true; false]) by (vm_compute; reflexivity).
  rewrite Ha' in Ha. injection Ha as <-.
  rewrite Hr' in Hr. injection Hr as <-.
  rewrite Hd' in Hd. injection Hd as <-.
  assert (Ho : DQN.observations (state_after (DQN.step 0) toy_dqn) = toy_obs)
    by (vm_compute; reflexivity).
  rewrite Ho in Hts.
  change (DQN.observations toy_dqn) with toy_obs in Hts.
  pose proof (Hts 0%nat) as H0. pose proof (Hts 1%nat) as H1.
  pose proof (Hts 2%nat) as H2.
  destruct ts as [| t0 [| t1 [| t2 ts]]]; try discriminate.
  injection H0 as ->. injection H1 as ->.
  exists [0; 0],
    {| tr_state := [Fin 1; Fin 0]; tr_action := 0; tr_reward := 1;
       tr_next_state := [Fin 1; Fin 0]; tr_terminal := 1 |},
    {| tr_state := [Fin 1; Fin 0]; tr_action := 0; tr_reward := 2;
       tr_next_state := [Fin 1; Fin 0]; tr_terminal := 0 |}.
  split; [exact Ha' |].
  do 7 (split; [reflexivity |]). exact H.
Defined.

Lemma reward_window_bounded_witness :
  (length (DQN.last_100_rewards (state_after (DQN.step 0) toy_dqn))
     <= 100)%nat /\
  DQN.last_100_rewards (state_after (DQN.step 0) toy_dqn) =
    DQN.last_100_rewards toy_dqn
    ++ episode_returns (DQN.infos (state_after (DQN.step 0) toy_dqn)) /\
  (length (A2C.last_100_rewards toy_a2c1) <= 100)%nat.
Proof.
  destruct (reward_window_bounded (AG := autograd) (T := torch) (U := utils)
              (E := vecenv)) as [Hd Ha].
  destruct (Hd 0 toy_dqn _ toy_step_runs) as [Hlen Happ].
  { vm_compute. lia. }
  split; [exact Hlen |]. split.
  - apply Happ. vm_compute. lia.
  - apply (Ha 0 0 toy_a2c _ toy_a2c_step_runs). vm_compute. lia.
Defined.

Lemma metrics_are_append_only_witness :
  DQN.tb_writer toy_dqn
    `prefix_of` DQN.tb_writer (state_after (DQN.step 0) toy_dqn) /\
  DQN.tb_writer (state_after (DQN.step 0) toy_dqn)
    `prefix_of` DQN.tb_writer
                  (state_after (DQN.update 0)
                     (state_after (DQN.step 0) toy_dqn)) /\
  A2C.tb_writer toy_a2c `prefix_of` A2C.tb_writer toy_a2c1 /\
  A2C.tb_writer toy_a2c2
    `prefix_of` A2C.tb_writer (state_after (A2C.update 2) toy_a2c2).
Proof.
  destruct (metrics_are_append_only (AG := autograd) (T := torch)
              (U := utils) (E := vecenv)) as (H1 & H2 & H3 & H4).
  split; [exact (H1 0 toy_dqn _ toy_step_runs) |].
  split.
  { apply (H2 0). apply state_after_ok. vm_compute. reflexivity. }
  split; [exact (H3 0 0 toy_a2c _ toy_a2c_step_runs) |].
  exact (H4 2 toy_a2c2 _ toy_a2c_update_runs).
Defined.

Lemma toy_dqn_constructed :
  DQN.init false O toy_config 2 toy_stream = Ok toy_dqn.
Proof.
  exact (value_or_ok toy_blank (DQN.init false O toy_config 2 toy_stream)
           eq_refl).
Qed.

Lemma fresh_dqn_agent_witness :
  DQN.init false O toy_config 2 toy_stream = Ok toy_dqn /\
  DQN.target_model toy_dqn = DQN.model toy_dqn /\
  DQN.update_count toy_dqn = 0 /\
  DQN.update 0 toy_dqn = Raise AttributeError.
Proof.
  split; [exact toy_dqn_constructed |].
  destruct (fresh_dqn_agent (AG := autograd) (T := torch) (U := utils)
              (E := vecenv) false O toy_config 2 toy_stream toy_dqn
              toy_dqn_constructed)
    as (_ & _ & _ & Ht & Hc & _ & _ & _ & _ & _ & _ & _ & Hu).
  split; [exact Ht |]. split; [exact Hc | exact (Hu 0)].
Defined.

Lemma schedule_edge_cases_witness :
  DQN.init false O toy_config_no_decay 2 toy_stream = Raise IndexError /\
  exists a, DQN.init false O toy_config_no_final 2 toy_stream = Ok a /\
    DQN.anneal_eps a = Some (PiecewiseSchedule 1%Q [] [3]%Q 100).
Proof.
  split.
  - apply (proj1 (schedule_edge_cases (AG := autograd) (T := torch) (U := utils)
              (E := vecenv) false O toy_config_no_decay 2
                    toy_stream) (1 # 2)%Q); reflexivity.
  - apply (proj2 (schedule_edge_cases (AG := autograd) (T := torch) (U := utils)
              (E := vecenv) false O toy_config_no_final 2
                    toy_stream)). reflexivity.
Defined.

Lemma fresh_a2c_agent_witness :
  exists a, A2C.init false O toy_config 2 toy_stream = Ok a /\
    A2C.episode_rewards a = [0; 0]%Q /\
    A2C.final_rewards a = [0; 0]%Q /\
    A2C.last_100_rewards a = [].
Proof.
  pose proof (fresh_a2c_agent (AG := autograd) (T := torch) (U := utils)
              (E := vecenv) false O toy_config 2 toy_stream) as H.
  cbv zeta in H. destruct H as [_ H].
  destruct H as (a & Ha & _ & _ & _ & _ & _ & He & Hf & Hw).
  { vm_compute. discriminate. }
  exists a. split; [exact Ha |]. split; [exact He |].
  split; [exact Hf | exact Hw].
Defined.

Lemma action_out_of_range_raises_witness :
  DQN.compute_loss toy_bad_batch 0 toy_dqn = Raise RuntimeError.
Proof.
  apply action_out_of_range_raises. right.
  exists 1%nat, [@mkD autograd 1%Q 1%Q; @mkD autograd 0%Q 1%Q], 5.
  split; [vm_compute; reflexivity |].
  split; [reflexivity |]. vm_compute. intros [_ H]. discriminate H.
Defined.

Lemma max_next_action_attains_max_witness :
  exists acts : list Z,
    DQN.get_max_next_state_action toy_next_obs toy_dqn
      = Ok (acts, toy_dqn) /\
    Forall2 is_argmax
      (q_forward (DQN.target_model toy_dqn) toy_next_obs) acts /\
    gather (q_forward (DQN.target_model toy_dqn) toy_next_obs) acts =
      rmapM row_max (q_forward (DQN.target_model toy_dqn) toy_next_obs).
Proof.
  pose (v := value_or ([], toy_dqn)
               (DQN.get_max_next_state_action toy_next_obs toy_dqn)).
  assert (H : DQN.get_max_next_state_action toy_next_obs toy_dqn
              = Ok (fst v, snd v)).
  { rewrite <- surjective_pairing. apply value_or_ok.
    vm_compute. reflexivity. }
  destruct (max_next_action_attains_max toy_dqn (snd v) toy_next_obs
              (fst v) H) as (Ha & Hall & Hg).
  exists (fst v). rewrite Ha in H.
  split; [exact H |]. split; [exact Hall | exact Hg].
Defined.

Lemma gradients_do_not_accumulate_witness :
  DQN.update_ (Some toy_obs) (Some [0; 1]) (Some [1; 2]%Q)
    toy_obs [1; 0] 0 (DQN.set_grad (7%Q : @Grad autograd) toy_dqn) =
  DQN.update_ (Some toy_obs) (Some [0; 1]) (Some [1; 2]%Q)
    toy_obs [1; 0] 0 toy_dqn.
Proof.
  apply (gradients_do_not_accumulate toy_dqn (7%Q : @Grad autograd)); [reflexivity |].
  vm_compute. discriminate.
Defined.

Lemma exploring_without_actions_raises_witness :
  DQN.num_actions toy_noact = 0 /\
  DQN.get_action toy_obs 1%Q toy_noact = Raise ValueError.
Proof.
  split; [reflexivity |].
  apply exploring_without_actions_raises;
    [discriminate | reflexivity | reflexivity | vm_compute; discriminate
    | vm_compute; discriminate].
Defined.

Lemma a2c_step_never_learns_witness :
  A2C.step 0 0 toy_a2c = Ok (tt, toy_a2c1) /\
  A2C.model toy_a2c1 = A2C.model toy_a2c /\
  A2C.optimizer toy_a2c1 = A2C.optimizer toy_a2c /\
  A2C.grad toy_a2c1 = A2C.grad toy_a2c.
Proof.
  split; [exact toy_a2c_step_runs |].
  destruct (a2c_step_never_learns 0 0 toy_a2c _ toy_a2c_step_runs)
    as (Hm & Ho & Hg & _).
  split; [exact Hm |]. split; [exact Ho | exact Hg].
Defined.

Lemma toy_a2c_acts (det : bool) :
  is_ok (A2C.get_action toy_obs tt [1; 1]%Q det toy_a2c) = true.
Proof. destruct det; vm_compute; reflexivity. Qed.

Lemma evaluate_actions_recomputes_get_action_witness :
  exists (values logp : list D) (actions : list Z) (a' : A2C.Agent),
    A2C.get_action toy_obs tt [1; 1]%Q false toy_a2c
      = Ok ((values, actions, logp, tt), a') /\
    exists (ent : D),
      A2C.evaluate_actions toy_obs actions tt [1; 1]%Q a'
        = Ok ((values, logp, ent, tt), a').
Proof.
  pose proof (value_or_ok (([], [], [], tt), toy_a2c) _ (toy_a2c_acts false))
    as H.
  destruct (value_or _ _) as [[[[values actions] logp] []] a'].
  exists values, logp, actions, a'. split; [exact H |].
  eexists.
  exact (evaluate_actions_recomputes_get_action toy_a2c a' _ _ _ _ _ _ _ _ H).
Defined.

Lemma value_shape_mismatch_raises_witness :
  A2C.compute_loss [const 1; const 2] 2 toy_a2c_wide = Raise RuntimeError.
Proof.
  pose (R := ro_compute_returns (A2C.rollouts toy_a2c_wide)
               [const 1; const 2] (gamma (A2C.config toy_a2c_wide))).
  pose (out := ac_forward (A2C.model toy_a2c_wide)
                 (concat (but_last (ro_observations R))) tt
                 (concat (but_last (ro_masks R)))).
  pose (logp := value_or []
                  (gather (map log_softmax (fst (fst out)))
                     (concat (ro_actions R)))).
  apply (value_shape_mismatch_raises toy_a2c_wide [const 1; const 2] 2
           (fst (fst out)) (snd (fst out)) logp (snd out) tt).
  - vm_compute. reflexivity.
  - reflexivity.
  - apply value_or_ok. vm_compute. reflexivity.
  - vm_compute. discriminate.
Defined.

Lemma update_learns_then_rotates_witness :
  A2C.update 2 toy_a2c2 = Ok (tt, state_after (A2C.update 2) toy_a2c2) /\
  exists (o : list Obs) (m : list Q),
    A2C.rollouts (state_after (A2C.update 2) toy_a2c2) =
      ro_after_update
        (ro_compute_returns (A2C.rollouts toy_a2c2)
           (no_grad (snd (fst (ac_forward (A2C.model toy_a2c2) o tt m))))
           (gamma (A2C.config toy_a2c2))).
Proof.
  split; [exact toy_a2c_update_runs |].
  destruct (update_learns_then_rotates 2 toy_a2c2 _ toy_a2c_update_runs)
    as (o & [] & m & _ & _ & _ & H).
  { vm_compute. discriminate. }
  exists o, m. exact H.
Defined.

Lemma a2c_rewards_accumulate_and_reset_witness :
  A2C.step 0 0 toy_a2c = Ok (tt, toy_a2c1) /\
  exists ep' fin' : Q,
    A2C.episode_rewards toy_a2c1 !! 0%nat = Some ep' /\
    A2C.final_rewards toy_a2c1 !! 0%nat = Some fin' /\
    (ep' == 0 /\ fin' == 0 + 1)%Q.
Proof.
  split; [exact toy_a2c_step_runs |].
  destruct (a2c_rewards_accumulate_and_reset 0 0 toy_a2c _ toy_a2c_step_runs)
    as (acts & reward & done & -> & -> & Hall).
  exact (Hall 0%nat 0%Q 0%Q 1%Q true eq_refl eq_refl eq_refl eq_refl).
Defined.

Lemma a2c_action_choice_witness :
  exists (values logp : list D) (actions : list Z),
    A2C.get_action toy_obs tt [1; 1]%Q true toy_a2c
      = Ok ((values, actions, logp, tt), toy_a2c) /\
    Forall2 is_argmax
      (map softmax
         (fst (fst (ac_forward (A2C.model toy_a2c) toy_obs tt
                      [1; 1]%Q)))) actions.
Proof.
  pose proof (value_or_ok (([], [], [], tt), toy_a2c) _ (toy_a2c_acts true))
    as H.
  destruct (value_or _ _) as [[[[values actions] logp] []] a'].
  destruct (a2c_action_choice toy_a2c a' _ _ _ true _ _ _ _ H) as [Ha Hall].
  exists values, logp, actions. rewrite Ha in H.
  split; [exact H | exact Hall].
Defined.

Lemma a2c_step_always_samples_witness :
  A2C.step 0 0 toy_a2c = Ok (tt, toy_a2c1) /\
  exists (o : list Obs) (m : list Q),
    A2C.rng toy_a2c1 =
      snd (categorical_sample
             (fst (fst (ac_forward (A2C.model toy_a2c) o tt m)))
             (A2C.rng toy_a2c)).
Proof.
  split; [exact toy_a2c_step_runs |].
  destruct (a2c_step_always_samples 0 0 toy_a2c _ toy_a2c_step_runs)
    as (o & [] & m & _ & _ & _ & _ & H).
  exists o, m. exact H.
Defined.
End More_witnesses.
